(** * dnt-yt: the cache / dedup coordination engine

    A shallow embedding of [app/jobs.py], [app/main.py] and the parts of
    [app/ytdlp_utils.py] they call, together with models of the external
    collaborators the code talks to (the Redis key-value store, the RQ job
    queue, the file system, the [yt-dlp] subprocess and Python's [json]
    module), and the properties of the engine proved over that embedding.

    Conventions.
    - A Python [str] that has a UTF-8 encoding is represented by the byte
      sequence of that encoding, as a [string]; on such a [str],
      [str.encode("utf-8")] and [bytes.decode("utf-8")] are the identity on
      representations.  Identifiers, keys, arguments and messages are of
      this kind.  A file name is the byte string the file system holds;
      [os.fsdecode] makes of one that is not UTF-8 a [str] with lone
      surrogates, which has no UTF-8 encoding ([Py.fsdecode], [Py.VLone]).
    - Wall-clock time and Redis time are one clock, counted in whole
      seconds, in [Z]; what [time.time()] reads between two seconds is the
      environment's ([elapsed_millis]).
    - Effectful code is written in a small command monad [Prog]; every
      external call is one command, executed atomically on the [World], and
      leaves an [event] for the statements to speak about. *)

From Stdlib Require Import ZArith Lia String Ascii List Bool Sorted.
From stdpp Require Import base option list gmap strings pretty.

Local Open Scope Z_scope.

(* ===================================================================== *)
(** * Python values *)
(* ===================================================================== *)

Module Py.

(** The double quote and the control characters that string literals
    cannot spell directly. *)
Definition dquote : ascii := ascii_of_nat 34.
Definition backslash : ascii := ascii_of_nat 92.
Definition ch_bs : ascii := ascii_of_nat 8.
Definition ch_tab : ascii := ascii_of_nat 9.
Definition ch_lf : ascii := ascii_of_nat 10.
Definition ch_ff : ascii := ascii_of_nat 12.
Definition ch_cr : ascii := ascii_of_nat 13.

(** [s.encode("utf-8")] and [b.decode("utf-8")], for a [str] that has an
    encoding. *)
Definition encode_utf8 (s : string) : string := s.
Definition decode_utf8 (b : string) : string := b.

(** [s.startswith(p)]. *)
Fixpoint startswith (p s : string) : bool :=
  match p, s with
  | EmptyString, _ => true
  | String a p', String b s' => if decide (a = b) then startswith p' s' else false
  | String _ _, EmptyString => false
  end.

(** [s[n:]]. *)
Fixpoint str_drop (n : nat) (s : string) : string :=
  match n, s with
  | S n', String _ s' => str_drop n' s'
  | _, _ => s
  end.

(** [s.endswith(c)] for a single character [c]. *)
Fixpoint endswith_char (c : ascii) (s : string) : bool :=
  match s with
  | EmptyString => false
  | String a EmptyString => bool_decide (a = c)
  | String _ s' => endswith_char c s'
  end.

(** [s.split(sep)] for a single-character separator. *)
Fixpoint split_char (sep : ascii) (s : string) : list string :=
  match s with
  | EmptyString => [EmptyString]
  | String a s' =>
      if decide (a = sep) then EmptyString :: split_char sep s'
      else match split_char sep s' with
           | piece :: rest => String a piece :: rest
           | [] => [String a EmptyString]
           end
  end.

(** [str(n)] for an [int]. *)
Definition str_of_int (n : Z) : string := pretty n.

(** The values a metadata payload holds: [None], [bool], [int], [str].
    A [str] that has a UTF-8 encoding is a [VStr], held as the bytes of that
    encoding; a [str] with lone surrogates, which has none, is a [VLone],
    held as the bytes [os.fsencode] gives for it. *)
Inductive value : Type :=
| VNone
| VBool (b : bool)
| VInt (n : Z)
| VStr (s : string)
| VLone (raw : string).

Global Instance value_eq_dec : EqDecision value.
Proof. solve_decision. Defined.

(** Truth value of a Python object, as [if x:] and [x and y] test it. *)
Definition truthy (v : value) : bool :=
  match v with
  | VNone => false
  | VBool b => b
  | VInt n => negb (n =? 0)
  | VStr s => negb (bool_decide (s = EmptyString))
  | VLone raw => negb (bool_decide (raw = EmptyString))
  end.

(** Whether a byte lies between two others. *)
Definition byte_in (lo hi : N) (c : ascii) : bool :=
  ((lo <=? N_of_ascii c) && (N_of_ascii c <=? hi))%N.

(** Whether a byte string is UTF-8: shortest forms only, no surrogate, no
    code point above U+10FFFF. *)
Fixpoint valid_utf8 (s : string) : bool :=
  match s with
  | EmptyString => true
  | String a r =>
      let n := N_of_ascii a in
      if (n <? 128)%N then valid_utf8 r
      else if byte_in 194 223 a then
        match r with
        | String b r' => byte_in 128 191 b && valid_utf8 r'
        | _ => false
        end
      else if byte_in 224 239 a then
        match r with
        | String b (String c r') =>
            byte_in (if (n =? 224)%N then 160 else 128)
                    (if (n =? 237)%N then 159 else 191) b
            && byte_in 128 191 c && valid_utf8 r'
        | _ => false
        end
      else if byte_in 240 244 a then
        match r with
        | String b (String c (String d r')) =>
            byte_in (if (n =? 240)%N then 144 else 128)
                    (if (n =? 244)%N then 143 else 191) b
            && byte_in 128 191 c && byte_in 128 191 d && valid_utf8 r'
        | _ => false
        end
      else false
  end.

(** [os.fsdecode(p)], the [str] Python makes of a file name: the text the
    name encodes when it is UTF-8, a [str] with lone surrogates otherwise. *)
Definition fsdecode (p : string) : value :=
  if valid_utf8 p then VStr p else VLone p.

(** A [str] about to be encoded: one that has a UTF-8 encoding, held as
    those bytes, or one with lone surrogates. *)
Inductive text : Type :=
| Text (utf8 : string)
| Lone (raw : string).

(** [t.encode("utf-8")]; [None] stands for [UnicodeEncodeError]. *)
Definition encode (t : text) : option string :=
  match t with
  | Text utf8 => Some utf8
  | Lone _ => None
  end.

(** The limit CPython puts by default on the conversion between [int] and
    [str]: an [int] of more than 4300 digits makes it raise [ValueError]. *)
Definition int_max_str_digits : Z := 4300.

Definition int_ok (n : Z) : bool := Z.abs n <? 10 ^ int_max_str_digits.

(** A [dict] with [str] keys, in insertion order. *)
Definition dict : Type := list (string * value).

(** [d.get(k)]: the value stored under [k], or [None]. *)
Fixpoint dict_get (k : string) (d : dict) : value :=
  match d with
  | [] => VNone
  | (k', v) :: d' => if decide (k' = k) then v else dict_get k d'
  end.

(** [d[k] = v]: overwrite in place when [k] is present, append otherwise. *)
Fixpoint dict_set (k : string) (v : value) (d : dict) : dict :=
  match d with
  | [] => [(k, v)]
  | (k', v') :: d' =>
      if decide (k' = k) then (k', v) :: d' else (k', v') :: dict_set k v d'
  end.

(** A [dict] never holds one key twice. *)
Definition wf_dict (d : dict) : Prop := NoDup (d.*1).

End Py.

(* ===================================================================== *)
(** * Python's [json] module, on flat objects of scalars

    [dumps] follows [json.dumps(obj, ensure_ascii=False)]: members separated
    by [", "], key and value by [": "], strings escaped by the table of
    [json.encoder] (backslash, double quote, the five short escapes, and
    [\u00XX] for the other characters below 0x20; bytes from 0x80 on pass
    through untouched); it raises [ValueError] on an [int] of more than
    4300 digits, and what it returns has lone surrogates when a string of
    the object has.  [loads] follows [json.loads] with the default strict
    scanner on the fragment of objects whose values are scalars; it answers
    [None] where [json.loads] raises (an [int] of more than 4300 digits
    included) and also on documents outside that fragment (nested
    containers, floats, a non-object document, [\u] escapes that name
    surrogates). *)
(* ===================================================================== *)

Module Json.
Import Py.

Definition hex_char (n : N) : ascii :=
  ascii_of_N (if (n <? 10)%N then 48 + n else 87 + n).

(** One character of a string literal, as [json.encoder.ESCAPE_DCT] has it. *)
Definition escape_char (c : ascii) : string :=
  if decide (c = dquote) then String backslash (String dquote EmptyString)
  else if decide (c = backslash) then String backslash (String backslash EmptyString)
  else if decide (c = ch_bs) then String backslash "b"
  else if decide (c = ch_ff) then String backslash "f"
  else if decide (c = ch_lf) then String backslash "n"
  else if decide (c = ch_cr) then String backslash "r"
  else if decide (c = ch_tab) then String backslash "t"
  else if (N_of_ascii c <? 32)%N then
    String backslash
      (String "u" (String "0" (String "0"
         (String (hex_char (N_of_ascii c / 16))
            (String (hex_char (N_of_ascii c mod 16)) EmptyString)))))
  else String c EmptyString.

Fixpoint escape (s : string) : string :=
  match s with
  | EmptyString => EmptyString
  | String c s' => escape_char c +:+ escape s'
  end.

Definition dumps_str (s : string) : string :=
  String dquote (escape s +:+ String dquote EmptyString).

Definition dumps_value (v : value) : string :=
  match v with
  | VNone => "null"
  | VBool true => "true"
  | VBool false => "false"
  | VInt n => str_of_int n
  | VStr s => dumps_str s
  | VLone raw => dumps_str raw
  end.

Definition dumps_member (kv : string * value) : string :=
  dumps_str kv.1 +:+ ": " +:+ dumps_value kv.2.

Fixpoint dumps_members (d : dict) : string :=
  match d with
  | [] => EmptyString
  | [kv] => dumps_member kv
  | kv :: d' => dumps_member kv +:+ ", " +:+ dumps_members d'
  end.

(** The characters [json.dumps] writes. *)
Definition write (d : dict) : string := "{" +:+ dumps_members d +:+ "}".

(** A value [json.loads] gives back as it was written: a [str] without
    lone surrogates, an [int] within the digit limit, or a constant. *)
Definition readable (v : value) : bool :=
  match v with
  | VInt n => int_ok n
  | VLone _ => false
  | _ => true
  end.

(** Whether every [int] of an object can be converted to [str]. *)
Definition ints_ok (d : dict) : bool :=
  forallb (λ kv, match kv.2 with VInt n => int_ok n | _ => true end) d.

(** Whether some string of an object has lone surrogates. *)
Definition has_lone (d : dict) : bool :=
  existsb (λ kv, match kv.2 with VLone _ => true | _ => false end) d.

(** [json.dumps(d, ensure_ascii=False)]; [None] stands for the
    [ValueError] of an [int] with too many digits. *)
Definition dumps (d : dict) : option text :=
  if ints_ok d then Some (if has_lone d then Lone (write d) else Text (write d))
  else None.

(** ** The scanner *)

Definition is_ws (c : ascii) : bool :=
  bool_decide (c = " "%char) || bool_decide (c = ch_tab)
  || bool_decide (c = ch_lf) || bool_decide (c = ch_cr).

Fixpoint skip_ws (s : string) : string :=
  match s with
  | String c s' => if is_ws c then skip_ws s' else s
  | EmptyString => EmptyString
  end.

Definition hex_val (c : ascii) : option N :=
  let n := N_of_ascii c in
  if ((48 <=? n) && (n <=? 57))%N then Some (n - 48)%N
  else if ((97 <=? n) && (n <=? 102))%N then Some (n - 87)%N
  else if ((65 <=? n) && (n <=? 70))%N then Some (n - 55)%N
  else None.

(** The UTF-8 bytes of a code point of the basic plane named by a [\u]
    escape; surrogates are outside the model. *)
Definition utf8_of_bmp (n : N) : option string :=
  if (n <? 128)%N then Some (String (ascii_of_N n) EmptyString)
  else if (n <? 2048)%N then
    Some (String (ascii_of_N (192 + n / 64))
            (String (ascii_of_N (128 + n mod 64)) EmptyString))
  else if ((55296 <=? n) && (n <=? 57343))%N then None
  else
    Some (String (ascii_of_N (224 + n / 4096))
            (String (ascii_of_N (128 + (n / 64) mod 64))
               (String (ascii_of_N (128 + n mod 64)) EmptyString))).

Definition unescape_short (c : ascii) : option ascii :=
  if decide (c = dquote) then Some dquote
  else if decide (c = backslash) then Some backslash
  else if decide (c = "/"%char) then Some "/"%char
  else if decide (c = "b"%char) then Some ch_bs
  else if decide (c = "f"%char) then Some ch_ff
  else if decide (c = "n"%char) then Some ch_lf
  else if decide (c = "r"%char) then Some ch_cr
  else if decide (c = "t"%char) then Some ch_tab
  else None.

Definition prepend (p : string) (r : option (string * string))
  : option (string * string) :=
  match r with
  | Some (t, rest) => Some (p +:+ t, rest)
  | None => None
  end.

(** [scanstring]: the input starts just after the opening quote; the
    result is the decoded string and the input left after the closing
    quote. *)
Fixpoint scanstring (s : string) : option (string * string) :=
  match s with
  | EmptyString => None
  | String c r =>
      if decide (c = dquote) then Some (EmptyString, r)
      else if decide (c = backslash) then
        match r with
        | String "u" (String h1 (String h2 (String h3 (String h4 r')))) =>
            match hex_val h1, hex_val h2, hex_val h3, hex_val h4 with
            | Some a, Some b, Some c', Some d =>
                match utf8_of_bmp (((a * 16 + b) * 16 + c') * 16 + d)%N with
                | Some bytes => prepend bytes (scanstring r')
                | None => None
                end
            | _, _, _, _ => None
            end
        | String e r' =>
            match unescape_short e with
            | Some c' => prepend (String c' EmptyString) (scanstring r')
            | None => None
            end
        | EmptyString => None
        end
      else if (N_of_ascii c <? 32)%N then None
      else prepend (String c EmptyString) (scanstring r)
  end.

Definition digit_val (c : ascii) : option N :=
  let n := N_of_ascii c in
  if ((48 <=? n) && (n <=? 57))%N then Some (n - 48)%N else None.

Fixpoint scan_digits (s : string) (acc : N) : N * string :=
  match s with
  | String c r =>
      match digit_val c with
      | Some d => scan_digits r (10 * acc + d)%N
      | None => (acc, s)
      end
  | EmptyString => (acc, EmptyString)
  end.

(** An integer literal is not followed by a fraction or an exponent. *)
Definition ends_number (s : string) : bool :=
  match s with
  | String c _ =>
      negb (bool_decide (c = "."%char) || bool_decide (c = "e"%char)
            || bool_decide (c = "E"%char))
  | EmptyString => true
  end.

(** An optional sign is read by the caller; this reads a single zero, or a
    nonzero digit followed by any digits, as a natural number. *)
Definition scan_nat (s : string) : option (N * string) :=
  match s with
  | String c r =>
      match digit_val c with
      | Some 0%N => if ends_number r then Some (0%N, r) else None
      | Some _ =>
          let '(n, rest) := scan_digits s 0 in
          if ends_number rest then Some (n, rest) else None
      | None => None
      end
  | EmptyString => None
  end.

Definition scan_value (s : string) : option (value * string) :=
  match s with
  | String c r =>
      if decide (c = dquote) then
        match scanstring r with
        | Some (t, rest) => Some (VStr t, rest)
        | None => None
        end
      else if decide (c = "-"%char) then
        match scan_nat r with
        | Some (n, rest) =>
            if int_ok (- Z.of_N n) then Some (VInt (- Z.of_N n), rest)
            else None
        | None => None
        end
      else if startswith "null" s then Some (VNone, str_drop 4 s)
      else if startswith "true" s then Some (VBool true, str_drop 4 s)
      else if startswith "false" s then Some (VBool false, str_drop 5 s)
      else
        match scan_nat s with
        | Some (n, rest) =>
            if int_ok (Z.of_N n) then Some (VInt (Z.of_N n), rest) else None
        | None => None
        end
  | EmptyString => None
  end.

(** The members of an object, from the opening quote of a key on. *)
Fixpoint scan_members (fuel : nat) (s : string) (acc : dict)
  : option (dict * string) :=
  match fuel with
  | O => None
  | S fuel' =>
      match s with
      | String c r =>
          if decide (c = dquote) then
            match scanstring r with
            | Some (k, r1) =>
                match skip_ws r1 with
                | String ":" r2 =>
                    match scan_value (skip_ws r2) with
                    | Some (v, r3) =>
                        match skip_ws r3 with
                        | String "," r4 =>
                            scan_members fuel' (skip_ws r4) (dict_set k v acc)
                        | String "}" r4 => Some (dict_set k v acc, r4)
                        | _ => None
                        end
                    | None => None
                    end
                | _ => None
                end
            | None => None
            end
          else None
      | EmptyString => None
      end
  end.

(** [json.loads(s)]. *)
Definition loads (s : string) : option dict :=
  match skip_ws s with
  | String "{" r =>
      match skip_ws r with
      | String "}" r' => if decide (skip_ws r' = EmptyString) then Some [] else None
      | r1 =>
          match scan_members (String.length s) r1 [] with
          | Some (d, rest) => if decide (skip_ws rest = EmptyString) then Some d else None
          | None => None
          end
      end
  | _ => None
  end.

End Json.

(* ===================================================================== *)
(** * The Redis store

    Keys and values are byte strings.  A key set with [ex=n] at time [t]
    is there up to time [t + n] and gone after it; expiry is observed
    lazily, when a command looks the key up.

    RQ keeps its queue in the same Redis, under keys of its own that begin
    with [rq:] ([rq:job:<id>], [rq:queue:yt], [rq:queues]) and hold hashes,
    lists and sets.  That part of the store is the [queue] of the [World];
    the map of this module is the rest of it, the keys that hold byte
    strings. *)
(* ===================================================================== *)

Module Redis.

Record entry : Type := Entry { value : string; deadline : option Z }.

Definition live (now : Z) (e : entry) : bool :=
  match deadline e with
  | Some d => now <=? d
  | None => true
  end.

(** [GET k]. *)
Definition get (now : Z) (db : gmap string entry) (k : string) : option string :=
  match db !! k with
  | Some e => if live now e then Some (value e) else None
  | None => None
  end.

(** [SET k v [NX] [EX ex]]: [true] when the value was written, [false]
    (redis-py's [None]) when [NX] found the key present. *)
Definition set (now : Z) (db : gmap string entry) (k v : string)
    (nx : bool) (ex : option Z) : bool * gmap string entry :=
  match nx, get now db k with
  | true, Some _ => (false, db)
  | _, _ => (true, <[k := Entry v ((λ n, now + n) <$> ex)]> db)
  end.

(** [DEL k]: the number of keys removed. *)
Definition del (now : Z) (db : gmap string entry) (k : string)
  : nat * gmap string entry :=
  (match get now db k with Some _ => 1%nat | None => 0%nat end, delete k db).

End Redis.

(* ===================================================================== *)
(** * The file system, as [os.path] sees it *)
(* ===================================================================== *)

Module Fs.

(** Modification times are compared with each other and nothing else, so
    the value [os.path.getmtime] returns is kept as an integer. *)
Inductive node : Type :=
| Dir
| File (size : Z) (mtime : Z).

Definition isfile (fs : gmap string node) (p : string) : bool :=
  match fs !! p with
  | Some (File _ _) => true
  | _ => false
  end.

Definition getsize (fs : gmap string node) (p : string) : Z :=
  match fs !! p with
  | Some (File size _) => size
  | _ => 0
  end.

Definition getmtime (fs : gmap string node) (p : string) : Z :=
  match fs !! p with
  | Some (File _ mtime) => mtime
  | _ => 0
  end.

(** [os.makedirs(p, exist_ok=True)]: [None] stands for the [OSError]
    raised when [p] is empty or names a regular file. *)
Definition makedirs (fs : gmap string node) (p : string)
  : option (gmap string node) :=
  if decide (p = EmptyString) then None
  else match fs !! p with
       | Some (File _ _) => None
       | _ => Some (<[p := Dir]> fs)
       end.

(** [os.path.join(a, b)] on POSIX. *)
Definition path_join (a b : string) : string :=
  if Py.startswith "/" b then b
  else if bool_decide (a = EmptyString) || Py.endswith_char "/" a then a +:+ b
  else a +:+ "/" +:+ b.

End Fs.

(* ===================================================================== *)
(** * Commands, programs and the world they run in *)
(* ===================================================================== *)

(** What [subprocess.run(..., timeout=t)] ends in. *)
Inductive proc_result : Type :=
| Completed (returncode : Z) (stdout stderr : string)
| ProcTimeout.

(** The only function this code base enqueues. *)
Inductive job_func : Type := DownloadAvJob.

Record job : Type :=
  Job { job_id : string; job_fn : job_func; job_arg : string; job_timeout : Z }.

Inductive exn : Type :=
| RuntimeError (msg : string)
| TimeoutExpired
| OSError
| JSONDecodeError
| ValueError
| UnicodeEncodeError.

Inductive cmd : Type → Type :=
| RedisGet (k : string) : cmd (option string)
| RedisSet (k v : string) (nx : bool) (ex : option Z) : cmd bool
| RedisDelete (k : string) : cmd nat
| QueueEnqueue (f : job_func) (arg : string) (timeout : Z) : cmd string
| GetCurrentJob : cmd (option string)
| TimeTime : cmd Z
| OsMakedirs (p : string) : cmd bool
| SubprocessRun (args : list string) (timeout : Z) : cmd proc_result
| GlobGlob (pattern : string) : cmd (list string)
| FsStat : cmd (gmap string Fs.node)
| LoggerWarning (msg : string) : cmd unit.

(** What the outside world saw of a run, oldest first. *)
Inductive event : Type :=
| EvGet (k : string) (r : option string)
| EvSet (k v : string) (nx : bool) (ex : option Z) (ok : bool)
| EvDelete (k : string) (n : nat)
| EvEnqueue (j : job)
| EvMakedirs (p : string) (ok : bool)
| EvRun (args : list string) (timeout : Z) (r : proc_result)
| EvGlob (pattern : string) (r : list string)
| EvWarning (msg : string).

Inductive Prog (A : Type) : Type :=
| Ret (a : A)
| Raise (e : exn)
| Op {X : Type} (c : cmd X) (k : X → Prog A).
Arguments Ret {A} a.
Arguments Raise {A} e.
Arguments Op {A X} c k.

Fixpoint bind {A B : Type} (p : Prog A) (f : A → Prog B) : Prog B :=
  match p with
  | Ret a => f a
  | Raise e => Raise e
  | Op c k => Op c (λ x, bind (k x) f)
  end.

Definition call {X : Type} (c : cmd X) : Prog X := Op c Ret.

(** [Prog] is a monad; programs are written with stdpp's [x ← p; q]. *)
Global Instance prog_ret : MRet Prog := @Ret.
Global Instance prog_bind : MBind Prog := λ A B f p, bind p f.

(** [try: p finally: fin]. *)
Fixpoint try_finally {A : Type} (p : Prog A) (fin : Prog unit) : Prog A :=
  match p with
  | Ret a => bind fin (λ _, Ret a)
  | Raise e => bind fin (λ _, Raise e)
  | Op c k => Op c (λ x, try_finally (k x) fin)
  end.

Inductive outcome (A : Type) : Type :=
| Returned (a : A)
| Raised (e : exn).
Arguments Returned {A} a.
Arguments Raised {A} e.

(** The world a program runs in: the keys of Redis that hold byte strings,
    the clock, the files, RQ's queue (the keys of Redis that are RQ's own)
    and the number of job ids it has handed out, and the job the worker is
    executing. *)
Record World : Type := MkWorld {
  redis : gmap string Redis.entry;
  now : Z;
  fs : gmap string Fs.node;
  queue : list job;
  issued : nat;
  current_job : option string;
}.

Definition with_redis (db : gmap string Redis.entry) (w : World) : World :=
  MkWorld db (now w) (fs w) (queue w) (issued w) (current_job w).

Definition with_fs (f : gmap string Fs.node) (w : World) : World :=
  MkWorld (redis w) (now w) f (queue w) (issued w) (current_job w).

(** Time passes; it never runs backwards. *)
Definition advance (d : Z) (w : World) : World :=
  MkWorld (redis w) (now w + Z.max 0 d) (fs w) (queue w) (issued w)
    (current_job w).

Definition submit (j : job) (w : World) : World :=
  MkWorld (redis w) (now w) (fs w) (queue w ++ [j]) (S (issued w))
    (current_job w).

(* ===================================================================== *)
(** * The engine *)
(* ===================================================================== *)

(** [list.sort(key=key, reverse=True)]: a stable sort, largest key first. *)
Fixpoint insert_desc {A : Type} (key : A → Z) (x : A) (l : list A) : list A :=
  match l with
  | [] => [x]
  | y :: l' => if key y <=? key x then x :: l else y :: insert_desc key x l'
  end.

Definition sort_desc {A : Type} (key : A → Z) (l : list A) : list A :=
  foldr (insert_desc key) [] l.

(** Largest key first. *)
Definition descending {A : Type} (key : A → Z) (l : list A) : Prop :=
  StronglySorted (λ a b, key b ≤ key a) l.

(** One step of a scheduler over concurrent callers: caller [i] executes
    its next command, or [d] seconds pass. *)
Inductive action : Type :=
| Step (i : nat)
| Tick (d : Z).

Definition elapsed (tr : list action) : Z :=
  foldr (λ a t, match a with Tick d => Z.max 0 d + t | Step _ => t end) 0 tr.


(** The environment of a deployment: the media directory, the job ids the
    queue hands out, the retrieval tool (arguments, timeout, files and time
    before; result, files after and seconds taken), [glob.glob],
    [str.strip], and the float arithmetic on the clock:
    [elapsed_millis t1 t2] is [int((time.time() - started_at) * 1000)] when
    [started_at] was read in second [t1] and [time.time()] is read in second
    [t2]. *)
Record Env : Type := MkEnv {
  MEDIA_ROOT : string;
  uuid4 : nat → string;
  subprocess_run :
    list string → Z → gmap string Fs.node → Z
    → proc_result * gmap string Fs.node * Z;
  glob_glob : gmap string Fs.node → string → list string;
  str_strip : string → string;
  elapsed_millis : Z → Z → Z;
}.

(** ** Executing commands *)

(** One command: its answer, the world after it, and what the outside
    world saw of it. *)
Definition handle (env : Env) {X : Type} (c : cmd X) (w : World)
  : X * World * list event :=
  match c in cmd X return X * World * list event with
  | RedisGet k =>
      let r := Redis.get (now w) (redis w) k in
      (r, w, [EvGet k r])
  | RedisSet k v nx ex =>
      let '(ok, db) := Redis.set (now w) (redis w) k v nx ex in
      (ok, with_redis db w, [EvSet k v nx ex ok])
  | RedisDelete k =>
      let '(n, db) := Redis.del (now w) (redis w) k in
      (n, with_redis db w, [EvDelete k n])
  | QueueEnqueue f arg timeout =>
      (* RQ writes keys of its own ([rq:...]): the [queue] of the world *)
      let j := Job (uuid4 env (issued w)) f arg timeout in
      (job_id j, submit j w, [EvEnqueue j])
  | GetCurrentJob => (current_job w, w, [])
  | TimeTime => (* the second the clock is in: [int(time.time())] *)
      (now w, w, [])
  | OsMakedirs p =>
      match Fs.makedirs (fs w) p with
      | Some f => (true, with_fs f w, [EvMakedirs p true])
      | None => (false, w, [EvMakedirs p false])
      end
  | SubprocessRun args timeout =>
      let '(r, f, d) := subprocess_run env args timeout (fs w) (now w) in
      (r, advance d (with_fs f w), [EvRun args timeout r])
  | GlobGlob pattern =>
      let r := glob_glob env (fs w) pattern in
      (r, w, [EvGlob pattern r])
  | FsStat => (fs w, w, [])
  | LoggerWarning msg => (tt, w, [EvWarning msg])
  end.

(** A program run to its end by one caller, alone: how it ended, the world
    it left and the events it caused, oldest first. *)
Fixpoint run (env : Env) {A : Type} (p : Prog A) (w : World)
  : outcome A * World * list event :=
  match p with
  | Ret a => (Returned a, w, [])
  | Raise e => (Raised e, w, [])
  | Op c k =>
      let '(x, w1, ev1) := handle env c w in
      let '(r, w2, ev2) := run env (k x) w1 in
      (r, w2, ev1 ++ ev2)
  end.

(** Concurrent callers: each holds the program it has left to run; the
    scheduler lets one of them execute its next command atomically, or lets
    time pass. *)
Record system (A : Type) : Type := MkSystem {
  threads : list (Prog A);
  world : World;
  history : list event;
}.
Arguments MkSystem {A} threads world history.
Arguments threads {A} s.
Arguments world {A} s.
Arguments history {A} s.

Definition act (env : Env) {A : Type} (s : system A) (a : action) : system A :=
  match a with
  | Step i =>
      match threads s !! i with
      | Some (Op c k) =>
          let '(x, w, ev) := handle env c (world s) in
          MkSystem (<[i := k x]> (threads s)) w (history s ++ ev)
      | _ => s
      end
  | Tick d => MkSystem (threads s) (advance d (world s)) (history s)
  end.

Definition exec (env : Env) {A : Type} (tr : list action) (s : system A)
  : system A :=
  foldl (act env) s tr.

Definition finished {A : Type} (p : Prog A) : bool :=
  match p with
  | Op _ _ => false
  | _ => true
  end.

(** ** [app/jobs.py] *)

Definition _b (s : string) : string := Py.encode_utf8 s.

(** [os.path.isfile], [os.path.getsize] and [os.path.getmtime] read one
    snapshot [fs] of the file system. *)
Definition _pick_newest_nonempty (fs : gmap string Fs.node) (paths : list string)
  : option string :=
  let candidates :=
    List.filter (λ p, Fs.isfile fs p && (0 <? Fs.getsize fs p)) paths in
  match candidates with
  | [] => None
  | _ => head (sort_desc (Fs.getmtime fs) candidates)
  end.

Definition k_media (video_id : string) : string := "yt:media:" +:+ video_id.

Definition k_lock (video_id : string) : string := "yt:lock:" +:+ video_id.

Definition store_media (video_id : string) (payload : Py.dict) : Prog unit :=
  let key := _b (k_media video_id) in
  match Json.dumps payload with
  | None => Raise ValueError
  | Some text =>
      match Py.encode text with
      | None => Raise UnicodeEncodeError
      | Some raw =>
          _ ← call (RedisSet key raw false None);
          mret tt
      end
  end.

Definition get_media (video_id : string) : Prog (option Py.dict) :=
  raw ← call (RedisGet (_b (k_media video_id)));
  match raw with
  | None => mret None
  | Some raw =>
      if decide (raw = EmptyString) then mret None
      else match Json.loads (Py.decode_utf8 raw) with
           | Some d => mret (Some d)
           | None => Raise JSONDecodeError
           end
  end.

Definition release_lock (video_id : string) : Prog unit :=
  _ ← call (RedisDelete (_b (k_lock video_id)));
  mret tt.

(** ** [app/ytdlp_utils.py] *)

Definition build_watch_url (video_id : string) : string :=
  "https://www.youtube.com/watch?v=" +:+ video_id.

Definition run_ytdlp_download (args : list string) (timeout_seconds : Z)
  : Prog (Z * string * string) :=
  proc ← call (SubprocessRun args timeout_seconds);
  match proc with
  | Completed rc out err => mret (rc, out, err)
  | ProcTimeout => Raise TimeoutExpired
  end.

(** ** [download_av_job] *)

Definition common : list string :=
  [ "yt-dlp"; "--no-playlist"; "--force-ipv4"; "--newline"; "--no-continue";
    "--no-part"; "--hls-prefer-native"; "--retries"; "5";
    "--fragment-retries"; "5"; "--retry-sleep"; "1:3" ].

Definition video_format : string :=
  "bestvideo[ext=mp4][vcodec^=avc1]/" +:+ "bestvideo[ext=mp4]/"
  +:+ "bestvideo[protocol^=m3u8]/" +:+ "bestvideo".

Definition audio_format : string :=
  "bestaudio[ext=m4a]/" +:+ "bestaudio[protocol^=m3u8]/" +:+ "bestaudio".

Definition video_tpl (env : Env) (video_id : string) : string :=
  Fs.path_join (MEDIA_ROOT env) (video_id +:+ ".video.%(ext)s").

Definition audio_tpl (env : Env) (video_id : string) : string :=
  Fs.path_join (MEDIA_ROOT env) (video_id +:+ ".audio.%(ext)s").

Definition video_args (env : Env) (video_id : string) : list string :=
  common ++
  [ "-f"; video_format; "-o"; video_tpl env video_id; "--write-subs";
    "--write-auto-subs"; "--sub-format"; "vtt"; "--output-na-placeholder";
    String Py.dquote (String Py.dquote EmptyString);
    build_watch_url video_id ].

Definition audio_args (env : Env) (video_id : string) : list string :=
  common ++
  [ "-f"; audio_format; "-o"; audio_tpl env video_id; build_watch_url video_id ].

Definition video_failed (env : Env) (rc : Z) (err : string) : string :=
  "yt-dlp video download failed (rc=" +:+ Py.str_of_int rc +:+ "): "
  +:+ str_strip env err.

Definition audio_failed (env : Env) (rc : Z) (err : string) : string :=
  "yt-dlp audio download failed (rc=" +:+ Py.str_of_int rc +:+ "): "
  +:+ str_strip env err.

(** [if err: logger.warning("yt-dlp <kind> stderr:\n%s", err.strip())]. *)
Definition warn_stderr (env : Env) (kind err : string) : Prog unit :=
  if decide (err = EmptyString) then mret tt
  else call (LoggerWarning
               ("yt-dlp " +:+ kind +:+ " stderr:"
                +:+ String Py.ch_lf (str_strip env err))).

(** The [try] block, section by section.  First "Download video-only". *)
Definition download_video (env : Env) (video_id : string) : Prog unit :=
  '(rc_v, out_v, err_v) ← run_ytdlp_download (video_args env video_id) 1800;
  warn_stderr env "video" err_v;;
  if negb (rc_v =? 0) then Raise (RuntimeError (video_failed env rc_v err_v))
  else mret tt.

(** "Download audio-only". *)
Definition download_audio (env : Env) (video_id : string) : Prog unit :=
  '(rc_a, out_a, err_a) ← run_ytdlp_download (audio_args env video_id) 1800;
  warn_stderr env "audio" err_a;;
  if negb (rc_a =? 0) then Raise (RuntimeError (audio_failed env rc_a err_a))
  else mret tt.

(** "Resolve actual output files", the payload, [store_media] and the
    returned record. *)
Definition resolve_and_publish (env : Env) (video_id : string)
    (job : option string) (started_at : Z) : Prog Py.dict :=
  let watch_url := build_watch_url video_id in
  v_paths ← call (GlobGlob (Fs.path_join (MEDIA_ROOT env)
                              (video_id +:+ ".video.*")));
  a_paths ← call (GlobGlob (Fs.path_join (MEDIA_ROOT env)
                              (video_id +:+ ".audio.*")));
  files ← call FsStat;
  let video_path := _pick_newest_nonempty files v_paths in
  let audio_path := _pick_newest_nonempty files a_paths in
  match video_path, audio_path with
  | None, _ | Some EmptyString, _ =>
      Raise (RuntimeError
               "Video download finished but output file is missing or empty")
  | Some _, None | Some _, Some EmptyString =>
      Raise (RuntimeError
               "Audio download finished but output file is missing or empty")
  | Some video_path, Some audio_path =>
      updated_at ← call TimeTime;
      let payload :=
        [ ("video_id", Py.VStr video_id);
          ("watch_url", Py.VStr watch_url);
          ("video_path", Py.fsdecode video_path);
          ("audio_path", Py.fsdecode audio_path);
          ("updated_at", Py.VInt updated_at) ] in
      store_media video_id payload;;
      finished_at ← call TimeTime;
      let elapsed_ms := elapsed_millis env started_at finished_at in
      mret [ ("ok", Py.VBool true);
             ("video_id", Py.VStr video_id);
             ("job_id", match job with
                        | Some id => Py.VStr id
                        | None => Py.VNone
                        end);
             ("elapsed_ms", Py.VInt elapsed_ms);
             ("video_path", Py.fsdecode video_path);
             ("audio_path", Py.fsdecode audio_path) ]
  end.

(** The body of the [try] block. *)
Definition download_av_body (env : Env) (video_id : string)
    (job : option string) (started_at : Z) : Prog Py.dict :=
  download_video env video_id;;
  download_audio env video_id;;
  resolve_and_publish env video_id job started_at.

(** The statements before the [try] run outside it; [os.makedirs] is the
    one among them that can raise. *)
Definition download_av_job (env : Env) (video_id : string) : Prog Py.dict :=
  job ← call GetCurrentJob;
  started_at ← call TimeTime;
  made ← call (OsMakedirs (MEDIA_ROOT env));
  if negb made then Raise OSError
  else try_finally (download_av_body env video_id job started_at)
                   (release_lock video_id).

(** ** [app/main.py] *)

(** [media and media.get("video_path") and media.get("audio_path")]. *)
Definition media_ready (media : option Py.dict) : bool :=
  match media with
  | None | Some [] => false
  | Some d =>
      Py.truthy (Py.dict_get "video_path" d)
      && Py.truthy (Py.dict_get "audio_path" d)
  end.

Definition ensure_cache_request (video_id : string) : Prog string :=
  media ← get_media video_id;
  if media_ready media then mret EmptyString
  else
    let lock_key := Py.encode_utf8 ("yt:lock:" +:+ video_id) in
    got_lock ← call (RedisSet lock_key "1" true (Some 600));
    if negb got_lock then mret EmptyString
    else
      job_id ← call (QueueEnqueue DownloadAvJob video_id 3600);
      call (RedisSet (Py.encode_utf8 ("yt:last_job:" +:+ video_id))
              (Py.encode_utf8 job_id) false (Some 3600));;
      mret job_id.

(* ===================================================================== *)
(** * Reading event lists *)
(* ===================================================================== *)

(** The tool invocations among the events: arguments, timeout and result. *)
Definition tool_runs (evs : list event) : list (list string * Z * proc_result) :=
  omap (λ e, match e with EvRun args t r => Some (args, t, r) | _ => None end) evs.

(** Whether a tool invocation completed with exit status 0. *)
Definition succeeded (r : proc_result) : bool :=
  match r with
  | Completed rc _ _ => rc =? 0
  | ProcTimeout => false
  end.

(** The jobs submitted to the queue. *)
Definition enqueued (evs : list event) : list job :=
  omap (λ e, match e with EvEnqueue j => Some j | _ => None end) evs.

(** The conditional sets ([nx=True]): key, expiry and whether they won. *)
Definition nx_sets (evs : list event) : list (string * option Z * bool) :=
  omap (λ e, match e with
             | EvSet k _ true ex ok => Some (k, ex, ok)
             | _ => None
             end) evs.

(** The keys some event wrote to, and the keys some event deleted. *)
Definition set_keys (evs : list event) : list string :=
  omap (λ e, match e with EvSet k _ _ _ _ => Some k | _ => None end) evs.

Definition deleted_keys (evs : list event) : list string :=
  omap (λ e, match e with EvDelete k _ => Some k | _ => None end) evs.

(* ===================================================================== *)
(** * Vocabulary of the statements *)
(* ===================================================================== *)

(** What may follow an integer literal: nothing a number could go on with. *)
Definition closes_number (s : string) : Prop :=
  match s with
  | String c _ => Json.digit_val c = None ∧ Json.ends_number s = true
  | EmptyString => True
  end.

(** What [Json.dumps] writes after a member: the next member or the end. *)
Inductive follows_member : string → Prop :=
| follows_comma (r : string) : follows_member (String "," r)
| follows_brace (r : string) : follows_member (String "}" r).

(** What [get_media] makes of the bytes [GET] answered. *)
Definition media_of_raw (raw : option string) : outcome (option Py.dict) :=
  match raw with
  | None => Returned None
  | Some raw =>
      if decide (raw = EmptyString) then Returned None
      else match Json.loads (Py.decode_utf8 raw) with
           | Some d => Returned (Some d)
           | None => Raised JSONDecodeError
           end
  end.

(** The record of [video_id] as a reader finds it in world [w]. *)
Definition media_in (w : World) (video_id : string) : outcome (option Py.dict) :=
  media_of_raw (Redis.get (now w) (redis w) (_b (k_media video_id))).

(** Whether the lock of [video_id] is held in world [w]. *)
Definition lock_held (w : World) (video_id : string) : bool :=
  bool_decide (is_Some (Redis.get (now w) (redis w) (_b (k_lock video_id)))).

(** The world after a caller won the lock, submitted the job and recorded
    its handle. *)
Definition after_enqueue (env : Env) (video_id : string) (w : World) : World :=
  let j := Job (uuid4 env (issued w)) DownloadAvJob video_id 3600 in
  let db1 := <[_b (k_lock video_id) := Redis.Entry "1" (Some (now w + 600))]>
               (redis w) in
  let db2 := <[Py.encode_utf8 ("yt:last_job:" +:+ video_id)
               := Redis.Entry (job_id j) (Some (now w + 3600))]> db1 in
  with_redis db2 (submit j (with_redis db1 w)).

(** How one tool invocation ends the section of the job that makes it. *)
Definition invocation_outcome (failed : Z → string → string) (r : proc_result)
  : outcome unit :=
  match r with
  | Completed rc _ err =>
      if rc =? 0 then Returned tt else Raised (RuntimeError (failed rc err))
  | ProcTimeout => Raised TimeoutExpired
  end.

(** The events of one tool invocation: the run, and the warning when the
    tool wrote to its stderr. *)
Definition invocation_events (env : Env) (kind : string) (args : list string)
    (r : proc_result) : list event :=
  EvRun args 1800 r
  :: match r with
     | Completed _ _ err =>
         if decide (err = EmptyString) then []
         else [EvWarning ("yt-dlp " +:+ kind +:+ " stderr:"
                          +:+ String Py.ch_lf (str_strip env err))]
     | ProcTimeout => []
     end.

(** A directory as the prefix of the paths below it. *)
Definition dir_prefix (a : string) : string :=
  if bool_decide (a = EmptyString) || Py.endswith_char "/" a then a
  else a +:+ "/".

(** A path that passes the filter of [_pick_newest_nonempty]. *)
Definition usable (fs : gmap string Fs.node) (p : string) : bool :=
  Fs.isfile fs p && (0 <? Fs.getsize fs p).

(** The conditional sets that won: their keys. *)
Definition nx_wins (evs : list event) : list string :=
  omap (λ e, match e with
             | EvSet k _ true _ true => Some k
             | _ => None
             end) evs.

(** ** Concurrent callers of [ensure_cache_request]

    What a call has left to do after each of its commands. *)
Definition note_job (video_id job_id : string) : Prog string :=
  call (RedisSet (Py.encode_utf8 ("yt:last_job:" +:+ video_id))
          (Py.encode_utf8 job_id) false (Some 3600));;
  mret job_id.

Definition submit_job (video_id : string) : Prog string :=
  job_id ← call (QueueEnqueue DownloadAvJob video_id 3600);
  note_job video_id job_id.

Definition acquire (video_id : string) : Prog string :=
  got_lock ← call (RedisSet (Py.encode_utf8 ("yt:lock:" +:+ video_id)) "1"
                     true (Some 600));
  if negb got_lock then mret EmptyString else submit_job video_id.

(** Where a caller stands: about to read the record, about to try the
    lock, about to enqueue, about to note the job id, or back with the empty
    handle or with the job id. *)
Inductive stage : Type :=
| Reading
| Acquiring
| Submitting
| Noting
| Lost
| Won.

Definition prog_of_stage (video_id job_id : string) (st : stage) : Prog string :=
  match st with
  | Reading => ensure_cache_request video_id
  | Acquiring => acquire video_id
  | Submitting => submit_job video_id
  | Noting => note_job video_id job_id
  | Lost => Ret EmptyString
  | Won => Ret job_id
  end.

Definition is_contender (st : stage) : Prop :=
  match st with
  | Reading | Acquiring => True
  | _ => False
  end.

Definition is_bystander (st : stage) : Prop :=
  match st with
  | Reading | Acquiring | Lost => True
  | _ => False
  end.

Definition is_winner (st : stage) : Prop :=
  match st with
  | Submitting | Noting | Won => True
  | _ => False
  end.

Definition holds_job (st : stage) : bool :=
  match st with
  | Noting | Won => true
  | _ => false
  end.

(** The commands a caller has left at most: the read, the conditional
    set, the enqueue and the set of the job id. *)
Definition todo (st : stage) : nat :=
  match st with
  | Reading => 4
  | Acquiring => 3
  | Submitting => 2
  | Noting => 1
  | Lost | Won => 0
  end.

(** How many turns a schedule gives caller [i]. *)
Definition turns (i : nat) (tr : list action) : nat :=
  length (List.filter (λ a, match a with
                            | Step j => bool_decide (j = i)
                            | Tick _ => false
                            end) tr).

(** What the turns of a schedule do to the stages of the callers: each
    turn of a caller takes one command off what it has left. *)
Definition advanced (tr : list action) (st st' : list stage) : Prop :=
  ∀ j stj, st !! j = Some stj →
           ∃ stj', st' !! j = Some stj'
                   ∧ (todo stj' ≤ todo stj - turns j tr)%nat.

(** A schedule that lets each of [n] callers run to its end: four turns
    each. *)
Definition complete (n : nat) (tr : list action) : bool :=
  forallb (λ i, (4 <=? turns i tr)%nat) (seq 0 n).

(** What holds of [n] callers of [ensure_cache_request video_id] started
    in world [w0], whatever the scheduler did since, as long as the lock a
    winner took has not expired: [winner] is the caller that won, if any. *)
Record callers_inv (env : Env) (video_id : string) (n : nat) (w0 : World)
    (winner : option nat) (st : list stage) (s : system string) : Prop := {
  inv_threads :
    threads s = prog_of_stage video_id (uuid4 env (issued w0)) <$> st;
  inv_length : length st = n;
  inv_media :
    redis (world s) !! _b (k_media video_id)
    = redis w0 !! _b (k_media video_id);
  inv_clock : now w0 ≤ now (world s);
  inv_deleted : deleted_keys (history s) = [];
  inv_cases :
    let job := Job (uuid4 env (issued w0)) DownloadAvJob video_id 3600 in
    match winner with
    | None =>
        Forall is_contender st
        ∧ redis (world s) !! _b (k_lock video_id)
          = redis w0 !! _b (k_lock video_id)
        ∧ queue (world s) = queue w0
        ∧ issued (world s) = issued w0
        ∧ nx_wins (history s) = []
        ∧ enqueued (history s) = []
    | Some i =>
        ∃ sti,
          st !! i = Some sti ∧ is_winner sti
          ∧ (∀ j stj, j ≠ i → st !! j = Some stj → is_bystander stj)
          ∧ (∃ dl, redis (world s) !! _b (k_lock video_id)
                   = Some (Redis.Entry "1" (Some dl))
                   ∧ now w0 + 600 ≤ dl)
          ∧ nx_wins (history s) = [_b (k_lock video_id)]
          ∧ if holds_job sti
            then queue (world s) = queue w0 ++ [job]
                 ∧ enqueued (history s) = [job]
            else queue (world s) = queue w0
                 ∧ issued (world s) = issued w0
                 ∧ enqueued (history s) = []
    end;
}.

(* ===================================================================== *)
(** * A deployment to run the engine on *)
(* ===================================================================== *)

Module Demo.

Definition video_id : string := "abc12345678".

Definition is_space (c : ascii) : bool :=
  let n := N_of_ascii c in
  ((9 <=? n) && (n <=? 13) || (28 <=? n) && (n <=? 32))%N.

Fixpoint lstrip (l : list ascii) : list ascii :=
  match l with
  | c :: l' => if is_space c then lstrip l' else l
  | [] => []
  end.

(** [str.strip] on ASCII text. *)
Definition strip (s : string) : string :=
  string_of_list_ascii
    (reverse (lstrip (reverse (lstrip (list_ascii_of_string s))))).

(** [glob.glob] for a pattern whose only wildcard is a final star. *)
Definition glob (fs : gmap string Fs.node) (pattern : string) : list string :=
  let stem := String.substring 0 (String.length pattern - 1) pattern in
  List.filter (Py.startswith stem) (map_to_list fs).*1.

Definition video_file : string := "/data/abc12345678.video.mp4".
Definition audio_file : string := "/data/abc12345678.audio.m4a".
Definition stale_file : string := "/data/abc12345678.video.webm".

(** A tool that succeeds: it writes the stream asked for, in 30 seconds,
    and says nothing. *)
Definition tool_ok (args : list string) (timeout : Z)
    (fs : gmap string Fs.node) (now : Z)
  : proc_result * gmap string Fs.node * Z :=
  (Completed 0 EmptyString EmptyString,
   if bool_decide (audio_format ∈ args)
   then <[audio_file := Fs.File 3000000 (now + 30)]> fs
   else <[video_file := Fs.File 5000000 (now + 30)]> fs,
   30).

(** A tool that fails after two seconds. *)
Definition tool_fail (args : list string) (timeout : Z)
    (fs : gmap string Fs.node) (now : Z)
  : proc_result * gmap string Fs.node * Z :=
  (Completed 1 EmptyString (" ERROR: Video unavailable" +:+ String Py.ch_lf EmptyString),
   fs, 2).

Definition job_ids (n : nat) : string := "job-" +:+ pretty n.

(** A clock that is 199 ms further into its second at the later reading. *)
Definition millis (t1 t2 : Z) : Z := (t2 - t1) * 1000 + 199.

Definition env : Env := MkEnv "/data" job_ids tool_ok glob strip millis.
Definition env_fail : Env := MkEnv "/data" job_ids tool_fail glob strip millis.

(** Nothing cached, nothing locked, a stale empty file left on disk. *)
Definition fresh : World :=
  MkWorld ∅ 1000 {[ "/data" := Fs.Dir; stale_file := Fs.File 0 900 ]} [] 0 None.

(** The world after the first request for [video_id]. *)
Definition requested : World :=
  (run env (ensure_cache_request video_id) fresh).1.2.

(** The same, on a worker whose media root is a regular file. *)
Definition misconfigured : World :=
  with_fs {[ "/data" := Fs.File 1 900 ]} requested.

(** The world after the job ran. *)
Definition cached : World :=
  (run env (download_av_job env video_id) requested).1.2.

(** Three callers at once, their commands interleaved, a second passing
    now and then. *)
Definition schedule : list action :=
  [ Step 0; Step 1; Tick 1; Step 2; Step 1; Step 0; Step 1; Tick 2; Step 2;
    Step 1; Step 0; Step 2; Step 0; Step 2 ]%nat.

(** Two callers at once, the second held up for 601 seconds between its
    read and its conditional set. *)
Definition stalled : list action :=
  [ Step 0; Step 1; Step 0; Step 0; Step 0; Tick 601; Step 1; Step 1;
    Step 1 ]%nat.

(** An older, larger file, a newer one, and an empty one newer still. *)
Definition shelf : gmap string Fs.node :=
  {[ "/data/x.video.webm" := Fs.File 9000000 100;
     "/data/x.video.mp4" := Fs.File 5000000 200;
     "/data/x.video.part" := Fs.File 0 300 ]}.

Definition payload : Py.dict :=
  [ ("video_id", Py.VStr video_id);
    ("watch_url", Py.VStr (build_watch_url video_id));
    ("video_path", Py.VStr video_file);
    ("audio_path", Py.VStr audio_file);
    ("updated_at", Py.VInt 1060) ].

End Demo.

(* ===================================================================== *)
(** * More of the code: vocabulary *)
(* ===================================================================== *)

(** The record [download_av_job] publishes. *)
Definition published_payload (video_id video_path audio_path : string)
    (updated_at : Z) : Py.dict :=
  [ ("video_id", Py.VStr video_id);
    ("watch_url", Py.VStr (build_watch_url video_id));
    ("video_path", Py.VStr video_path);
    ("audio_path", Py.VStr audio_path);
    ("updated_at", Py.VInt updated_at) ].

(** The record [download_av_job] returns. *)
Definition job_result (video_id : string) (job : option string)
    (elapsed_ms : Z) (video_path audio_path : string) : Py.dict :=
  [ ("ok", Py.VBool true);
    ("video_id", Py.VStr video_id);
    ("job_id", match job with
               | Some id => Py.VStr id
               | None => Py.VNone
               end);
    ("elapsed_ms", Py.VInt elapsed_ms);
    ("video_path", Py.VStr video_path);
    ("audio_path", Py.VStr audio_path) ].

(** The patterns the job hands to [glob.glob]. *)
Definition video_glob (env : Env) (video_id : string) : string :=
  Fs.path_join (MEDIA_ROOT env) (video_id +:+ ".video.*").

Definition audio_glob (env : Env) (video_id : string) : string :=
  Fs.path_join (MEDIA_ROOT env) (video_id +:+ ".audio.*").

(** The index of the first occurrence of [p] in [l] at which everything
    before it satisfies [before]. *)
Definition first_where {A : Type} (before : A → Prop) (p : A) (l : list A)
  : Prop :=
  ∃ l1 l2, l = l1 ++ p :: l2 ∧ Forall before l1.

(** Whether a resolver came back with a path ([if not video_path] is
    false). *)
Definition found (path : option string) : bool :=
  match path with
  | Some (String _ _) => true
  | _ => false
  end.

(** ** More deployments *)

Module Cases.

(** A tool whose video run succeeds and whose audio run fails. *)
Definition tool_audio_fail (args : list string) (timeout : Z)
    (fs : gmap string Fs.node) (now : Z)
  : proc_result * gmap string Fs.node * Z :=
  if bool_decide (audio_format ∈ args)
  then (Completed 2 EmptyString "ERROR: no audio", fs, 3)
  else (Completed 0 EmptyString EmptyString,
        <[Demo.video_file := Fs.File 5000000 (now + 30)]> fs, 30).

(** A tool that does not come back within its timeout. *)
Definition tool_hang (args : list string) (timeout : Z)
    (fs : gmap string Fs.node) (now : Z)
  : proc_result * gmap string Fs.node * Z :=
  (ProcTimeout, fs, timeout).

(** A tool that reports success and writes nothing. *)
Definition tool_silent (args : list string) (timeout : Z)
    (fs : gmap string Fs.node) (now : Z)
  : proc_result * gmap string Fs.node * Z :=
  (Completed 0 EmptyString EmptyString, fs, 1).

(** Two files modified at the same second, and a newer empty one. *)
Definition twins : gmap string Fs.node :=
  {[ "/data/x.video.mp4" := Fs.File 5000000 200;
     "/data/x.video.webm" := Fs.File 9000000 200;
     "/data/x.video.part" := Fs.File 0 300 ]}.

(** A tool that prints an identifier, as [--print id] does. *)
Definition tool_prints (args : list string) (timeout : Z)
    (fs : gmap string Fs.node) (now : Z)
  : proc_result * gmap string Fs.node * Z :=
  (Completed 0 (Demo.video_id +:+ String Py.ch_lf EmptyString) EmptyString,
   fs, 1).

(** A file whose name is Latin-1, not UTF-8. *)
Definition latin1_file : string :=
  "/data/abc12345678.video.caf" +:+ String (ascii_of_nat 233) ".mp4".

(** A record with the path of that file, and one with a timestamp of 4301
    digits. *)
Definition unencodable : Py.dict :=
  [ ("video_id", Py.VStr Demo.video_id);
    ("watch_url", Py.VStr (build_watch_url Demo.video_id));
    ("video_path", Py.fsdecode latin1_file);
    ("audio_path", Py.VStr Demo.audio_file);
    ("updated_at", Py.VInt 1060) ].

Definition far_future : Py.dict :=
  [ ("video_id", Py.VStr Demo.video_id);
    ("watch_url", Py.VStr (build_watch_url Demo.video_id));
    ("video_path", Py.VStr Demo.video_file);
    ("audio_path", Py.VStr Demo.audio_file);
    ("updated_at", Py.VInt (10 ^ 4300)) ].

Definition env_audio_fail : Env :=
  MkEnv "/data" Demo.job_ids tool_audio_fail Demo.glob Demo.strip Demo.millis.
Definition env_hang : Env :=
  MkEnv "/data" Demo.job_ids tool_hang Demo.glob Demo.strip Demo.millis.
Definition env_silent : Env :=
  MkEnv "/data" Demo.job_ids tool_silent Demo.glob Demo.strip Demo.millis.
Definition env_prints : Env :=
  MkEnv "/data" Demo.job_ids tool_prints Demo.glob Demo.strip Demo.millis.

(** The types [mimetypes] knows in these examples. *)
Definition guess_type (p : string) : option string :=
  if Py.endswith_char "4" p then Some "video/mp4"
  else if Py.endswith_char "a" p then Some "audio/mp4"
  else None.

End Cases.

(* ===================================================================== *)
(** * [app/ytdlp_utils.py]: identifiers *)
(* ===================================================================== *)

(** One character of the class [[a-zA-Z0-9_-]]. *)
Definition id_char (c : ascii) : bool :=
  let n := N_of_ascii c in
  ((97 <=? n) && (n <=? 122) || (65 <=? n) && (n <=? 90)
   || (48 <=? n) && (n <=? 57) || (n =? 95) || (n =? 45))%N.

(** [[a-zA-Z0-9_-]{n}] at the start of [s]: what it matched and what is
    left. *)
Fixpoint id_chars (n : nat) (s : string) : option (string * string) :=
  match n with
  | O => Some (EmptyString, s)
  | S n' =>
      match s with
      | String c r =>
          if id_char c
          then match id_chars n' r with
               | Some (g, rest) => Some (String c g, rest)
               | None => None
               end
          else None
      | EmptyString => None
      end
  end.

(** [_YT_ID_RE.match(s)] for the pattern [^[a-zA-Z0-9_-]{11}$]: the dollar
    matches at the end of the string and also just before a newline that
    ends it. *)
Definition _YT_ID_RE_match (s : string) : bool :=
  match id_chars 11 s with
  | Some (_, rest) =>
      bool_decide (rest = EmptyString)
      || bool_decide (rest = String Py.ch_lf EmptyString)
  | None => false
  end.

(** A pattern made of one of the literals [lits] followed by the group
    [([a-zA-Z0-9_-]{11})], tried at the start of [s]: the group. *)
Definition match_at (lits : list string) (s : string) : option string :=
  foldr (λ lit other,
           if Py.startswith lit s
           then match id_chars 11 (Py.str_drop (String.length lit) s) with
                | Some (g, _) => Some g
                | None => other
                end
           else other)
        None lits.

(** [re.search] for such a pattern: group 1 of the leftmost match. *)
Fixpoint re_search (lits : list string) (s : string) : option string :=
  match match_at lits s with
  | Some g => Some g
  | None =>
      match s with
      | String _ r => re_search lits r
      | EmptyString => None
      end
  end.

Definition extract_youtube_id (env : Env) (url_or_id : string) : option string :=
  if decide (url_or_id = EmptyString) then None
  else
    let s := str_strip env url_or_id in
    if _YT_ID_RE_match s then Some s
    else match re_search ["?v="; "&v="] s with
         | Some g => Some g
         | None =>
             match re_search ["youtu.be/"] s with
             | Some g => Some g
             | None =>
                 match re_search ["/shorts/"] s with
                 | Some g => Some g
                 | None =>
                     match re_search ["/embed/"] s with
                     | Some g => Some g
                     | None => None
                     end
                 end
             end
         end.

(** Whether [s] begins with a line boundary of [str.splitlines]: one of the
    characters U+000A to U+000D and U+001C to U+001E, or U+0085, U+2028 or
    U+2029 in their UTF-8 bytes. *)
Definition line_break (s : string) : bool :=
  match s with
  | String c r =>
      let n := N_of_ascii c in
      if ((10 <=? n) && (n <=? 13) || (28 <=? n) && (n <=? 30))%N then true
      else if (n =? 194)%N then
        match r with
        | String d _ => (N_of_ascii d =? 133)%N
        | EmptyString => false
        end
      else if (n =? 226)%N then
        match r with
        | String d (String e _) =>
            ((N_of_ascii d =? 128)
             && ((N_of_ascii e =? 168) || (N_of_ascii e =? 169)))%N
        | _ => false
        end
      else false
  | EmptyString => false
  end.

Fixpoint first_line (s : string) : string :=
  match s with
  | String c r => if line_break s then EmptyString else String c (first_line r)
  | EmptyString => EmptyString
  end.

(** [s.splitlines()[:1]]: no line of the empty string, the first line of
    any other. *)
Definition splitlines_head (s : string) : list string :=
  match s with
  | EmptyString => []
  | _ => [first_line s]
  end.

Definition print_id_args (url : string) : list string :=
  [ "yt-dlp"; "--js-runtimes"; "deno"; "--no-playlist"; "--skip-download";
    "--print"; "id"; "--extractor-args"; "youtube:player_client=android";
    "--force-ipv4"; url ].

Definition ytdlp_print_id (env : Env) (url : string) (timeout_seconds : Z)
  : Prog (option string) :=
  proc ← call (SubprocessRun (print_id_args url) timeout_seconds);
  match proc with
  | ProcTimeout => Raise TimeoutExpired
  | Completed returncode stdout _ =>
      if negb (returncode =? 0) then mret None
      else
        match splitlines_head (str_strip env stdout) with
        | [] => mret None
        | line :: _ =>
            let vid := str_strip env line in
            mret (if _YT_ID_RE_match vid then Some vid else None)
        end
  end.

(** ** [app/main.py]: the API layer *)

(** Truth value of an [Optional[str]]. *)
Definition given (o : option string) : bool :=
  match o with
  | Some (String _ _) => true
  | _ => false
  end.

(** [a or b] on two [Optional[str]]. *)
Definition or_else (a b : option string) : option string :=
  if given a then a else b.

(** [if arg: vid = extract_youtube_id(arg); if vid: return vid]: the
    identifier returned, if any. *)
Definition tried (env : Env) (arg : option string) : option string :=
  match arg with
  | Some (String _ _ as s) =>
      match extract_youtube_id env s with
      | Some (String _ _ as vid) => Some vid
      | _ => None
      end
  | _ => None
  end.

Definition resolve_video_id (env : Env)
    (video_id url request_path_video_id : option string)
  : Prog (option string) :=
  match tried env request_path_video_id with
  | Some vid => mret (Some vid)
  | None =>
      match tried env video_id with
      | Some vid => mret (Some vid)
      | None =>
          match url with
          | Some (String _ _ as u) =>
              match tried env url with
              | Some vid => mret (Some vid)
              | None => ytdlp_print_id env u 20
              end
          | _ => mret None
          end
      end
  end.

(** [PUBLIC_BASE_URL] is a parameter of the functions that use it. *)
Definition status_payload (PUBLIC_BASE_URL video_id : string) : Prog Py.dict :=
  media ← get_media video_id;
  if media_ready media then
    mret [ ("ok", Py.VBool true);
           ("ready", Py.VBool true);
           ("video_id", Py.VStr video_id);
           ("video_url",
            Py.VStr (PUBLIC_BASE_URL +:+ "/media/" +:+ video_id +:+ "/video"));
           ("audio_url",
            Py.VStr (PUBLIC_BASE_URL +:+ "/media/" +:+ video_id +:+ "/audio"));
           ("watch_url", Py.VStr (PUBLIC_BASE_URL +:+ "/watch/" +:+ video_id));
           ("job_id", Py.VNone) ]
  else
    job_id ← ensure_cache_request video_id;
    mret [ ("ok", Py.VBool true);
           ("ready", Py.VBool false);
           ("video_id", Py.VStr video_id);
           ("video_url", Py.VNone);
           ("audio_url", Py.VNone);
           ("watch_url", Py.VStr (PUBLIC_BASE_URL +:+ "/watch/" +:+ video_id));
           ("job_id", if decide (job_id = EmptyString) then Py.VNone
                      else Py.VStr job_id) ].

(** What a route answers: an [HTTPException], a [FileResponse], a
    [JSONResponse], or the failure an uncaught exception of the named class
    ends in. *)
Inductive response : Type :=
| HTTPException (status_code : Z) (detail : string)
| FileResponse (path media_type filename : string)
    (headers : list (string * string))
| JSONResponse (content : Py.dict)
| Uncaught (exception : string).

Definition CACHE_HEADERS : list (string * string) :=
  [ ("Cache-Control", "public, max-age=31536000, immutable") ].

(** [os.path.basename(p)]: what follows the last slash. *)
Fixpoint basename (p : string) : string :=
  match p with
  | String c r =>
      if decide (c = "/"%char) then basename r
      else if bool_decide ("/"%char ∈ list_ascii_of_string r) then basename r
      else p
  | EmptyString => EmptyString
  end.

(** [mime or "application/octet-stream"]. *)
Definition media_type_of (mime : option string) : string :=
  match mime with
  | Some (String _ _ as mime) => mime
  | _ => "application/octet-stream"
  end.

(** What the two media routes do with the path they found in the record.
    [mimetypes.guess_type] is the parameter [guess_type]; a path that is
    not a [str] makes it raise [TypeError]. *)
Definition serve_path (guess_type : string → option string) (p : Py.value)
  : response :=
  match p with
  | Py.VStr p =>
      FileResponse p (media_type_of (guess_type p)) (basename p) CACHE_HEADERS
  | _ => Uncaught "TypeError"
  end.

Definition media_video (env : Env) (guess_type : string → option string)
    (video_id : string) : Prog response :=
  match extract_youtube_id env video_id with
  | Some (String _ _ as vid) =>
      media ← get_media vid;
      match media with
      | Some ((_ :: _) as media) =>
          if Py.truthy (Py.dict_get "video_path" media)
          then mret (serve_path guess_type (Py.dict_get "video_path" media))
          else ensure_cache_request vid;;
               mret (HTTPException 404 "Video not cached yet")
      | _ =>
          ensure_cache_request vid;;
          mret (HTTPException 404 "Video not cached yet")
      end
  | _ => mret (HTTPException 400 "Invalid video_id")
  end.

Definition media_audio (env : Env) (guess_type : string → option string)
    (video_id : string) : Prog response :=
  match extract_youtube_id env video_id with
  | Some (String _ _ as vid) =>
      media ← get_media vid;
      match media with
      | Some ((_ :: _) as media) =>
          if Py.truthy (Py.dict_get "audio_path" media)
          then mret (serve_path guess_type (Py.dict_get "audio_path" media))
          else ensure_cache_request vid;;
               mret (HTTPException 404 "Audio not cached yet")
      | _ =>
          ensure_cache_request vid;;
          mret (HTTPException 404 "Audio not cached yet")
      end
  | _ => mret (HTTPException 400 "Invalid video_id")
  end.

(** The route [/v1/yt/status]. *)
Definition status (env : Env) (PUBLIC_BASE_URL : string)
    (video_id v url : option string) : Prog response :=
  vid ← resolve_video_id env (or_else video_id v) url None;
  match vid with
  | Some (String _ _ as vid) =>
      payload ← status_payload PUBLIC_BASE_URL vid;
      mret (JSONResponse payload)
  | _ => mret (HTTPException 400 "Unable to resolve video_id")
  end.

(** An identifier as the API layer lets it through: eleven characters of
    the class. *)
Definition is_video_id (s : string) : bool :=
  match id_chars 11 s with
  | Some (_, EmptyString) => true
  | _ => false
  end.

(** [str.strip] leaves no newline at the end of what it returns. *)
Definition strips_newline (env : Env) (s : string) : Prop :=
  Py.endswith_char Py.ch_lf (str_strip env s) = false.


(* ===================================================================== *)
(** * Facts about strings *)
(* ===================================================================== *)

Lemma append_cons (x : ascii) (a b : string) :
  String x a +:+ b = String x (a +:+ b).
Proof. reflexivity. Qed.

Lemma append_assoc (a b c : string) : (a +:+ b) +:+ c = a +:+ (b +:+ c).
Proof. induction a as [|x a IH]; [reflexivity | rewrite !append_cons; by rewrite IH]. Qed.

Lemma append_nil_r (a : string) : a +:+ EmptyString = a.
Proof. induction a as [|x a IH]; [reflexivity | rewrite !append_cons; by rewrite IH]. Qed.

Lemma length_append (a b : string) :
  String.length (a +:+ b) = (String.length a + String.length b)%nat.
Proof.
  induction a as [|x a IH]; [reflexivity|].
  rewrite append_cons. cbn [String.length]. by rewrite IH.
Qed.

(* ===================================================================== *)
(** * [json.loads] inverts [json.dumps] *)
(* ===================================================================== *)

Section JsonRoundTrip.
Import Py Json.
#[local] Arguments String.append !_ _ /.
#[local] Arguments int_ok : simpl never.

(** Every character is read back from its escape. *)
Lemma scanstring_escape_char (c : ascii) (tail : string) :
  scanstring (escape_char c +:+ tail)
  = prepend (String c EmptyString) (scanstring tail).
Proof.
  destruct c as [[] [] [] [] [] [] [] []]; reflexivity.
Qed.

Lemma scanstring_escape (s rest : string) :
  scanstring (escape s +:+ String dquote rest) = Some (s, rest).
Proof.
  induction s as [|c s IH]; simpl; [reflexivity|].
  rewrite append_assoc, scanstring_escape_char, IH. reflexivity.
Qed.

(** *** Integers *)

Lemma digit_val_pretty_N_char (d : N) :
  (d < 10)%N → digit_val (pretty_N_char d) = Some d.
Proof.
  intros Hd. destruct d as [|p]; [reflexivity|].
  repeat (destruct p as [p|p|]; try reflexivity; try (exfalso; lia)).
Qed.

Lemma pretty_N_go_append (x : N) (s t : string) :
  pretty_N_go x s +:+ t = pretty_N_go x (s +:+ t).
Proof.
  revert s. induction (N.lt_wf_0 x) as [x _ IH]; intros s.
  destruct (decide (x = 0%N)) as [->|Hx]; [by rewrite !pretty_N_go_0|].
  rewrite (pretty_N_go_step x s), (pretty_N_go_step x (s +:+ t)) by lia.
  rewrite IH by (apply N.div_lt; lia). reflexivity.
Qed.

(** The digits of a positive number start with a digit other than zero. *)
Lemma pretty_N_go_head (x : N) (s : string) :
  (0 < x)%N →
  ∃ c r d, pretty_N_go x s = String c r ∧ digit_val c = Some d ∧ d ≠ 0%N.
Proof.
  revert s. induction (N.lt_wf_0 x) as [x _ IH]; intros s Hx.
  rewrite pretty_N_go_step by done.
  destruct (decide (x `div` 10 = 0)%N) as [Hq|Hq].
  - rewrite Hq, pretty_N_go_0.
    assert (x < 10)%N by (apply N.div_small_iff in Hq; [done | lia]).
    exists (pretty_N_char (x `mod` 10)), s, (x `mod` 10)%N.
    rewrite N.mod_small by done.
    split; [done|]. split; [by apply digit_val_pretty_N_char | lia].
  - apply IH; [apply N.div_lt; lia | by apply N.neq_0_lt_0].
Qed.

Lemma scan_digits_pretty (x : N) (s : string) :
  (0 < x)%N → scan_digits (pretty_N_go x s) 0 = scan_digits s x.
Proof.
  revert s. induction (N.lt_wf_0 x) as [x _ IH]; intros s Hx.
  rewrite pretty_N_go_step by done.
  assert (Hd : digit_val (pretty_N_char (x `mod` 10)) = Some (x `mod` 10)%N).
  { apply digit_val_pretty_N_char. apply N.mod_lt. lia. }
  destruct (decide (x `div` 10 = 0)%N) as [Hq|Hq].
  - rewrite Hq, pretty_N_go_0. cbn [scan_digits]. rewrite Hd.
    f_equal. pose proof (N.div_mod x 10). lia.
  - rewrite IH by (first [apply N.div_lt; lia | by apply N.neq_0_lt_0]).
    cbn [scan_digits]. rewrite Hd. f_equal.
    pose proof (N.div_mod x 10). lia.
Qed.

Lemma scan_digits_stop (s : string) (n : N) :
  closes_number s → scan_digits s n = (n, s).
Proof. destruct s as [|c s]; [done|]. intros [Hc _]. cbn. by rewrite Hc. Qed.

Lemma closes_number_ends (s : string) : closes_number s → ends_number s = true.
Proof. destruct s; [done|]. by intros [_ ?]. Qed.

Lemma scan_nat_pretty (x : N) (s : string) :
  (0 < x)%N → closes_number s → scan_nat (pretty_N_go x s) = Some (x, s).
Proof.
  intros Hx Hs.
  destruct (pretty_N_go_head x s Hx) as (c & r & d & Heq & Hc & Hd).
  pose proof (scan_digits_pretty x s Hx) as Hscan.
  rewrite (scan_digits_stop s x Hs) in Hscan.
  rewrite Heq in *. unfold scan_nat. rewrite Hc.
  destruct d as [|p]; [congruence|]. rewrite Hscan.
  by rewrite closes_number_ends.
Qed.

(** On a digit, [scan_value] reads a natural number. *)
Lemma scan_value_digit (c : ascii) (r : string) (d : N) :
  digit_val c = Some d →
  scan_value (String c r)
  = match scan_nat (String c r) with
    | Some (n, rest) =>
        if int_ok (Z.of_N n) then Some (VInt (Z.of_N n), rest) else None
    | None => None
    end.
Proof.
  destruct c as [[] [] [] [] [] [] [] []]; intros H;
    (discriminate H || reflexivity).
Qed.

Lemma digit_not_ws (c : ascii) (d : N) : digit_val c = Some d → is_ws c = false.
Proof.
  destruct c as [[] [] [] [] [] [] [] []]; intros H;
    (discriminate H || reflexivity).
Qed.

Lemma scan_value_int (n : Z) (rest : string) :
  int_ok n = true → closes_number rest →
  scan_value (str_of_int n +:+ rest) = Some (VInt n, rest).
Proof.
  intros Hn Hrest. unfold str_of_int, pretty, pretty_Z.
  destruct n as [|p|p].
  - cbn. by rewrite closes_number_ends.
  - unfold pretty, pretty_positive, pretty, pretty_N.
    rewrite decide_False by done.
    rewrite pretty_N_go_append. cbn [String.append].
    destruct (pretty_N_go_head (N.pos p) rest) as (c & r & d & Heq & Hc & Hd);
      [done|].
    pose proof (scan_nat_pretty (N.pos p) rest) as Hs. rewrite Heq in *.
    rewrite (scan_value_digit _ _ _ Hc), Hs by done.
    change (Z.of_N (N.pos p)) with (Z.pos p). by rewrite Hn.
  - unfold pretty, pretty_positive, pretty, pretty_N.
    rewrite decide_False by done.
    rewrite append_cons. cbn [String.append].
    rewrite pretty_N_go_append. cbn [String.append].
    unfold scan_value. cbn [decide]. 
    rewrite decide_False by (by compute).
    rewrite decide_True by done.
    rewrite scan_nat_pretty by done.
    change (- Z.of_N (N.pos p)) with (Z.neg p). by rewrite Hn.
Qed.

(** *** Values *)

Lemma skip_ws_stop (c : ascii) (r : string) :
  is_ws c = false → skip_ws (String c r) = String c r.
Proof. intros H. cbn. by rewrite H. Qed.

Lemma dumps_str_append (s rest : string) :
  dumps_str s +:+ rest = String dquote (escape s +:+ String dquote rest).
Proof. unfold dumps_str. by rewrite append_cons, append_assoc. Qed.

Lemma scan_value_dumps (v : value) (rest : string) :
  readable v = true →
  closes_number rest → scan_value (dumps_value v +:+ rest) = Some (v, rest).
Proof.
  intros Hv Hrest. destruct v as [|[]|n|s|raw]; try reflexivity.
  - by apply scan_value_int.
  - cbn [dumps_value]. rewrite dumps_str_append.
    unfold scan_value. rewrite decide_True by done.
    by rewrite scanstring_escape.
  - done.
Qed.

Lemma skip_ws_dumps_value (v : value) (rest : string) :
  skip_ws (dumps_value v +:+ rest) = dumps_value v +:+ rest.
Proof.
  destruct v as [|[]|n|s|raw]; try reflexivity.
  cbn [dumps_value]. unfold str_of_int, pretty, pretty_Z.
  destruct n as [|p|p]; try reflexivity.
  unfold pretty, pretty_positive, pretty, pretty_N.
  rewrite decide_False by done. rewrite pretty_N_go_append.
  destruct (pretty_N_go_head (N.pos p) (EmptyString +:+ rest))
    as (c & r & d & -> & Hc & _); [done|].
  apply skip_ws_stop. by eapply digit_not_ws.
Qed.

(** *** Objects *)

Lemma dict_set_fresh (k : string) (v : value) (acc : list (string * value)) :
  k ∉ acc.*1 → dict_set k v acc = acc ++ [(k, v)].
Proof.
  induction acc as [|[k' v'] acc IH]; intros Hk; [reflexivity|].
  cbn in *. apply not_elem_of_cons in Hk as [Hne Hk].
  rewrite decide_False by done. by rewrite IH.
Qed.

Lemma follows_member_closes (s : string) : follows_member s → closes_number s.
Proof. by intros []. Qed.

Lemma scan_members_member (fuel : nat) (k : string) (v : value)
    (tail : string) (acc : dict) :
  readable v = true →
  follows_member tail →
  scan_members (S fuel) (dumps_member (k, v) +:+ tail) acc
  = match tail with
    | String "," r4 => scan_members fuel (skip_ws r4) (dict_set k v acc)
    | String "}" r4 => Some (dict_set k v acc, r4)
    | _ => None
    end.
Proof.
  intros Hv Htail. unfold dumps_member. cbn [fst snd].
  rewrite !append_assoc, dumps_str_append.
  cbn [scan_members]. rewrite decide_True by done.
  rewrite scanstring_escape.
  change (skip_ws (": " +:+ dumps_value v +:+ tail))
    with (String ":" (String " " (dumps_value v +:+ tail))).
  cbv beta iota.
  change (skip_ws (String " " (dumps_value v +:+ tail)))
    with (skip_ws (dumps_value v +:+ tail)).
  rewrite skip_ws_dumps_value, scan_value_dumps
    by (done || by apply follows_member_closes).
  by destruct Htail.
Qed.

Lemma dumps_members_head (kv : string * value) (d : dict) :
  ∃ t, dumps_members (kv :: d) = String dquote t.
Proof.
  destruct d as [|kv' d]; cbn [dumps_members]; unfold dumps_member;
    rewrite ?append_assoc, dumps_str_append; eauto.
Qed.

Lemma scan_members_dumps (d acc : list (string * value)) (rest : string)
    (fuel : nat) :
  d ≠ [] → NoDup ((acc ++ d).*1) → (length d ≤ fuel)%nat →
  forallb (λ kv, readable kv.2) d = true →
  scan_members fuel (dumps_members d +:+ String "}" rest) acc
  = Some (acc ++ d, rest).
Proof.
  revert acc fuel.
  induction d as [|[k v] d IH]; intros acc fuel Hne Hdup Hfuel Hread;
    [done|].
  cbn [forallb snd] in Hread. apply andb_true_iff in Hread as [Hv Hread].
  destruct fuel as [|fuel]; [cbn in Hfuel; lia|].
  assert (Hk : k ∉ acc.*1).
  { rewrite fmap_app in Hdup. apply NoDup_app in Hdup as (_ & Hdis & _).
    intros Hin. apply (Hdis k Hin). cbn. left. }
  destruct d as [|kv' d].
  - cbn [dumps_members].
    rewrite scan_members_member by (done || constructor).
    by rewrite dict_set_fresh.
  - change (dumps_members ((k, v) :: kv' :: d))
      with (dumps_member (k, v) +:+ ", " +:+ dumps_members (kv' :: d)).
    rewrite !append_assoc.
    change (", " +:+ dumps_members (kv' :: d) +:+ String "}" rest)
      with (String "," (String " " (dumps_members (kv' :: d) +:+ String "}" rest))).
    rewrite scan_members_member by (done || constructor).
    destruct (dumps_members_head kv' d) as [t Ht].
    change (skip_ws (String " " ?x)) with (skip_ws x).
    rewrite Ht, append_cons, skip_ws_stop by done.
    rewrite <- append_cons, <- Ht.
    rewrite dict_set_fresh by done.
    rewrite IH; [by rewrite <- app_assoc | done | | cbn in *; lia | done].
    by rewrite <- app_assoc.
Qed.

Lemma length_dumps_members (d : dict) :
  (length d ≤ String.length (dumps_members d))%nat.
Proof.
  induction d as [|kv d IH]; [done|].
  destruct d as [|kv' d].
  - destruct (dumps_members_head kv []) as [t ->]. cbn. lia.
  - change (dumps_members (kv :: kv' :: d))
      with (dumps_member kv +:+ ", " +:+ dumps_members (kv' :: d)).
    rewrite !length_append. cbn [length] in *. cbn [String.length]. lia.
Qed.

(** What [json.dumps] wrote of an object whose values can be read back,
    [json.loads] reads as that object. *)
Lemma loads_write (d : dict) :
  wf_dict d → forallb (λ kv, readable kv.2) d = true →
  loads (write d) = Some d.
Proof.
  intros Hd Hread. destruct d as [|kv d]; [reflexivity|].
  destruct (dumps_members_head kv d) as [t Ht].
  assert (Hdumps : write (kv :: d) = String "{" (String dquote (t +:+ "}"))).
  { unfold write. by rewrite Ht. }
  unfold loads. rewrite Hdumps.
  change (skip_ws (String "{" ?x)) with (String "{" x). cbv beta iota.
  rewrite skip_ws_stop by done.
  let q := eval vm_compute in dquote in change dquote with q.
  cbv beta iota.
  change (String _ (t +:+ "}")) with (String dquote t +:+ "}").
  change (String "{" (String _ (t +:+ "}")))
    with (String "{" (String dquote t +:+ "}")).
  rewrite <- Ht.
  rewrite scan_members_dumps; [reflexivity | done | done | | done].
  cbn [String.length]. rewrite length_append.
  pose proof (length_dumps_members (kv :: d)). lia.
Qed.

Lemma readable_storable (d : dict) :
  forallb (λ kv, readable kv.2) d = ints_ok d && negb (has_lone d).
Proof.
  induction d as [|[k v] d IH]; [done|].
  cbn [forallb existsb ints_ok has_lone snd]. rewrite IH.
  unfold ints_ok, has_lone.
  destruct v; cbn; try done.
  - by destruct (int_ok n).
  - by rewrite andb_false_r.
Qed.

(** [json.loads(json.dumps(d, ensure_ascii=False))] is [d], when
    [json.dumps] returns and what it returns has an encoding. *)
Lemma loads_dumps (d : dict) (utf8 : string) :
  wf_dict d → dumps d = Some (Text utf8) → loads utf8 = Some d.
Proof.
  intros Hd. unfold dumps.
  destruct (ints_ok d) eqn:Hints; [|done].
  destruct (has_lone d) eqn:Hlone; [done|].
  intros [= <-]. apply loads_write; [done|].
  by rewrite readable_storable, Hints, Hlone.
Qed.

Lemma dumps_storable (d : dict) :
  ints_ok d = true → has_lone d = false → dumps d = Some (Text (write d)).
Proof. intros Hi Hl. unfold dumps. by rewrite Hi, Hl. Qed.

End JsonRoundTrip.

(* ===================================================================== *)
(** * The output resolver *)
(* ===================================================================== *)

Section Resolver.
Context {A : Type} (key : A → Z).

Lemma elem_of_insert_desc (x q : A) (l : list A) :
  q ∈ insert_desc key x l ↔ q = x ∨ q ∈ l.
Proof.
  induction l as [|y l IH]; cbn.
  - rewrite list_elem_of_singleton, elem_of_nil. tauto.
  - destruct (key y <=? key x).
    + by rewrite elem_of_cons.
    + rewrite !elem_of_cons, IH. tauto.
Qed.

Lemma insert_desc_perm (x : A) (l : list A) : insert_desc key x l ≡ₚ x :: l.
Proof.
  induction l as [|y l IH]; cbn; [done|].
  destruct (key y <=? key x); [done|]. by rewrite IH, Permutation_swap.
Qed.

Lemma sort_desc_perm (l : list A) : sort_desc key l ≡ₚ l.
Proof.
  induction l as [|x l IH]; cbn; [done|].
  by rewrite insert_desc_perm, IH.
Qed.

Lemma insert_desc_descending (x : A) (l : list A) :
  descending key l → descending key (insert_desc key x l).
Proof.
  unfold descending. induction 1 as [|y l Hl IH Hy]; cbn.
  - by repeat constructor.
  - destruct (key y <=? key x) eqn:Hle.
    + apply Z.leb_le in Hle. constructor; [by constructor|].
      constructor; [done|].
      eapply Forall_impl; [exact Hy|]. cbn. intros; lia.
    + apply Z.leb_gt in Hle. constructor; [done|].
      apply Forall_forall. intros q Hq.
      apply elem_of_insert_desc in Hq as [->|Hq]; [lia|].
      by eapply Forall_forall in Hy.
Qed.

Lemma sort_desc_descending (l : list A) : descending key (sort_desc key l).
Proof.
  induction l as [|x l IH]; cbn; [constructor|].
  by apply insert_desc_descending.
Qed.

(** The head of the sorted list is an element with the largest key. *)
Lemma head_sort_desc (l : list A) (p : A) :
  head (sort_desc key l) = Some p →
  p ∈ l ∧ ∀ q, q ∈ l → key q ≤ key p.
Proof.
  intros Hhead. pose proof (sort_desc_descending l) as Hsorted.
  pose proof (sort_desc_perm l) as Hperm.
  destruct (sort_desc key l) as [|p' sorted]; [done|].
  injection Hhead as ->. split.
  - rewrite <- Hperm. left.
  - intros q Hq. rewrite <- Hperm in Hq.
    apply elem_of_cons in Hq as [->|Hq]; [lia|].
    apply StronglySorted_inv in Hsorted as [_ Hall].
    by eapply Forall_forall in Hall.
Qed.

Lemma head_sort_desc_is_Some (l : list A) :
  l ≠ [] → is_Some (head (sort_desc key l)).
Proof.
  intros Hl. pose proof (sort_desc_perm l) as Hperm.
  destruct (sort_desc key l) as [|p sorted]; [|by eexists].
  apply Permutation_nil_l in Hperm. congruence.
Qed.

End Resolver.

Lemma elem_of_candidates (fs : gmap string Fs.node) (paths : list string)
    (p : string) :
  p ∈ List.filter (usable fs) paths ↔ p ∈ paths ∧ usable fs p = true.
Proof. rewrite !list_elem_of_In. apply filter_In. Qed.

(** C2. [_pick_newest_nonempty] returns nothing exactly when no candidate
    is an existing file of non-zero size, in particular on the empty list;
    otherwise it returns one of the existing non-empty candidates, and none
    of them has a later modification time.  Over an older, larger file and
    a newer non-empty one it returns the newer, in either order. *)
Theorem pick_newest_nonempty_spec (fs : gmap string Fs.node)
    (paths : list string) :
  match _pick_newest_nonempty fs paths with
  | None => ∀ p, p ∈ paths → usable fs p = false
  | Some p =>
      p ∈ paths ∧ usable fs p = true
      ∧ ∀ q, q ∈ paths → usable fs q = true → Fs.getmtime fs q ≤ Fs.getmtime fs p
  end
  ∧ _pick_newest_nonempty fs [] = None
  ∧ ∀ (a b : string) (size_a size_b mtime_a mtime_b : Z),
      fs !! a = Some (Fs.File size_a mtime_a) →
      fs !! b = Some (Fs.File size_b mtime_b) →
      mtime_a < mtime_b → 0 < size_b → size_b < size_a →
      _pick_newest_nonempty fs [a; b] = Some b
      ∧ _pick_newest_nonempty fs [b; a] = Some b.
Proof.
  split; [|split; [reflexivity|]].
  - unfold _pick_newest_nonempty. fold (usable fs).
    destruct (List.filter (usable fs) paths) as [|c cs] eqn:Hcs.
    + intros p Hp. destruct (usable fs p) eqn:Hu; [|done].
      assert (p ∈ List.filter (usable fs) paths) as Hin
        by by apply elem_of_candidates.
      rewrite Hcs in Hin. by apply elem_of_nil in Hin.
    + destruct (head_sort_desc_is_Some (Fs.getmtime fs) (c :: cs)) as [p Hp];
        [done|].
      rewrite Hp. apply head_sort_desc in Hp as [Hin Hmax].
      rewrite <- Hcs in Hin, Hmax. apply elem_of_candidates in Hin as [??].
      split; [done|]. split; [done|].
      intros q ??. apply Hmax. by apply elem_of_candidates.
  - intros a b size_a size_b mtime_a mtime_b Ha Hb Hmtime Hsize_b Hsize.
    unfold _pick_newest_nonempty, Fs.isfile, Fs.getsize. cbn.
    rewrite Ha, Hb. cbn.
    rewrite !(proj2 (Z.ltb_lt _ _)) by lia. cbn.
    unfold Fs.getmtime. rewrite Ha, Hb.
    rewrite (proj2 (Z.leb_gt _ _)) by lia.
    rewrite (proj2 (Z.leb_le _ _)) by lia. done.
Qed.

(* ===================================================================== *)
(** * The metadata store and the lock keys *)
(* ===================================================================== *)

Section Engine.
Variable env : Env.

(** Sequencing and [try ... finally] under [run]. *)
Lemma run_bind {A B : Type} (p : Prog A) (f : A → Prog B) (w : World) :
  run env (bind p f) w
  = let '(r, w1, ev1) := run env p w in
    match r with
    | Returned a =>
        let '(r2, w2, ev2) := run env (f a) w1 in (r2, w2, ev1 ++ ev2)
    | Raised e => (Raised e, w1, ev1)
    end.
Proof.
  revert w. induction p as [a|e|X c k IH]; intros w; cbn.
  - by destruct (run env (f a) w) as [[r2 w2] ev2].
  - reflexivity.
  - destruct (handle env c w) as [[x w1] ev1]. rewrite IH.
    destruct (run env (k x) w1) as [[[a|e] w2] ev2].
    + destruct (run env (f a) w2) as [[r3 w3] ev3]. by rewrite app_assoc.
    + reflexivity.
Qed.

Lemma run_try_finally {A : Type} (p : Prog A) (fin : Prog unit) (w : World) :
  run env (try_finally p fin) w
  = let '(r, w1, ev1) := run env p w in
    let '(r2, w2, ev2) := run env fin w1 in
    (match r2 with Returned _ => r | Raised e => Raised e end, w2, ev1 ++ ev2).
Proof.
  revert w. induction p as [a|e|X c k IH]; intros w; cbn.
  - rewrite run_bind. destruct (run env fin w) as [[[[]|e] w2] ev2]; cbn;
      by rewrite ?app_nil_r.
  - rewrite run_bind. destruct (run env fin w) as [[[[]|e'] w2] ev2]; cbn;
      by rewrite ?app_nil_r.
  - destruct (handle env c w) as [[x w1] ev1]. rewrite IH.
    destruct (run env (k x) w1) as [[r w2] ev2].
    destruct (run env fin w2) as [[r3 w3] ev3]. by rewrite app_assoc.
Qed.

Lemma dumps_nonempty (d : Py.dict) : Json.write d ≠ EmptyString.
Proof. done. Qed.

Lemma redis_get_insert_eq (t : Z) (db : gmap string Redis.entry) (k v : string) :
  Redis.get t (<[k := Redis.Entry v None]> db) k = Some v.
Proof. unfold Redis.get. by rewrite lookup_insert_eq. Qed.

(** What [store_media] does to the world. *)
Lemma run_store_media (video_id : string) (payload : Py.dict) (w : World) :
  run env (store_media video_id payload) w
  = match Json.dumps payload with
    | None => (Raised ValueError, w, [])
    | Some (Py.Lone _) => (Raised UnicodeEncodeError, w, [])
    | Some (Py.Text raw) =>
        (Returned tt,
         with_redis (<[_b (k_media video_id)
                       := Redis.Entry raw None]> (redis w)) w,
         [EvSet (_b (k_media video_id)) raw false None true])
    end.
Proof.
  unfold store_media. by destruct (Json.dumps payload) as [[raw|raw]|].
Qed.

Lemma run_release_lock (video_id : string) (w : World) :
  run env (release_lock video_id) w
  = (Returned tt,
     with_redis (delete (_b (k_lock video_id)) (redis w)) w,
     [EvDelete (_b (k_lock video_id))
        (match Redis.get (now w) (redis w) (_b (k_lock video_id)) with
         | Some _ => 1%nat
         | None => 0%nat
         end)]).
Proof. reflexivity. Qed.

Lemma run_get_media (video_id : string) (w : World) :
  run env (get_media video_id) w
  = (media_in w video_id, w,
     [EvGet (_b (k_media video_id))
        (Redis.get (now w) (redis w) (_b (k_media video_id)))]).
Proof.
  unfold media_in, media_of_raw, get_media. cbn.
  destruct (Redis.get _ _ _) as [raw|]; [|reflexivity].
  destruct (decide (raw = EmptyString)); [reflexivity|].
  by destruct (Json.loads _).
Qed.

(** Every way a call of [ensure_cache_request] can go. *)
Lemma run_ensure_cache_request (video_id : string) (w : World) :
  let ev_get := EvGet (_b (k_media video_id))
                  (Redis.get (now w) (redis w) (_b (k_media video_id))) in
  let lock_key := _b (k_lock video_id) in
  run env (ensure_cache_request video_id) w
  = match media_in w video_id with
    | Raised e => (Raised e, w, [ev_get])
    | Returned media =>
        if media_ready media then (Returned EmptyString, w, [ev_get])
        else if lock_held w video_id then
          (Returned EmptyString, w,
           [ev_get; EvSet lock_key "1" true (Some 600) false])
        else
          let j := Job (uuid4 env (issued w)) DownloadAvJob video_id 3600 in
          (Returned (job_id j), after_enqueue env video_id w,
           [ev_get; EvSet lock_key "1" true (Some 600) true; EvEnqueue j;
            EvSet (Py.encode_utf8 ("yt:last_job:" +:+ video_id)) (job_id j)
              false (Some 3600) true])
    end.
Proof.
  intros ev_get lock_key. subst lock_key.
  assert (Hlock : ∀ k : Prog string,
    run env (got_lock ← call (RedisSet (Py.encode_utf8 ("yt:lock:" +:+ video_id))
                                "1" true (Some 600));
             if negb got_lock then mret EmptyString else k) w
    = if lock_held w video_id
      then (Returned EmptyString, w,
            [EvSet (_b (k_lock video_id)) "1" true (Some 600) false])
      else let '(r, w2, ev2) :=
             run env k
               (with_redis (<[_b (k_lock video_id)
                              := Redis.Entry "1" (Some (now w + 600))]> (redis w)) w) in
           (r, w2, EvSet (_b (k_lock video_id)) "1" true (Some 600) true :: ev2)).
  { intros k. unfold lock_held. cbn. unfold Redis.set.
    change (Py.encode_utf8 ("yt:lock:" +:+ video_id)) with (_b (k_lock video_id)).
    destruct (Redis.get (now w) (redis w) (_b (k_lock video_id))); cbn.
    - by destruct w.
    - reflexivity. }
  unfold ensure_cache_request.
  change (run env (?p ≫= ?f) w) with (run env (bind p f) w).
  assert (Hbind : ∀ (f : option Py.dict → Prog string),
    run env (bind (get_media video_id) f) w
    = match media_in w video_id with
      | Raised e => (Raised e, w, [ev_get])
      | Returned media =>
          let '(r, w2, ev2) := run env (f media) w in (r, w2, ev_get :: ev2)
      end).
  { intros f. unfold media_in, media_of_raw, get_media. cbn.
    destruct (Redis.get _ _ _) as [raw|]; [|reflexivity].
    destruct (decide (raw = EmptyString)); [reflexivity|].
    by destruct (Json.loads _). }
  rewrite Hbind. destruct (media_in w video_id) as [media|e]; [|reflexivity].
  destruct (media_ready media); [reflexivity|].
  rewrite Hlock.
  by destruct (lock_held w video_id).
Qed.

(** C7. For every identifier and every metadata record (a dictionary
    without a repeated key), [store_media] does one of three things.  When
    an integer of the record has more than 4300 digits it raises
    [ValueError], and when a string of the record has lone surrogates it
    raises [UnicodeEncodeError]: in both cases nothing is stored.  Otherwise
    it returns, and [get_media], at once or any time later, returns a record
    equal to the one stored. *)
Theorem store_media_get_media_roundtrip (video_id : string)
    (payload : Py.dict) (w : World) (later : Z) :
  Py.wf_dict payload →
  let '(r, stored, ev) := run env (store_media video_id payload) w in
  if Json.ints_ok payload then
    if Json.has_lone payload then
      r = Raised UnicodeEncodeError ∧ stored = w ∧ ev = []
    else
      r = Returned tt
      ∧ (run env (get_media video_id) (advance later stored)).1.1
        = Returned (Some payload)
  else r = Raised ValueError ∧ stored = w ∧ ev = [].
Proof.
  intros Hwf. rewrite run_store_media. unfold Json.dumps.
  destruct (Json.ints_ok payload) eqn:Hints; [|done].
  destruct (Json.has_lone payload) eqn:Hlone; [done|].
  split; [done|].
  rewrite run_get_media. cbn [fst snd].
  unfold media_in. cbn [now redis advance with_redis].
  rewrite redis_get_insert_eq. unfold media_of_raw.
  rewrite decide_False by apply dumps_nonempty.
  unfold Py.decode_utf8.
  by rewrite (loads_dumps payload (Json.write payload) Hwf
                (dumps_storable payload Hints Hlone)).
Qed.

(** C6. When the record of an identifier is present with [video_path] and
    [audio_path] populated, [ensure_cache_request] returns the empty handle,
    its only event is the read of the record (no conditional set, nothing
    enqueued) and the world it leaves is the world it found; a second call
    behaves as the first. *)
Theorem ensure_cache_request_ready_noop (video_id : string) (w : World)
    (media : Py.dict) :
  media_in w video_id = Returned (Some media) →
  media_ready (Some media) = true →
  let read := EvGet (_b (k_media video_id))
                (Redis.get (now w) (redis w) (_b (k_media video_id))) in
  run env (ensure_cache_request video_id) w = (Returned EmptyString, w, [read])
  ∧ run env (ensure_cache_request video_id;; ensure_cache_request video_id) w
    = (Returned EmptyString, w, [read; read]).
Proof.
  intros Hmedia Hready read.
  assert (Hone : run env (ensure_cache_request video_id) w
                 = (Returned EmptyString, w, [read])).
  { rewrite run_ensure_cache_request. cbv zeta. by rewrite Hmedia, Hready. }
  split; [exact Hone|].
  change (run env (ensure_cache_request video_id;; ensure_cache_request video_id) w)
    with (run env (bind (ensure_cache_request video_id)
                     (λ _, ensure_cache_request video_id)) w).
  rewrite run_bind, Hone. by rewrite Hone.
Qed.

(** C10. Whatever key a call of [ensure_cache_request] hands to its
    conditional set is the one key [release_lock] deletes for the same
    identifier; so when the call won the lock, [release_lock] run on the
    world it left removes that lock. *)
Theorem release_lock_deletes_acquired_key (video_id : string) (w w' : World)
    (k : string) (ex : option Z) (ok : bool) :
  (k, ex, ok) ∈ nx_sets (run env (ensure_cache_request video_id) w).2 →
  k = _b (k_lock video_id)
  ∧ deleted_keys (run env (release_lock video_id) w').2 = [k]
  ∧ redis (run env (release_lock video_id)
             (run env (ensure_cache_request video_id) w).1.2).1.2 !! k = None.
Proof.
  intros Hin. rewrite !run_release_lock. cbn [fst snd redis with_redis].
  assert (Hk : k = _b (k_lock video_id)).
  { rewrite run_ensure_cache_request in Hin. cbv zeta in Hin.
    destruct (media_in w video_id) as [media|e]; [|by apply elem_of_nil in Hin].
    destruct (media_ready media); [by apply elem_of_nil in Hin|].
    destruct (lock_held w video_id); cbn in Hin;
      apply list_elem_of_singleton in Hin; congruence. }
  subst k. split; [done|]. split; [done|]. apply lookup_delete_eq.
Qed.

(* ===================================================================== *)
(** * The retrieval job *)
(* ===================================================================== *)

#[local] Arguments download_av_body : simpl never.
#[local] Arguments try_finally : simpl never.

(** The job is its preamble, then the [try] body, then the release. *)
Lemma run_download_av_job (video_id : string) (w : World) :
  run env (download_av_job env video_id) w
  = match Fs.makedirs (fs w) (MEDIA_ROOT env) with
    | None => (Raised OSError, w, [EvMakedirs (MEDIA_ROOT env) false])
    | Some f =>
        let '(r, w1, ev1) :=
          run env (download_av_body env video_id (current_job w) (now w))
            (with_fs f w) in
        (r, with_redis (delete (_b (k_lock video_id)) (redis w1)) w1,
         EvMakedirs (MEDIA_ROOT env) true
         :: ev1 ++ [EvDelete (_b (k_lock video_id))
                      (match Redis.get (now w1) (redis w1)
                               (_b (k_lock video_id)) with
                       | Some _ => 1%nat
                       | None => 0%nat
                       end)])
    end.
Proof.
  unfold download_av_job. cbn.
  destruct (Fs.makedirs (fs w) (MEDIA_ROOT env)) as [f|]; [|reflexivity].
  cbn. rewrite run_try_finally.
  destruct (run env (download_av_body _ _ _ _) _) as [[r w1] ev1].
  reflexivity.
Qed.

#[local] Arguments video_args : simpl never.
#[local] Arguments audio_args : simpl never.
#[local] Arguments video_failed : simpl never.
#[local] Arguments audio_failed : simpl never.
#[local] Arguments _pick_newest_nonempty : simpl never.
#[local] Arguments Fs.path_join : simpl never.
#[local] Arguments Json.write : simpl never.
#[local] Arguments Json.dumps : simpl never.
#[local] Arguments Py.fsdecode : simpl never.
#[local] Arguments build_watch_url : simpl never.

Lemma run_download_video (video_id : string) (w : World) :
  run env (download_video env video_id) w
  = let '(r, f, d) :=
      subprocess_run env (video_args env video_id) 1800 (fs w) (now w) in
    (invocation_outcome (video_failed env) r, advance d (with_fs f w),
     invocation_events env "video" (video_args env video_id) r).
Proof.
  unfold download_video, run_ytdlp_download, warn_stderr, invocation_events.
  cbn.
  destruct (subprocess_run _ _ _ _ _) as [[[rc out err|] f] d]; cbn;
    [|reflexivity].
  destruct (decide (err = EmptyString)); destruct (rc =? 0); reflexivity.
Qed.

Lemma run_download_audio (video_id : string) (w : World) :
  run env (download_audio env video_id) w
  = let '(r, f, d) :=
      subprocess_run env (audio_args env video_id) 1800 (fs w) (now w) in
    (invocation_outcome (audio_failed env) r, advance d (with_fs f w),
     invocation_events env "audio" (audio_args env video_id) r).
Proof.
  unfold download_audio, run_ytdlp_download, warn_stderr, invocation_events.
  cbn.
  destruct (subprocess_run _ _ _ _ _) as [[[rc out err|] f] d]; cbn;
    [|reflexivity].
  destruct (decide (err = EmptyString)); destruct (rc =? 0); reflexivity.
Qed.

Lemma tool_runs_app (a b : list event) :
  tool_runs (a ++ b) = tool_runs a ++ tool_runs b.
Proof. apply omap_app. Qed.

Lemma set_keys_app (a b : list event) :
  set_keys (a ++ b) = set_keys a ++ set_keys b.
Proof. apply omap_app. Qed.

Lemma deleted_keys_app (a b : list event) :
  deleted_keys (a ++ b) = deleted_keys a ++ deleted_keys b.
Proof. apply omap_app. Qed.

Lemma tool_runs_invocation (kind : string) (args : list string)
    (r : proc_result) :
  tool_runs (invocation_events env kind args r) = [(args, 1800, r)].
Proof.
  destruct r as [rc out err|]; cbn; [|reflexivity].
  by destruct (decide (err = EmptyString)).
Qed.

Lemma set_keys_invocation (kind : string) (args : list string)
    (r : proc_result) :
  set_keys (invocation_events env kind args r) = [].
Proof.
  destruct r as [rc out err|]; cbn; [|reflexivity].
  by destruct (decide (err = EmptyString)).
Qed.

Lemma deleted_keys_invocation (kind : string) (args : list string)
    (r : proc_result) :
  deleted_keys (invocation_events env kind args r) = [].
Proof.
  destruct r as [rc out err|]; cbn; [|reflexivity].
  by destruct (decide (err = EmptyString)).
Qed.

Lemma invocation_outcome_returned (failed : Z → string → string)
    (r : proc_result) (u : unit) :
  invocation_outcome failed r = Returned u → succeeded r = true.
Proof.
  destruct r as [rc out err|]; cbn; [|done]. by destruct (rc =? 0).
Qed.

Lemma invocation_outcome_raised (failed : Z → string → string)
    (r : proc_result) (e : exn) :
  invocation_outcome failed r = Raised e → succeeded r = false.
Proof.
  destruct r as [rc out err|]; cbn; [|done]. by destruct (rc =? 0).
Qed.

(** The last section of the job invokes no tool and deletes no key. *)
Lemma resolve_and_publish_events (video_id : string) (job : option string)
    (t0 : Z) (w : World) :
  let ev := (run env (resolve_and_publish env video_id job t0) w).2 in
  tool_runs ev = [] ∧ deleted_keys ev = [].
Proof.
  unfold resolve_and_publish. cbn.
  destruct (_pick_newest_nonempty _ _) as [[|c vp]|]; [done| |done].
  destruct (_pick_newest_nonempty _ _) as [[|c' ap]|]; [done| |done].
  cbn [run handle].
  match goal with
  | |- context [run env (?p ≫= ?f) ?w'] =>
      change (run env (p ≫= f) w') with (run env (bind p f) w')
  end.
  rewrite run_bind, run_store_media.
  by destruct (Json.dumps _) as [[raw|raw]|].
Qed.

#[local] Arguments download_video : simpl never.
#[local] Arguments download_audio : simpl never.
#[local] Arguments resolve_and_publish : simpl never.

(** The [try] body: video, then audio only after video succeeded, then the
    resolution only after both did. *)
Lemma run_download_av_body (video_id : string) (job : option string) (t0 : Z)
    (w : World) :
  run env (download_av_body env video_id job t0) w
  = let '(rv, f1, d1) :=
      subprocess_run env (video_args env video_id) 1800 (fs w) (now w) in
    let w1 := advance d1 (with_fs f1 w) in
    let ev1 := invocation_events env "video" (video_args env video_id) rv in
    match invocation_outcome (video_failed env) rv with
    | Raised e => (Raised e, w1, ev1)
    | Returned _ =>
        let '(ra, f2, d2) :=
          subprocess_run env (audio_args env video_id) 1800 (fs w1) (now w1) in
        let w2 := advance d2 (with_fs f2 w1) in
        let ev2 := invocation_events env "audio" (audio_args env video_id) ra in
        match invocation_outcome (audio_failed env) ra with
        | Raised e => (Raised e, w2, ev1 ++ ev2)
        | Returned _ =>
            let '(r, w3, ev3) :=
              run env (resolve_and_publish env video_id job t0) w2 in
            (r, w3, ev1 ++ ev2 ++ ev3)
        end
    end.
Proof.
  unfold download_av_body.
  change (run env (?p ≫= ?f) w) with (run env (bind p f) w).
  rewrite run_bind, run_download_video.
  destruct (subprocess_run _ _ _ _ _) as [[rv f1] d1]. cbv zeta.
  destruct (invocation_outcome _ rv) as [[]|e]; [|reflexivity].
  match goal with
  | |- context [run env (?p ≫= ?f) ?w'] =>
      change (run env (p ≫= f) w') with (run env (bind p f) w')
  end.
  rewrite run_bind, run_download_audio.
  destruct (subprocess_run _ _ _ _ _) as [[ra f2] d2].
  destruct (invocation_outcome _ ra) as [[]|e]; [|reflexivity].
  by destruct (run env (resolve_and_publish _ _ _ _) _) as [[r w3] ev3].
Qed.

Lemma k_media_ne_k_lock (video_id : string) :
  _b (k_media video_id) ≠ _b (k_lock video_id).
Proof. done. Qed.

(** C3. A job whose video invocation returns a non-zero exit status fails
    with a [RuntimeError] whose message ends with the tool's stderr (as
    [str.strip] leaves it); the audio invocation is not made; no key is
    set, so [store_media] is not called and the record of the identifier is
    what it was; and the last thing the job does is delete the lock, which
    is gone from the store it leaves. *)
Theorem download_av_job_video_failure (video_id : string) (w : World)
    (root : gmap string Fs.node) (rc : Z) (out err : string)
    (f : gmap string Fs.node) (d : Z) :
  Fs.makedirs (fs w) (MEDIA_ROOT env) = Some root →
  subprocess_run env (video_args env video_id) 1800 root (now w)
  = (Completed rc out err, f, d) →
  rc ≠ 0 →
  let '(r, w', ev) := run env (download_av_job env video_id) w in
  r = Raised (RuntimeError
                ("yt-dlp video download failed (rc=" +:+ Py.str_of_int rc
                 +:+ "): " +:+ str_strip env err))
  ∧ tool_runs ev = [(video_args env video_id, 1800, Completed rc out err)]
  ∧ set_keys ev = []
  ∧ redis w' = delete (_b (k_lock video_id)) (redis w)
  ∧ redis w' !! _b (k_media video_id) = redis w !! _b (k_media video_id)
  ∧ redis w' !! _b (k_lock video_id) = None
  ∧ (∃ n, last ev = Some (EvDelete (_b (k_lock video_id)) n))
  ∧ deleted_keys ev = [_b (k_lock video_id)].
Proof.
  intros Hroot Hrun Hrc.
  rewrite run_download_av_job, Hroot, run_download_av_body.
  cbn [fs now with_fs]. rewrite Hrun. cbv zeta.
  unfold invocation_outcome. rewrite (proj2 (Z.eqb_neq rc 0) Hrc).
  cbn [redis advance with_fs].
  change (EvMakedirs ?p ?b :: ?l) with ([EvMakedirs p b] ++ l).
  rewrite !tool_runs_app, !set_keys_app, !deleted_keys_app.
  rewrite tool_runs_invocation, set_keys_invocation, deleted_keys_invocation.
  repeat split; try reflexivity.
  - cbn [redis with_redis].
    by rewrite lookup_delete_ne by (symmetry; apply k_media_ne_k_lock).
  - cbn [redis with_redis]. apply lookup_delete_eq.
  - eexists. rewrite !app_assoc. apply last_snoc.
Qed.

(** [release_lock] never raises, and leaves no lock behind. *)
Lemma release_lock_returns (video_id : string) (w : World) :
  ∃ n, run env (release_lock video_id) w
       = (Returned tt,
          with_redis (delete (_b (k_lock video_id)) (redis w)) w,
          [EvDelete (_b (k_lock video_id)) n])
       ∧ redis (run env (release_lock video_id) w).1.2
           !! _b (k_lock video_id) = None.
Proof.
  eexists. rewrite run_release_lock. split; [reflexivity|].
  cbn. apply lookup_delete_eq.
Qed.

(** Releasing a lock that does not exist changes nothing. *)
Lemma release_lock_absent (video_id : string) (w : World) :
  redis w !! _b (k_lock video_id) = None →
  run env (release_lock video_id) w
  = (Returned tt, w, [EvDelete (_b (k_lock video_id)) 0]).
Proof.
  intros Habs. rewrite run_release_lock. unfold Redis.get. rewrite Habs.
  rewrite delete_id by done. by destruct w.
Qed.

(** Once the [try] block is entered, every way out of the job passes
    through [release_lock]: its event is the last one, and the lock is
    gone. *)
Lemma download_av_job_releases_after_makedirs (video_id : string) (w : World)
    (root : gmap string Fs.node) :
  Fs.makedirs (fs w) (MEDIA_ROOT env) = Some root →
  let '(r, w', ev) := run env (download_av_job env video_id) w in
  (∃ n, last ev = Some (EvDelete (_b (k_lock video_id)) n))
  ∧ redis w' !! _b (k_lock video_id) = None.
Proof.
  intros Hroot. rewrite run_download_av_job, Hroot.
  destruct (run env (download_av_body _ _ _ _) _) as [[r w1] ev1].
  split.
  - eexists. rewrite app_comm_cons. apply last_snoc.
  - cbn. apply lookup_delete_eq.
Qed.

(** C8, where the code departs from it.  When [os.makedirs] raises, the
    job ends before its [try] block: it raises [OSError], deletes no key and
    leaves the world, and with it a held lock, as it found them. *)
Theorem download_av_job_makedirs_failure (video_id : string) (w : World) :
  Fs.makedirs (fs w) (MEDIA_ROOT env) = None →
  run env (download_av_job env video_id) w
  = (Raised OSError, w, [EvMakedirs (MEDIA_ROOT env) false])
  ∧ deleted_keys (run env (download_av_job env video_id) w).2 = []
  ∧ lock_held (run env (download_av_job env video_id) w).1.2 video_id
    = lock_held w video_id.
Proof.
  intros Hroot. rewrite run_download_av_job, Hroot. by repeat split.
Qed.

(** C9, as the code has it.  A job invokes the tool at most twice, one
    invocation after the other: none when the media directory cannot be
    made; otherwise the video invocation first, and the audio invocation
    second exactly when the video invocation completed with exit status 0.
    Both run with a timeout of 1800 seconds.  The arguments carry the format
    expression after [-f] and the output template after [-o]; for an
    identifier that does not begin with a slash the template is the media
    directory, the identifier, the kind and the extension placeholder.  The
    video expression is a chain of four alternatives, the audio expression a
    chain of three. *)
Theorem download_av_job_invocations (video_id : string) (w : World) :
  let runs := tool_runs (run env (download_av_job env video_id) w).2 in
  match Fs.makedirs (fs w) (MEDIA_ROOT env) with
  | None => runs = []
  | Some _ =>
      ∃ rv, if succeeded rv
            then ∃ ra, runs = [(video_args env video_id, 1800, rv);
                               (audio_args env video_id, 1800, ra)]
            else runs = [(video_args env video_id, 1800, rv)]
  end
  ∧ video_args env video_id
    = common ++ ["-f"; video_format; "-o"; video_tpl env video_id]
      ++ ["--write-subs"; "--write-auto-subs"; "--sub-format"; "vtt";
          "--output-na-placeholder";
          String Py.dquote (String Py.dquote EmptyString);
          build_watch_url video_id]
  ∧ audio_args env video_id
    = common ++ ["-f"; audio_format; "-o"; audio_tpl env video_id]
      ++ [build_watch_url video_id]
  ∧ (Py.startswith "/" video_id = false →
     video_tpl env video_id
     = dir_prefix (MEDIA_ROOT env) +:+ video_id +:+ ".video.%(ext)s"
     ∧ audio_tpl env video_id
       = dir_prefix (MEDIA_ROOT env) +:+ video_id +:+ ".audio.%(ext)s")
  ∧ Py.split_char "/" video_format
    = ["bestvideo[ext=mp4][vcodec^=avc1]"; "bestvideo[ext=mp4]";
       "bestvideo[protocol^=m3u8]"; "bestvideo"]
  ∧ Py.split_char "/" audio_format
    = ["bestaudio[ext=m4a]"; "bestaudio[protocol^=m3u8]"; "bestaudio"].
Proof.
  intros runs. subst runs. split; [|split; [|split; [|split; [|split]]]];
    try reflexivity.
  - rewrite run_download_av_job.
    destruct (Fs.makedirs (fs w) (MEDIA_ROOT env)) as [root|]; [|reflexivity].
    rewrite run_download_av_body.
    destruct (subprocess_run _ _ _ _ _) as [[rv f1] d1]. cbv zeta.
    exists rv.
    destruct (invocation_outcome _ rv) as [[]|e] eqn:Hv.
    + rewrite (invocation_outcome_returned _ _ _ Hv).
      destruct (subprocess_run _ _ _ _ _) as [[ra f2] d2]. exists ra.
      pose proof (resolve_and_publish_events video_id (current_job w) (now w)
                    (advance d2 (with_fs f2 (advance d1 (with_fs f1 (with_fs root w))))))
        as [Hruns _].
      destruct (invocation_outcome _ ra) as [[]|e];
        [destruct (run env (resolve_and_publish _ _ _ _) _) as [[r w3] ev3]|];
        cbn [fst snd] in *;
        change (EvMakedirs ?p ?b :: ?l) with ([EvMakedirs p b] ++ l);
        rewrite !tool_runs_app, !tool_runs_invocation, ?Hruns; reflexivity.
    + rewrite (invocation_outcome_raised _ _ _ Hv). cbn [fst snd].
      change (EvMakedirs ?p ?b :: ?l) with ([EvMakedirs p b] ++ l).
      rewrite !tool_runs_app, !tool_runs_invocation. reflexivity.
  - intros Hid. unfold video_tpl, audio_tpl, Fs.path_join, dir_prefix.
    assert (Hv : Py.startswith "/" (video_id +:+ ".video.%(ext)s") = false)
      by (destruct video_id; [reflexivity | exact Hid]).
    assert (Ha : Py.startswith "/" (video_id +:+ ".audio.%(ext)s") = false)
      by (destruct video_id; [reflexivity | exact Hid]).
    rewrite Hv, Ha.
    destruct (bool_decide (MEDIA_ROOT env = EmptyString)
              || Py.endswith_char "/" (MEDIA_ROOT env));
      rewrite ?append_assoc; done.
Qed.

(* ===================================================================== *)
(** * Time-outs and the life of the lock *)
(* ===================================================================== *)

(** What [ensure_cache_request] enqueues and conditionally sets. *)
Lemma ensure_cache_request_events (video_id : string) (w : World) :
  let ev := (run env (ensure_cache_request video_id) w).2 in
  (enqueued ev = []
   ∨ enqueued ev = [Job (uuid4 env (issued w)) DownloadAvJob video_id 3600])
  ∧ (nx_sets ev = []
     ∨ ∃ ok, nx_sets ev = [(_b (k_lock video_id), Some 600, ok)])
  ∧ deleted_keys ev = [].
Proof.
  rewrite run_ensure_cache_request. cbv zeta.
  destruct (media_in w video_id) as [media|e]; [|by auto].
  destruct (media_ready media); [by auto|].
  destruct (lock_held w video_id); cbn; eauto 6.
Qed.

(** C5, as the code has it.  The job timeout handed to the queue is 3600
    seconds, each tool invocation of the job runs with a timeout of 1800
    seconds, and there are at most two of them: the job timeout equals the
    sum of the two tool timeouts, and is never below the sum of the timeouts
    of the invocations a job makes. *)
Theorem job_timeout_covers_tool_timeouts (video_id : string) (w w' : World)
    (j : job) :
  j ∈ enqueued (run env (ensure_cache_request video_id) w).2 →
  let timeouts :=
    (λ x, x.1.2) <$> tool_runs (run env (download_av_job env video_id) w').2 in
  job_timeout j = 1800 + 1800
  ∧ Forall (λ t, t = 1800) timeouts
  ∧ (length timeouts ≤ 2)%nat
  ∧ foldr Z.add 0 timeouts ≤ job_timeout j.
Proof.
  intros Hj timeouts. subst timeouts.
  assert (Hjt : job_timeout j = 3600).
  { destruct (ensure_cache_request_events video_id w) as ([H|H] & _);
      rewrite H in Hj.
    - by apply elem_of_nil in Hj.
    - apply list_elem_of_singleton in Hj. by subst j. }
  rewrite Hjt.
  pose proof (download_av_job_invocations video_id w') as [Hruns _].
  cbv zeta in Hruns.
  destruct (Fs.makedirs (fs w') (MEDIA_ROOT env)).
  - destruct Hruns as [rv Hruns]. destruct (succeeded rv).
    + destruct Hruns as [ra ->]. cbn. repeat split; [|lia|lia].
      by repeat constructor.
    + rewrite Hruns. cbn. repeat split; [|lia|lia]. by repeat constructor.
  - rewrite Hruns. cbn. repeat split; [constructor|lia|lia].
Qed.

(** A record that is not ready does not get ready by itself. *)
Lemma media_not_ready_later (video_id : string) (w w' : World)
    (m : option Py.dict) :
  media_in w video_id = Returned m → media_ready m = false →
  redis w' !! _b (k_media video_id) = redis w !! _b (k_media video_id) →
  now w ≤ now w' →
  ∃ m', media_in w' video_id = Returned m' ∧ media_ready m' = false.
Proof.
  unfold media_in, Redis.get. intros Hm Hready -> Hnow.
  destruct (redis w !! _b (k_media video_id)) as [e|]; [|by eauto].
  unfold Redis.live in *. destruct (Redis.deadline e) as [dl|]; [|by eauto].
  destruct (now w' <=? dl) eqn:Hlater.
  - apply Z.leb_le in Hlater.
    assert ((now w <=? dl) = true) as Hbefore by (apply Z.leb_le; lia).
    rewrite Hbefore in Hm. eauto.
  - by exists None.
Qed.

Lemma k_last_job_ne_k_lock (video_id : string) :
  Py.encode_utf8 ("yt:last_job:" +:+ video_id) ≠ _b (k_lock video_id).
Proof. done. Qed.

Lemma k_last_job_ne_k_media (video_id : string) :
  Py.encode_utf8 ("yt:last_job:" +:+ video_id) ≠ _b (k_media video_id).
Proof. done. Qed.

Lemma after_enqueue_media (video_id : string) (w : World) :
  redis (after_enqueue env video_id w) !! _b (k_media video_id)
  = redis w !! _b (k_media video_id).
Proof.
  cbn. rewrite lookup_insert_ne by apply k_last_job_ne_k_media.
  by rewrite lookup_insert_ne by (symmetry; apply k_media_ne_k_lock).
Qed.

Lemma after_enqueue_lock (video_id : string) (w : World) :
  redis (after_enqueue env video_id w) !! _b (k_lock video_id)
  = Some (Redis.Entry "1" (Some (now w + 600))).
Proof.
  cbn. rewrite lookup_insert_ne by apply k_last_job_ne_k_lock.
  apply lookup_insert_eq.
Qed.

(** C4, where the code departs from it.  The lock is set to expire 600
    seconds after it was taken, while the job it stands for is given 3600
    seconds.  Up to the 600th second the lock is held; a caller that comes
    later than that, with no release in between - so also while the job,
    within its 3600 seconds, is still running - wins the lock again and
    submits a second job for the same identifier. *)
Theorem lock_expires_before_job_timeout (video_id : string) (w : World)
    (m : option Py.dict) (d : Z) :
  media_in w video_id = Returned m → media_ready m = false →
  lock_held w video_id = false →
  600 < d →
  let '(r1, w1, ev1) := run env (ensure_cache_request video_id) w in
  let '(r2, w2, ev2) :=
    run env (ensure_cache_request video_id) (advance d w1) in
  (∀ d', d' ≤ 600 → lock_held (advance d' w1) video_id = true)
  ∧ lock_held (advance d w1) video_id = false
  ∧ ∃ j1 j2,
      enqueued ev1 = [j1] ∧ enqueued ev2 = [j2]
      ∧ nx_sets ev1 = [(_b (k_lock video_id), Some 600, true)]
      ∧ nx_sets ev2 = [(_b (k_lock video_id), Some 600, true)]
      ∧ job_timeout j1 = 3600
      ∧ deleted_keys (ev1 ++ ev2) = []
      ∧ queue w2 = queue w ++ [j1; j2].
Proof.
  intros Hm Hready Hlock Hd.
  rewrite run_ensure_cache_request. cbv zeta. rewrite Hm, Hready, Hlock.
  destruct (media_not_ready_later video_id w
              (advance d (after_enqueue env video_id w)) m Hm Hready)
    as (m' & Hm' & Hready').
  { apply after_enqueue_media. }
  { cbn. lia. }
  assert (Hlock' : lock_held (advance d (after_enqueue env video_id w))
                     video_id = false).
  { unfold lock_held, Redis.get. cbn [redis advance now].
    rewrite after_enqueue_lock. unfold Redis.live. cbn.
    rewrite (proj2 (Z.leb_gt _ _)) by lia.
    apply bool_decide_false. by intros [??]. }
  rewrite run_ensure_cache_request. cbv zeta. rewrite Hm', Hready', Hlock'.
  split.
  { intros d' Hd'. unfold lock_held, Redis.get. cbn [redis advance now].
    rewrite after_enqueue_lock. unfold Redis.live. cbn.
    rewrite (proj2 (Z.leb_le _ _)) by lia.
    apply bool_decide_true. by eexists. }
  split; [done|].
  do 2 eexists. repeat split; try reflexivity.
  cbn. by rewrite <- app_assoc.
Qed.

End Engine.

(* ===================================================================== *)
(** * Concurrent callers *)
(* ===================================================================== *)

Section Callers.
Variable env : Env.
Variable video_id : string.
Variable n : nat.
Variable w0 : World.
Variable m0 : option Py.dict.
Hypothesis media_absent : media_in w0 video_id = Returned m0.
Hypothesis media_unready : media_ready m0 = false.
Hypothesis lock_free : lock_held w0 video_id = false.

Local Notation "'lock_key'" := (_b (k_lock video_id)).
Local Notation "'media_key'" := (_b (k_media video_id)).
Local Notation "'the_job'" :=
  (Job (uuid4 env (issued w0)) DownloadAvJob video_id 3600).
#[local] Arguments media_ready : simpl never.

(** A caller that read a record that is not ready goes on to the lock. *)
Lemma ensure_cache_request_unfold :
  ∃ k, ensure_cache_request video_id = Op (RedisGet media_key) k
       ∧ ∀ raw m, media_of_raw raw = Returned m → media_ready m = false →
                  k raw = acquire video_id.
Proof.
  eexists. split; [reflexivity|].
  intros raw m. unfold media_of_raw.
  destruct raw as [raw|]; cbn.
  - destruct (decide (raw = EmptyString)); cbn.
    + intros [= <-] _. reflexivity.
    + destruct (Json.loads _) as [d|]; [|done]. cbn.
      intros [= <-] ->. reflexivity.
  - intros [= <-] _. reflexivity.
Qed.

(** A key that is not live stays so while nobody writes it. *)
Lemma redis_get_none_later (t t' : Z) (db db' : gmap string Redis.entry)
    (k : string) :
  Redis.get t db k = None → db' !! k = db !! k → t ≤ t' →
  Redis.get t' db' k = None.
Proof.
  unfold Redis.get, Redis.live. intros Hget -> Ht.
  destruct (db !! k) as [e|]; [|done].
  destruct (Redis.deadline e) as [dl|]; [|done].
  destruct (t <=? dl) eqn:Hlive; [done|].
  apply Z.leb_gt in Hlive. by rewrite (proj2 (Z.leb_gt t' dl)) by lia.
Qed.

Lemma lock_free_later (w : World) :
  redis w !! lock_key = redis w0 !! lock_key → now w0 ≤ now w →
  Redis.get (now w) (redis w) lock_key = None.
Proof.
  intros Hsame Hnow. eapply redis_get_none_later; [|exact Hsame|exact Hnow].
  unfold lock_held in lock_free. apply bool_decide_eq_false in lock_free.
  destruct (Redis.get _ _ _); [|done]. exfalso. eauto.
Qed.

Lemma lock_live (w : World) (dl : Z) :
  redis w !! lock_key = Some (Redis.Entry "1" (Some dl)) → now w ≤ dl →
  Redis.get (now w) (redis w) lock_key = Some "1".
Proof.
  intros Hentry Hnow. unfold Redis.get, Redis.live. rewrite Hentry. cbn.
  by rewrite (proj2 (Z.leb_le _ _)).
Qed.

Lemma nx_wins_app (a b : list event) : nx_wins (a ++ b) = nx_wins a ++ nx_wins b.
Proof. apply omap_app. Qed.

Lemma enqueued_app (a b : list event) : enqueued (a ++ b) = enqueued a ++ enqueued b.
Proof. apply omap_app. Qed.

Lemma act_step (s : system string) (i : nat) {X : Type} (c : cmd X)
    (k : X → Prog string) :
  threads s !! i = Some (Op c k) →
  act env s (Step i)
  = let '(x, w, ev) := handle env c (world s) in
    MkSystem (<[i := k x]> (threads s)) w (history s ++ ev).
Proof. intros H. unfold act. by rewrite H. Qed.

Lemma act_idle (s : system string) (i : nat) :
  match threads s !! i with
  | Some p => finished p = true
  | None => True
  end →
  act env s (Step i) = s.
Proof.
  unfold act. destruct (threads s !! i) as [[| |X c k]|]; try done.
Qed.

Lemma bystanders_insert (st : list stage) (i wi : nat) (x : stage) :
  is_bystander x →
  (∀ j stj, j ≠ wi → st !! j = Some stj → is_bystander stj) →
  ∀ j stj, j ≠ wi → <[i := x]> st !! j = Some stj → is_bystander stj.
Proof.
  intros Hx Hst j stj Hj Hlook.
  apply list_lookup_insert_Some in Hlook as [(-> & <- & _)|[_ Hlook]];
    [done | by eapply Hst].
Qed.

Lemma turns_cons (j : nat) (a : action) (tr : list action) :
  turns j (a :: tr) = (turns j [a] + turns j tr)%nat.
Proof.
  unfold turns. cbn [List.filter].
  by destruct a as [i|d]; [destruct (bool_decide (i = j))|].
Qed.

(** A turn that runs no command leaves every stage as it is. *)
Lemma advanced_idle (a : action) (st : list stage) :
  (∀ i sti, a = Step i → st !! i = Some sti → todo sti = 0%nat) →
  advanced [a] st st.
Proof.
  intros Hidle j stj Hj. exists stj. split; [done|].
  destruct a as [i|d]; [|cbn; lia].
  unfold turns. cbn. destruct (bool_decide_reflect (i = j)) as [->|]; cbn;
    [|lia].
  rewrite (Hidle j stj eq_refl Hj). lia.
Qed.

(** A turn that runs a command takes it off what the caller has left. *)
Lemma advanced_insert (st : list stage) (i : nat) (sti x : stage) :
  st !! i = Some sti → (todo x < todo sti)%nat →
  advanced [Step i] st (<[i := x]> st).
Proof.
  intros Hi Hx j stj Hj. unfold turns. cbn.
  destruct (bool_decide_reflect (i = j)) as [->|Hne]; cbn.
  - exists x. rewrite list_lookup_insert_eq by by eapply lookup_lt_Some.
    split; [done|]. rewrite Hi in Hj. injection Hj as <-. lia.
  - exists stj. rewrite list_lookup_insert_ne by done. split; [done|]. lia.
Qed.

(** One scheduler step keeps the invariant, as long as the lock of a
    winner is still alive. *)
Lemma callers_inv_act (winner : option nat) (st : list stage)
    (s : system string) (a : action) :
  callers_inv env video_id n w0 winner st s →
  now (world s) ≤ now w0 + 600 →
  ∃ winner' st', callers_inv env video_id n w0 winner' st' (act env s a)
                 ∧ advanced [a] st st'.
Proof.
  intros Hinv Hbudget. destruct a as [i|d].
  2:{ exists winner, st. split; [|by apply advanced_idle].
      destruct Hinv as [Hth Hlen Hmedia Hclock Hdel Hcases].
      constructor; cbn; try done. lia. }
  destruct (st !! i) as [sti|] eqn:Hi.
  2:{ exists winner, st. split; [|apply advanced_idle; congruence].
      rewrite act_idle; [done|].
      by rewrite (inv_threads _ _ _ _ _ _ _ Hinv), list_lookup_fmap, Hi. }
  destruct Hinv as [Hth Hlen Hmedia Hclock Hdel Hcases].
  assert (Hthread : threads s !! i
                    = Some (prog_of_stage video_id (uuid4 env (issued w0)) sti))
    by by rewrite Hth, list_lookup_fmap, Hi.
  assert (Hilt : (i < length st)%nat) by by eapply lookup_lt_Some.
  destruct sti; cbn [prog_of_stage] in Hthread.
  - (* the caller reads the record *)
    destruct ensure_cache_request_unfold as (k & Hk & Hnext).
    rewrite Hk in Hthread. rewrite (act_step _ _ _ _ Hthread). cbn [handle].
    destruct (media_not_ready_later video_id w0 (world s) m0
                media_absent media_unready Hmedia Hclock) as (m' & Hm' & Hr').
    rewrite (Hnext _ m' Hm' Hr').
    exists winner, (<[i := Acquiring]> st).
    split; [|apply (advanced_insert _ _ _ _ Hi); cbn; lia].
    constructor; cbn [threads world history].
    + by rewrite list_fmap_insert, Hth.
    + by rewrite length_insert.
    + done.
    + done.
    + by rewrite deleted_keys_app, Hdel.
    + rewrite nx_wins_app, enqueued_app, !app_nil_r.
      destruct winner as [wi|]; cbv zeta in *.
      * destruct Hcases as (stw & Hw & Hwin & Hothers & Hrest).
        assert (i ≠ wi) by (intros ->; rewrite Hi in Hw; by injection Hw as <-).
        exists stw. rewrite list_lookup_insert_ne by done.
        split; [done|]. split; [done|].
        split; [by apply bystanders_insert|]. done.
      * destruct Hcases as (Hall & Hrest). split; [|done].
        by apply Forall_insert.
  - (* the caller tries the lock *)
    unfold acquire in Hthread. rewrite (act_step _ _ _ _ Hthread).
    cbn [handle]. unfold Redis.set.
    change (Py.encode_utf8 ("yt:lock:" +:+ video_id)) with (_b (k_lock video_id)).
    destruct winner as [wi|]; cbv zeta in Hcases.
    + (* somebody holds it *)
      destruct Hcases as (stw & Hw & Hwin & Hothers & (dl & Hentry & Hdl) & Hwins & Hjob).
      assert (i ≠ wi) by (intros ->; rewrite Hi in Hw; by injection Hw as <-).
      rewrite (lock_live (world s) dl) by (done || lia).
      exists (Some wi), (<[i := Lost]> st).
      split; [|apply (advanced_insert _ _ _ _ Hi); cbn; lia].
      constructor; cbn [threads world history redis with_redis now queue issued].
      * by rewrite list_fmap_insert, Hth.
      * by rewrite length_insert.
      * done.
      * done.
      * by rewrite deleted_keys_app, Hdel.
      * cbv zeta. rewrite nx_wins_app, enqueued_app, !app_nil_r.
        exists stw. rewrite list_lookup_insert_ne by done.
        split; [done|]. split; [done|].
        split; [by apply bystanders_insert|]. split; [by eauto|]. done.
    + (* nobody does: this caller wins *)
      destruct Hcases as (Hall & Hlock & Hqueue & Hissued & Hwins & Henq).
      rewrite (lock_free_later (world s)) by done.
      exists (Some i), (<[i := Submitting]> st).
      split; [|apply (advanced_insert _ _ _ _ Hi); cbn; lia].
      constructor; cbn [threads world history redis with_redis now queue issued].
      * by rewrite list_fmap_insert, Hth.
      * by rewrite length_insert.
      * by rewrite lookup_insert_ne by (symmetry; apply k_media_ne_k_lock).
      * done.
      * by rewrite deleted_keys_app, Hdel.
      * cbv zeta. rewrite nx_wins_app, enqueued_app, Hwins, Henq.
        exists Submitting. rewrite list_lookup_insert_eq by done.
        split; [done|]. split; [done|]. split.
        { intros j stj Hj Hlook. rewrite list_lookup_insert_ne in Hlook by done.
          eapply Forall_lookup_1 in Hall; [|exact Hlook].
          by destruct stj. }
        split.
        { eexists. split; [apply lookup_insert_eq|]. lia. }
        done.
  - (* the winner enqueues the job *)
    unfold submit_job in Hthread. rewrite (act_step _ _ _ _ Hthread).
    cbn [handle].
    destruct winner as [wi|]; cbv zeta in Hcases.
    2:{ destruct Hcases as (Hall & _).
        eapply Forall_lookup_1 in Hall; [|exact Hi]. done. }
    destruct Hcases as (stw & Hw & Hwin & Hothers & Hentry & Hwins & Hjob).
    destruct (decide (i = wi)) as [->|Hne].
    2:{ by specialize (Hothers i Submitting Hne Hi). }
    rewrite Hi in Hw. injection Hw as <-. cbn [holds_job] in Hjob.
    destruct Hjob as (Hqueue & Hissued & Henq).
    exists (Some wi), (<[wi := Noting]> st).
    split; [|apply (advanced_insert _ _ _ _ Hi); cbn; lia].
    constructor; cbn [threads world history redis submit now queue issued job_id].
    + rewrite list_fmap_insert, Hth. cbn [prog_of_stage]. by rewrite Hissued.
    + by rewrite length_insert.
    + done.
    + done.
    + by rewrite deleted_keys_app, Hdel.
    + cbv zeta. rewrite nx_wins_app, enqueued_app, Hwins, Henq, Hqueue, Hissued.
      exists Noting. rewrite list_lookup_insert_eq by done.
      split; [done|]. split; [done|]. split.
      { intros j stj Hj Hlook. rewrite list_lookup_insert_ne in Hlook by done.
        by eapply Hothers. }
      done.
  - (* the winner notes the job id *)
    unfold note_job in Hthread. rewrite (act_step _ _ _ _ Hthread).
    cbn [handle]. unfold Redis.set.
    destruct winner as [wi|]; cbv zeta in Hcases.
    2:{ destruct Hcases as (Hall & _).
        eapply Forall_lookup_1 in Hall; [|exact Hi]. done. }
    destruct Hcases as (stw & Hw & Hwin & Hothers & (dl & Hentry & Hdl) & Hwins & Hjob).
    destruct (decide (i = wi)) as [->|Hne].
    2:{ by specialize (Hothers i Noting Hne Hi). }
    rewrite Hi in Hw. injection Hw as <-. cbn [holds_job] in Hjob.
    destruct Hjob as (Hqueue & Henq).
    exists (Some wi), (<[wi := Won]> st).
    split; [|apply (advanced_insert _ _ _ _ Hi); cbn; lia].
    constructor; cbn [threads world history redis with_redis now queue issued].
    + by rewrite list_fmap_insert, Hth.
    + by rewrite length_insert.
    + by rewrite lookup_insert_ne by apply k_last_job_ne_k_media.
    + done.
    + by rewrite deleted_keys_app, Hdel.
    + cbv zeta. rewrite nx_wins_app, enqueued_app, Hwins, Henq, !app_nil_r.
      exists Won. rewrite list_lookup_insert_eq by done.
      split; [done|]. split; [done|]. split.
      { intros j stj Hj Hlook. rewrite list_lookup_insert_ne in Hlook by done.
        by eapply Hothers. }
      split.
      { exists dl. by rewrite lookup_insert_ne by apply k_last_job_ne_k_lock. }
      done.
  - (* a caller that lost is back *)
    exists winner, st.
    split; [|apply advanced_idle; intros ?? [= <-] H; rewrite Hi in H;
             by injection H as <-].
    rewrite act_idle; [by constructor|]. by rewrite Hthread.
  - (* the winner is back *)
    exists winner, st.
    split; [|apply advanced_idle; intros ?? [= <-] H; rewrite Hi in H;
             by injection H as <-].
    rewrite act_idle; [by constructor|]. by rewrite Hthread.
Qed.

(** Callers of [ensure_cache_request] take no time of their own. *)
Lemma callers_act_clock (winner : option nat) (st : list stage)
    (s : system string) (a : action) :
  callers_inv env video_id n w0 winner st s →
  now (world (act env s a)) = now (world s) + elapsed [a].
Proof.
  intros Hinv. destruct a as [i|d]; [|cbn; lia].
  unfold act. rewrite (inv_threads _ _ _ _ _ _ _ Hinv), list_lookup_fmap.
  destruct (st !! i) as [[]|]; cbn; try lia.
  all: destruct (Redis.get _ _ _); cbn; lia.
Qed.

Lemma elapsed_cons (a : action) (tr : list action) :
  elapsed (a :: tr) = elapsed [a] + elapsed tr.
Proof. unfold elapsed. destruct a; cbn; lia. Qed.

Lemma elapsed_nonneg (tr : list action) : 0 ≤ elapsed tr.
Proof. unfold elapsed. induction tr as [|[] tr IH]; cbn; lia. Qed.

Lemma advanced_trans (a : action) (tr : list action)
    (st st' st'' : list stage) :
  advanced [a] st st' → advanced tr st' st'' → advanced (a :: tr) st st''.
Proof.
  intros H1 H2 j stj Hj.
  destruct (H1 j stj Hj) as (stj' & Hj' & Hle').
  destruct (H2 j stj' Hj') as (stj'' & Hj'' & Hle'').
  exists stj''. split; [done|]. rewrite turns_cons. lia.
Qed.

(** The invariant holds after any schedule that ends before the lock of a
    winner could expire, and every caller is as many commands further as
    the schedule gave it turns. *)
Lemma callers_inv_exec (tr : list action) (winner : option nat)
    (st : list stage) (s : system string) :
  callers_inv env video_id n w0 winner st s →
  now (world s) + elapsed tr ≤ now w0 + 600 →
  ∃ winner' st', callers_inv env video_id n w0 winner' st' (exec env tr s)
                 ∧ advanced tr st st'.
Proof.
  revert winner st s. induction tr as [|a tr IH]; intros winner st s Hinv Ht.
  { exists winner, st. split; [done|]. intros j stj Hj. exists stj.
    split; [done|]. cbn. lia. }
  rewrite elapsed_cons in Ht.
  pose proof (elapsed_nonneg tr). pose proof (elapsed_nonneg [a]).
  destruct (callers_inv_act winner st s a Hinv)
    as (winner' & st' & Hinv' & Hadv'); [lia|].
  destruct (IH winner' st' (act env s a) Hinv')
    as (winner'' & st'' & Hinv'' & Hadv'').
  { rewrite (callers_act_clock winner st s a Hinv). lia. }
  exists winner'', st''. split; [exact Hinv''|].
  by eapply advanced_trans.
Qed.

Lemma callers_inv_init :
  callers_inv env video_id n w0 None (replicate n Reading)
    (MkSystem (replicate n (ensure_cache_request video_id)) w0 []).
Proof.
  constructor; cbn; try done.
  - by rewrite fmap_replicate.
  - apply length_replicate.
  - split; [|done]. by apply Forall_replicate.
Qed.

Lemma complete_turns (tr : list action) (i : nat) :
  complete n tr = true → (i < n)%nat → (4 ≤ turns i tr)%nat.
Proof.
  unfold complete. rewrite forallb_forall. intros Hall Hi.
  apply Nat.leb_le, Hall, in_seq. lia.
Qed.

(** C1, with the limit the code has.  Let [n] callers invoke
    [ensure_cache_request] for one identifier whose record is not ready and
    whose lock is free, their commands interleaved in any order, while no
    more time passes than the 600 seconds the lock lives and nothing
    releases it.  Then at every moment at most one conditional set has
    succeeded and at most one job was submitted; a caller is back, with the
    handle of the job or with the empty handle, once it had four turns; and
    when every caller had its four turns exactly one of them holds the
    handle of the one job in the queue, and every other caller returned the
    empty handle. *)
Theorem concurrent_callers_one_job (tr : list action) :
  (0 < n)%nat → elapsed tr ≤ 600 →
  let s := exec env tr
             (MkSystem (replicate n (ensure_cache_request video_id)) w0 []) in
  (nx_wins (history s) = [] ∨ nx_wins (history s) = [lock_key])
  ∧ (enqueued (history s) = [] ∨ enqueued (history s) = [the_job])
  ∧ deleted_keys (history s) = []
  ∧ (∀ i, (i < n)%nat → (4 ≤ turns i tr)%nat →
          threads s !! i = Some (Ret (job_id the_job))
          ∨ threads s !! i = Some (Ret EmptyString))
  ∧ (complete n tr = true →
     ∃ i, (i < n)%nat
          ∧ threads s !! i = Some (Ret (job_id the_job))
          ∧ (∀ j, j ≠ i → (j < n)%nat →
                  threads s !! j = Some (Ret EmptyString))
          ∧ nx_wins (history s) = [lock_key]
          ∧ enqueued (history s) = [the_job]
          ∧ queue (world s) = queue w0 ++ [the_job]).
Proof.
  intros Hn Ht s.
  destruct (callers_inv_exec tr None _ _ callers_inv_init)
    as (winner & st & Hinv & Hadv); [cbn; lia|].
  fold s in Hinv. destruct Hinv as [Hth Hlen Hmedia Hclock Hdel Hcases].
  cbv zeta in Hcases.
  assert (Hback : ∀ i, (i < n)%nat → (4 ≤ turns i tr)%nat →
                       st !! i = Some Lost ∨ st !! i = Some Won).
  { intros i Hi Hturns.
    destruct (Hadv i Reading) as (sti & Hsti & Hle).
    { apply lookup_replicate. by split. }
    cbn [todo] in Hle. rewrite Hsti.
    destruct sti; cbn [todo] in Hle; try lia; by auto. }
  assert (Hthreads : ∀ i sti, st !! i = Some sti →
                       threads s !! i
                       = Some (prog_of_stage video_id (uuid4 env (issued w0)) sti)).
  { intros i sti Hi. by rewrite Hth, list_lookup_fmap, Hi. }
  destruct winner as [wi|].
  - destruct Hcases as (stw & Hw & Hwin & Hothers & Hentry & Hwins & Hjob).
    split; [by right|].
    split; [destruct (holds_job stw); [right|left]; apply Hjob|].
    split; [done|]. split.
    { intros i Hi Hturns.
      destruct (Hback i Hi Hturns) as [H|H]; rewrite (Hthreads _ _ H); by auto. }
    intros Hall. exists wi.
    assert (Hwn : (wi < n)%nat) by (rewrite <- Hlen; by eapply lookup_lt_Some).
    assert (Hstw : stw = Won).
    { destruct (Hback wi Hwn (complete_turns tr wi Hall Hwn)) as [H|H];
        rewrite Hw in H; injection H as ->; [done|done]. }
    subst stw. cbn [holds_job] in Hjob. destruct Hjob as [Hqueue Henq].
    split; [done|]. split; [by rewrite (Hthreads _ _ Hw)|].
    split; [|done].
    intros j Hj Hjn.
    destruct (Hback j Hjn (complete_turns tr j Hall Hjn)) as [H|H].
    + by rewrite (Hthreads _ _ H).
    + by specialize (Hothers j Won Hj H).
  - destruct Hcases as (Hall & Hlock & Hqueue & Hissued & Hwins & Henq).
    split; [by left|]. split; [by left|]. split; [done|].
    assert (Hnone : ∀ i, (i < n)%nat → (4 ≤ turns i tr)%nat → False).
    { intros i Hi Hturns.
      destruct (Hback i Hi Hturns) as [H|H];
        (eapply Forall_lookup_1 in Hall; [|exact H]); done. }
    split.
    { intros i Hi Hturns. by destruct (Hnone i Hi Hturns). }
    intros Hcomplete. exfalso.
    by apply (Hnone 0%nat Hn), complete_turns.
Qed.

End Callers.

(* ===================================================================== *)
(** * The theorems at work on the deployment of [Demo] *)
(* ===================================================================== *)

Lemma concurrent_callers_one_job_witness :
  (0 < 3)%nat ∧ elapsed Demo.schedule ≤ 600
  ∧ media_in Demo.fresh Demo.video_id = Returned None
  ∧ lock_held Demo.fresh Demo.video_id = false
  ∧ complete 3 Demo.schedule = true
  ∧ let s := exec Demo.env Demo.schedule
               (MkSystem (replicate 3 (ensure_cache_request Demo.video_id))
                  Demo.fresh []) in
    let job := Job (uuid4 Demo.env (issued Demo.fresh)) DownloadAvJob
                 Demo.video_id 3600 in
    ∃ i, (i < 3)%nat
         ∧ threads s !! i = Some (Ret (job_id job))
         ∧ (∀ j, j ≠ i → (j < 3)%nat →
                 threads s !! j = Some (Ret EmptyString))
         ∧ nx_wins (history s) = [_b (k_lock Demo.video_id)]
         ∧ enqueued (history s) = [job]
         ∧ queue (world s) = queue Demo.fresh ++ [job].
Proof.
  split; [lia|]. split; [vm_compute; discriminate|].
  split; [reflexivity|]. split; [reflexivity|]. split; [reflexivity|].
  refine (proj2 (proj2 (proj2 (proj2
            (concurrent_callers_one_job Demo.env Demo.video_id 3 Demo.fresh
               None _ _ _ Demo.schedule _ _)))) eq_refl);
    [reflexivity | reflexivity | reflexivity | lia | vm_compute; discriminate].
Defined.

(** C1 fails as stated, where the lock is the only limit: of two callers
    at once, the second held up for 601 seconds between its read and its
    conditional set, both win the lock and both submit a job, and nothing
    has released the lock in between. *)
Lemma second_job_after_lock_expiry :
  let s := exec Demo.env Demo.stalled
             (MkSystem (replicate 2 (ensure_cache_request Demo.video_id))
                Demo.fresh []) in
  media_in Demo.fresh Demo.video_id = Returned None
  ∧ lock_held Demo.fresh Demo.video_id = false
  ∧ threads s = [Ret "job-0"; Ret "job-1"]
  ∧ nx_wins (history s)
    = [_b (k_lock Demo.video_id); _b (k_lock Demo.video_id)]
  ∧ enqueued (history s)
    = [Job "job-0" DownloadAvJob Demo.video_id 3600;
       Job "job-1" DownloadAvJob Demo.video_id 3600]
  ∧ deleted_keys (history s) = []
  ∧ ¬ (enqueued (history s) = []
       ∨ ∃ j, enqueued (history s) = [j]).
Proof.
  repeat split; try reflexivity.
  intros [H|[j H]]; vm_compute in H; discriminate H.
Qed.

Lemma pick_newest_nonempty_spec_witness :
  Demo.shelf !! "/data/x.video.webm" = Some (Fs.File 9000000 100)
  ∧ Demo.shelf !! "/data/x.video.mp4" = Some (Fs.File 5000000 200)
  ∧ _pick_newest_nonempty Demo.shelf ["/data/x.video.webm"; "/data/x.video.mp4"]
    = Some "/data/x.video.mp4"
  ∧ _pick_newest_nonempty Demo.shelf ["/data/x.video.mp4"; "/data/x.video.webm"]
    = Some "/data/x.video.mp4".
Proof.
  split; [reflexivity|]. split; [reflexivity|].
  apply (proj2 (proj2 (pick_newest_nonempty_spec Demo.shelf []))
           "/data/x.video.webm" "/data/x.video.mp4" 9000000 5000000 100 200);
    [reflexivity | reflexivity | lia | lia | lia].
Defined.

Lemma download_av_job_video_failure_witness :
  Fs.makedirs (fs Demo.requested) (MEDIA_ROOT Demo.env_fail)
  = Some (fs Demo.requested)
  ∧ subprocess_run Demo.env_fail (video_args Demo.env_fail Demo.video_id) 1800
      (fs Demo.requested) (now Demo.requested)
    = (Completed 1 EmptyString
         (" ERROR: Video unavailable" +:+ String Py.ch_lf EmptyString),
       fs Demo.requested, 2)
  ∧ let '(r, w', ev) :=
      run Demo.env_fail (download_av_job Demo.env_fail Demo.video_id)
        Demo.requested in
    r = Raised (RuntimeError
                  ("yt-dlp video download failed (rc=" +:+ Py.str_of_int 1
                   +:+ "): "
                   +:+ str_strip Demo.env_fail
                         (" ERROR: Video unavailable"
                          +:+ String Py.ch_lf EmptyString)))
    ∧ tool_runs ev
      = [(video_args Demo.env_fail Demo.video_id, 1800,
          Completed 1 EmptyString
            (" ERROR: Video unavailable" +:+ String Py.ch_lf EmptyString))]
    ∧ set_keys ev = []
    ∧ redis w' = delete (_b (k_lock Demo.video_id)) (redis Demo.requested)
    ∧ redis w' !! _b (k_media Demo.video_id)
      = redis Demo.requested !! _b (k_media Demo.video_id)
    ∧ redis w' !! _b (k_lock Demo.video_id) = None
    ∧ (∃ n, last ev = Some (EvDelete (_b (k_lock Demo.video_id)) n))
    ∧ deleted_keys ev = [_b (k_lock Demo.video_id)].
Proof.
  split; [reflexivity|]. split; [reflexivity|].
  apply (download_av_job_video_failure Demo.env_fail Demo.video_id
           Demo.requested (fs Demo.requested) 1 EmptyString
           (" ERROR: Video unavailable" +:+ String Py.ch_lf EmptyString)
           (fs Demo.requested) 2);
    [reflexivity | reflexivity | lia].
Defined.

Lemma lock_expires_before_job_timeout_witness :
  media_in Demo.fresh Demo.video_id = Returned None
  ∧ media_ready None = false
  ∧ lock_held Demo.fresh Demo.video_id = false
  ∧ 600 < 601
  ∧ let '(r1, w1, ev1) :=
      run Demo.env (ensure_cache_request Demo.video_id) Demo.fresh in
    let '(r2, w2, ev2) :=
      run Demo.env (ensure_cache_request Demo.video_id) (advance 601 w1) in
    (∀ d', d' ≤ 600 → lock_held (advance d' w1) Demo.video_id = true)
    ∧ lock_held (advance 601 w1) Demo.video_id = false
    ∧ ∃ j1 j2,
        enqueued ev1 = [j1] ∧ enqueued ev2 = [j2]
        ∧ nx_sets ev1 = [(_b (k_lock Demo.video_id), Some 600, true)]
        ∧ nx_sets ev2 = [(_b (k_lock Demo.video_id), Some 600, true)]
        ∧ job_timeout j1 = 3600
        ∧ deleted_keys (ev1 ++ ev2) = []
        ∧ queue w2 = queue Demo.fresh ++ [j1; j2].
Proof.
  split; [reflexivity|]. split; [reflexivity|]. split; [reflexivity|].
  split; [lia|].
  apply (lock_expires_before_job_timeout Demo.env Demo.video_id Demo.fresh
           None 601);
    [reflexivity | reflexivity | reflexivity | lia].
Defined.

(** C5 fails as stated: the job submitted for the demo identifier is given
    3600 seconds, the two tool invocations of its run 1800 seconds each, and
    3600 is not above their sum. *)
Lemma job_timeout_not_above_tool_timeouts :
  ∃ j t_video t_audio,
    enqueued (run Demo.env (ensure_cache_request Demo.video_id) Demo.fresh).2
    = [j]
    ∧ (λ x, x.1.2)
        <$> tool_runs (run Demo.env (download_av_job Demo.env Demo.video_id)
                         Demo.requested).2
      = [t_video; t_audio]
    ∧ ¬ (t_video + t_audio < job_timeout j).
Proof.
  exists (Job "job-0" DownloadAvJob Demo.video_id 3600), 1800, 1800.
  split; [reflexivity|]. split; [reflexivity|]. cbn. lia.
Qed.

Lemma job_timeout_covers_tool_timeouts_witness :
  Job "job-0" DownloadAvJob Demo.video_id 3600
  ∈ enqueued (run Demo.env (ensure_cache_request Demo.video_id) Demo.fresh).2
  ∧ let timeouts :=
      (λ x, x.1.2)
        <$> tool_runs (run Demo.env (download_av_job Demo.env Demo.video_id)
                         Demo.requested).2 in
    job_timeout (Job "job-0" DownloadAvJob Demo.video_id 3600) = 1800 + 1800
    ∧ Forall (λ t, t = 1800) timeouts
    ∧ (length timeouts ≤ 2)%nat
    ∧ foldr Z.add 0 timeouts
      ≤ job_timeout (Job "job-0" DownloadAvJob Demo.video_id 3600).
Proof.
  assert (Hin : Job "job-0" DownloadAvJob Demo.video_id 3600
                ∈ enqueued (run Demo.env (ensure_cache_request Demo.video_id)
                              Demo.fresh).2)
    by (apply list_elem_of_singleton; reflexivity).
  split; [exact Hin|].
  exact (job_timeout_covers_tool_timeouts Demo.env Demo.video_id Demo.fresh
           Demo.requested _ Hin).
Defined.

Lemma ensure_cache_request_ready_noop_witness :
  media_in Demo.cached Demo.video_id = Returned (Some Demo.payload)
  ∧ media_ready (Some Demo.payload) = true
  ∧ let read := EvGet (_b (k_media Demo.video_id))
                  (Redis.get (now Demo.cached) (redis Demo.cached)
                     (_b (k_media Demo.video_id))) in
    run Demo.env (ensure_cache_request Demo.video_id) Demo.cached
    = (Returned EmptyString, Demo.cached, [read])
    ∧ run Demo.env
        (ensure_cache_request Demo.video_id;; ensure_cache_request Demo.video_id)
        Demo.cached
      = (Returned EmptyString, Demo.cached, [read; read]).
Proof.
  split; [reflexivity|]. split; [reflexivity|].
  apply (ensure_cache_request_ready_noop Demo.env Demo.video_id Demo.cached
           Demo.payload); reflexivity.
Defined.

Lemma wf_dict_payload : Py.wf_dict Demo.payload.
Proof. apply (bool_decide_unpack _). reflexivity. Defined.

Lemma store_media_get_media_roundtrip_witness :
  Py.wf_dict Demo.payload
  ∧ Json.ints_ok Demo.payload = true
  ∧ Json.has_lone Demo.payload = false
  ∧ (run Demo.env (store_media Demo.video_id Demo.payload)
       Demo.requested).1.1 = Returned tt
  ∧ (run Demo.env (get_media Demo.video_id)
       (advance 86400
          (run Demo.env (store_media Demo.video_id Demo.payload)
             Demo.requested).1.2)).1.1
    = Returned (Some Demo.payload).
Proof.
  split; [exact wf_dict_payload|].
  split; [reflexivity|]. split; [reflexivity|].
  exact (store_media_get_media_roundtrip Demo.env Demo.video_id Demo.payload
           Demo.requested 86400 wf_dict_payload).
Defined.

Lemma int_ok_limit : Py.int_ok (10 ^ 4300) = false.
Proof.
  unfold Py.int_ok, Py.int_max_str_digits.
  rewrite Z.abs_eq by (apply Z.pow_nonneg; lia). apply Z.ltb_irrefl.
Qed.

(** C7 fails as stated, for every record: a record whose video path is a
    file name that is not UTF-8, and a record whose timestamp has 4301
    digits, are records of string paths, a URL string and an integer
    timestamp, and [store_media] raises on both and stores nothing, so that
    [get_media] does not return them. *)
Lemma store_media_refuses_some_records :
  Py.wf_dict Cases.unencodable ∧ Py.wf_dict Cases.far_future
  ∧ Py.dict_get "video_path" Cases.unencodable = Py.VLone Cases.latin1_file
  ∧ run Demo.env (store_media Demo.video_id Cases.unencodable) Demo.fresh
    = (Raised UnicodeEncodeError, Demo.fresh, [])
  ∧ run Demo.env (store_media Demo.video_id Cases.far_future) Demo.fresh
    = (Raised ValueError, Demo.fresh, [])
  ∧ (run Demo.env (get_media Demo.video_id) Demo.fresh).1.1 = Returned None.
Proof.
  split; [apply (bool_decide_unpack _); reflexivity|].
  split; [apply (bool_decide_unpack _); reflexivity|].
  split; [reflexivity|]. split; [reflexivity|]. split; [|reflexivity].
  rewrite run_store_media. unfold Json.dumps, Json.ints_ok, Cases.far_future.
  cbn [forallb snd]. by rewrite int_ok_limit.
Qed.

Lemma download_av_job_makedirs_failure_witness :
  Fs.makedirs (fs Demo.misconfigured) (MEDIA_ROOT Demo.env) = None
  ∧ lock_held Demo.misconfigured Demo.video_id = true
  ∧ run Demo.env (download_av_job Demo.env Demo.video_id) Demo.misconfigured
    = (Raised OSError, Demo.misconfigured,
       [EvMakedirs (MEDIA_ROOT Demo.env) false])
  ∧ deleted_keys
      (run Demo.env (download_av_job Demo.env Demo.video_id)
         Demo.misconfigured).2 = []
  ∧ lock_held
      (run Demo.env (download_av_job Demo.env Demo.video_id)
         Demo.misconfigured).1.2 Demo.video_id
    = lock_held Demo.misconfigured Demo.video_id.
Proof.
  split; [reflexivity|]. split; [reflexivity|].
  apply (download_av_job_makedirs_failure Demo.env Demo.video_id
           Demo.misconfigured); reflexivity.
Defined.

(** C9 fails as stated: a job whose video invocation fails invokes the
    tool once, not twice, and the audio format expression has three
    alternatives, not four. *)
Lemma one_invocation_and_three_audio_alternatives :
  length (tool_runs (run Demo.env_fail
                       (download_av_job Demo.env_fail Demo.video_id)
                       Demo.requested).2) ≠ 2%nat
  ∧ length (Py.split_char "/" audio_format) ≠ 4%nat.
Proof. split; vm_compute; lia. Qed.

Lemma download_av_job_invocations_witness :
  Py.startswith "/" Demo.video_id = false
  ∧ tool_runs (run Demo.env (download_av_job Demo.env Demo.video_id)
                 Demo.requested).2
    = [(video_args Demo.env Demo.video_id, 1800,
        Completed 0 EmptyString EmptyString);
       (audio_args Demo.env Demo.video_id, 1800,
        Completed 0 EmptyString EmptyString)]
  ∧ video_tpl Demo.env Demo.video_id = "/data/abc12345678.video.%(ext)s"
  ∧ audio_tpl Demo.env Demo.video_id = "/data/abc12345678.audio.%(ext)s".
Proof.
  split; [reflexivity|]. split; [reflexivity|].
  exact (proj1 (proj2 (proj2 (proj2
           (download_av_job_invocations Demo.env Demo.video_id Demo.requested))))
           eq_refl).
Defined.

Lemma release_lock_deletes_acquired_key_witness :
  (_b (k_lock Demo.video_id), Some 600, true)
  ∈ nx_sets (run Demo.env (ensure_cache_request Demo.video_id) Demo.fresh).2
  ∧ deleted_keys (run Demo.env (release_lock Demo.video_id) Demo.cached).2
    = [_b (k_lock Demo.video_id)]
  ∧ redis (run Demo.env (release_lock Demo.video_id)
             (run Demo.env (ensure_cache_request Demo.video_id)
                Demo.fresh).1.2).1.2
    !! _b (k_lock Demo.video_id) = None.
Proof.
  assert (Hin : (_b (k_lock Demo.video_id), Some 600, true)
                ∈ nx_sets (run Demo.env (ensure_cache_request Demo.video_id)
                             Demo.fresh).2)
    by (apply list_elem_of_singleton; reflexivity).
  split; [exact Hin|].
  exact (proj2 (release_lock_deletes_acquired_key Demo.env Demo.video_id
                  Demo.fresh Demo.cached _ _ _ Hin)).
Defined.


(* ===================================================================== *)
(** * More of [app/jobs.py] *)
(* ===================================================================== *)

Lemma head_insert_desc {A : Type} (key : A → Z) (x : A) (l : list A) :
  head (insert_desc key x l)
  = match head l with
    | None => Some x
    | Some h => if key h <=? key x then Some x else Some h
    end.
Proof. destruct l as [|y l]; cbn; [done|]. by destruct (key y <=? key x). Qed.

(** The head of the sorted list is the first of the elements with the
    largest key. *)
Lemma head_sort_desc_first {A : Type} (key : A → Z) (l : list A) (p : A) :
  head (sort_desc key l) = Some p →
  first_where (λ q, key q < key p) p l.
Proof.
  revert p. induction l as [|x l IH]; intros p; [done|].
  cbn [sort_desc foldr]. rewrite head_insert_desc.
  fold (sort_desc key l).
  destruct (head (sort_desc key l)) as [h|] eqn:Hh.
  - destruct (key h <=? key x) eqn:Hle; intros [= <-].
    + by exists [], l.
    + apply Z.leb_gt in Hle.
      destruct (IH h eq_refl) as (l1 & l2 & -> & Hall).
      exists (x :: l1), l2. split; [done|]. by constructor.
  - intros [= <-]. by exists [], l.
Qed.

Lemma filter_split {A : Type} (f : A → bool) (l c1 c2 : list A) (p : A) :
  List.filter f l = c1 ++ p :: c2 →
  ∃ l1 l2, l = l1 ++ p :: l2 ∧ List.filter f l1 = c1.
Proof.
  revert c1. induction l as [|x l IH]; intros c1; cbn.
  - by destruct c1.
  - destruct (f x) eqn:Hx.
    + destruct c1 as [|y c1]; cbn.
      * intros [= -> Hl]. by exists [], l.
      * intros [= -> Hl]. destruct (IH c1 Hl) as (l1 & l2 & -> & Hf).
        exists (y :: l1), l2. cbn. by rewrite Hx, Hf.
    + intros Hl. destruct (IH c1 Hl) as (l1 & l2 & -> & Hf).
      exists (x :: l1), l2. cbn. by rewrite Hx.
Qed.

(** X1. Among candidates modified at the same latest time,
    [_pick_newest_nonempty] returns the one that comes first in the list:
    every usable candidate before the one returned is strictly older. *)
Theorem pick_newest_nonempty_first_among_latest (fs : gmap string Fs.node)
    (paths : list string) (p : string) :
  _pick_newest_nonempty fs paths = Some p →
  first_where (λ q, usable fs q = true → Fs.getmtime fs q < Fs.getmtime fs p)
    p paths.
Proof.
  unfold _pick_newest_nonempty. fold (usable fs).
  destruct (List.filter (usable fs) paths) as [|c cs] eqn:Hcs; [done|].
  intros Hhead. apply head_sort_desc_first in Hhead as (c1 & c2 & Hc & Hall).
  rewrite Hc in Hcs.
  destruct (filter_split _ _ _ _ _ Hcs) as (l1 & l2 & -> & Hl1).
  exists l1, l2. split; [done|].
  apply Forall_forall. intros q Hq Hu.
  eapply Forall_forall in Hall; [exact Hall|].
  rewrite <- Hl1. apply list_elem_of_In, filter_In.
  by rewrite <- list_elem_of_In.
Qed.

Lemma pick_newest_nonempty_usable (fs : gmap string Fs.node)
    (paths : list string) (p : string) :
  _pick_newest_nonempty fs paths = Some p →
  p ∈ paths ∧ usable fs p = true
  ∧ ∀ q, q ∈ paths → usable fs q = true → Fs.getmtime fs q ≤ Fs.getmtime fs p.
Proof.
  unfold _pick_newest_nonempty. fold (usable fs).
  destruct (List.filter (usable fs) paths) as [|c cs] eqn:Hcs; [done|].
  intros Hhead. apply head_sort_desc in Hhead as [Hin Hmax].
  rewrite <- Hcs in Hin, Hmax. apply elem_of_candidates in Hin as [??].
  repeat split; try done.
  intros q Hq Hu. apply Hmax. by apply elem_of_candidates.
Qed.

Section Job.
Variable env : Env.

#[local] Arguments video_args : simpl never.
#[local] Arguments audio_args : simpl never.
#[local] Arguments video_failed : simpl never.
#[local] Arguments audio_failed : simpl never.
#[local] Arguments _pick_newest_nonempty : simpl never.
#[local] Arguments Fs.path_join : simpl never.
#[local] Arguments Json.write : simpl never.
#[local] Arguments Json.dumps : simpl never.
#[local] Arguments Py.int_ok : simpl never.
#[local] Arguments Py.valid_utf8 : simpl never.
#[local] Arguments build_watch_url : simpl never.
#[local] Arguments download_av_body : simpl never.
#[local] Arguments try_finally : simpl never.
#[local] Arguments download_video : simpl never.
#[local] Arguments download_audio : simpl never.
#[local] Arguments resolve_and_publish : simpl never.

Lemma enqueued_invocation (kind : string) (args : list string)
    (r : proc_result) :
  enqueued (invocation_events env kind args r) = [].
Proof.
  destruct r as [rc out err|]; cbn; [|reflexivity].
  by destruct (decide (err = EmptyString)).
Qed.

(** What [json.dumps] makes of the record the job builds. *)
Lemma dumps_job_payload (video_id vp ap : string) (t : Z) :
  Json.dumps [ ("video_id", Py.VStr video_id);
               ("watch_url", Py.VStr (build_watch_url video_id));
               ("video_path", Py.fsdecode vp);
               ("audio_path", Py.fsdecode ap);
               ("updated_at", Py.VInt t) ]
  = if Py.int_ok t
    then if Py.valid_utf8 vp && Py.valid_utf8 ap
         then Some (Py.Text (Json.write (published_payload video_id vp ap t)))
         else Some (Py.Lone
                      (Json.write
                         [ ("video_id", Py.VStr video_id);
                           ("watch_url", Py.VStr (build_watch_url video_id));
                           ("video_path", Py.fsdecode vp);
                           ("audio_path", Py.fsdecode ap);
                           ("updated_at", Py.VInt t) ]))
    else None.
Proof.
  unfold Json.dumps, Json.ints_ok, Json.has_lone, Py.fsdecode,
    published_payload.
  destruct (Py.valid_utf8 vp), (Py.valid_utf8 ap); cbn [forallb existsb snd];
    by destruct (Py.int_ok t).
Qed.

(** The last section of the job: either both resolvers found a file whose
    name is UTF-8 and the record is stored, or nothing is written. *)
Lemma run_resolve_and_publish (video_id : string) (job : option string)
    (t0 : Z) (w : World) :
  let vps := glob_glob env (fs w) (video_glob env video_id) in
  let aps := glob_glob env (fs w) (audio_glob env video_id) in
  let globs := [EvGlob (video_glob env video_id) vps;
                EvGlob (audio_glob env video_id) aps] in
  let '(r, w', ev) := run env (resolve_and_publish env video_id job t0) w in
  (∃ vp ap,
     vp ≠ EmptyString ∧ ap ≠ EmptyString
     ∧ _pick_newest_nonempty (fs w) vps = Some vp
     ∧ _pick_newest_nonempty (fs w) aps = Some ap
     ∧ Py.valid_utf8 vp = true ∧ Py.valid_utf8 ap = true
     ∧ Py.int_ok (now w) = true
     ∧ r = Returned (job_result video_id job
                       (elapsed_millis env t0 (now w)) vp ap)
     ∧ w' = with_redis
              (<[_b (k_media video_id)
                 := Redis.Entry
                      (Json.write (published_payload video_id vp ap (now w)))
                      None]> (redis w)) w
     ∧ ev = globs
            ++ [EvSet (_b (k_media video_id))
                  (Json.write (published_payload video_id vp ap (now w)))
                  false None true])
  ∨ (∃ e, r = Raised e ∧ w' = w ∧ ev = globs
          ∧ let vp := _pick_newest_nonempty (fs w) vps in
            let ap := _pick_newest_nonempty (fs w) aps in
            if found vp && found ap
            then e = ValueError ∨ e = UnicodeEncodeError
            else e = RuntimeError
                       (if found vp
                        then "Audio download finished but output file is missing or empty"
                        else "Video download finished but output file is missing or empty")).
Proof.
  intros vps aps globs. subst vps aps globs.
  unfold resolve_and_publish, video_glob, audio_glob. cbn.
  destruct (_pick_newest_nonempty (fs w) (glob_glob env (fs w) _))
    as [[|c vp]|] eqn:Hv;
    [cbn; right; eexists; by repeat split| |
     cbn; right; eexists; by repeat split].
  destruct (_pick_newest_nonempty (fs w) (glob_glob env (fs w)
              (Fs.path_join (MEDIA_ROOT env) (video_id +:+ ".audio.*"))))
    as [[|c' ap]|] eqn:Ha;
    [cbn; right; eexists; by repeat split| |
     cbn; right; eexists; by repeat split].
  cbn [run handle].
  match goal with
  | |- context [run env (?p ≫= ?f) ?w'] =>
      change (run env (p ≫= f) w') with (run env (bind p f) w')
  end.
  rewrite run_bind, run_store_media, dumps_job_payload.
  destruct (Py.int_ok (now w)) eqn:Hint;
    [|cbn; right; eexists; repeat split; by left].
  destruct (Py.valid_utf8 (String c vp)) eqn:Hvv;
    [|cbn; right; eexists; repeat split; by right].
  destruct (Py.valid_utf8 (String c' ap)) eqn:Hva;
    [|cbn; right; eexists; repeat split; by right].
  left. exists (String c vp), (String c' ap). cbn.
  unfold Py.fsdecode. rewrite Hvv, Hva. by repeat split.
Qed.

Lemma wf_published_payload (video_id vp ap : string) (t : Z) :
  Py.wf_dict (published_payload video_id vp ap t).
Proof. apply (bool_decide_unpack _). reflexivity. Qed.

Lemma media_ready_published (video_id vp ap : string) (t : Z) :
  vp ≠ EmptyString → ap ≠ EmptyString →
  media_ready (Some (published_payload video_id vp ap t)) = true.
Proof.
  intros Hv Ha. destruct vp; [done|]. destruct ap; [done|]. reflexivity.
Qed.

(** What the [try] body leaves behind: it deletes and enqueues nothing,
    and it either returns, having stored the record of two usable files
    after two successful invocations, or raises, having written nothing. *)
Lemma download_av_body_summary (video_id : string) (job : option string)
    (t0 : Z) (w : World) :
  let '(r, w1, ev1) := run env (download_av_body env video_id job t0) w in
  deleted_keys ev1 = [] ∧ enqueued ev1 = []
  ∧ queue w1 = queue w ∧ issued w1 = issued w
  ∧ current_job w1 = current_job w ∧ now w ≤ now w1
  ∧ ((∃ vp ap rv ra,
        r = Returned (job_result video_id job
                        (elapsed_millis env t0 (now w1)) vp ap)
        ∧ set_keys ev1 = [_b (k_media video_id)]
        ∧ redis w1
          = <[_b (k_media video_id)
              := Redis.Entry
                   (Json.write (published_payload video_id vp ap (now w1)))
                   None]> (redis w)
        ∧ vp ≠ EmptyString ∧ ap ≠ EmptyString
        ∧ _pick_newest_nonempty (fs w1)
            (glob_glob env (fs w1) (video_glob env video_id)) = Some vp
        ∧ _pick_newest_nonempty (fs w1)
            (glob_glob env (fs w1) (audio_glob env video_id)) = Some ap
        ∧ Py.valid_utf8 vp = true ∧ Py.valid_utf8 ap = true
        ∧ Py.int_ok (now w1) = true
        ∧ tool_runs ev1 = [(video_args env video_id, 1800, rv);
                           (audio_args env video_id, 1800, ra)]
        ∧ succeeded rv = true ∧ succeeded ra = true)
     ∨ (∃ e, r = Raised e ∧ set_keys ev1 = [] ∧ redis w1 = redis w)).
Proof.
  rewrite run_download_av_body.
  destruct (subprocess_run _ _ _ _ _) as [[rv f1] d1]. cbv zeta.
  destruct (invocation_outcome _ rv) as [[]|e] eqn:Hv.
  2:{ rewrite deleted_keys_invocation, enqueued_invocation, set_keys_invocation.
      cbn. repeat split; try done; [lia|]. right. by eauto. }
  destruct (subprocess_run _ _ _ _ _) as [[ra f2] d2].
  destruct (invocation_outcome _ ra) as [[]|e] eqn:Ha.
  2:{ rewrite deleted_keys_app, enqueued_app, set_keys_app,
        !deleted_keys_invocation, !enqueued_invocation, !set_keys_invocation.
      cbn. repeat split; try done; [lia|]. right. by eauto. }
  pose proof (run_resolve_and_publish video_id job t0
                (advance d2 (with_fs f2 (advance d1 (with_fs f1 w))))) as Hres.
  cbv zeta in Hres.
  destruct (run env (resolve_and_publish _ _ _ _) _) as [[r w3] ev3].
  rewrite !deleted_keys_app, !enqueued_app, !set_keys_app, !tool_runs_app,
    !deleted_keys_invocation, !enqueued_invocation, !set_keys_invocation,
    !tool_runs_invocation.
  destruct Hres as [(vp & ap & Hvp & Hap & Hpv & Hpa & Hvv & Hva & Hint
                     & -> & -> & ->)
                   |(msg & -> & -> & -> & _)].
  - cbn. repeat split; try done; [lia|]. left.
    exists vp, ap, rv, ra. repeat split; try done.
    + by eapply invocation_outcome_returned.
    + by eapply invocation_outcome_returned.
  - cbn. repeat split; try done; [lia|]. right. by eauto.
Qed.

(** Every way [download_av_job] can go, seen from outside. *)
Lemma download_av_job_summary (video_id : string) (w : World) :
  let '(r, w', ev) := run env (download_av_job env video_id) w in
  enqueued ev = [] ∧ queue w' = queue w ∧ issued w' = issued w
  ∧ now w ≤ now w'
  ∧ ((Fs.makedirs (fs w) (MEDIA_ROOT env) = None
      ∧ r = Raised OSError ∧ w' = w ∧ set_keys ev = [] ∧ deleted_keys ev = [])
     ∨ (deleted_keys ev = [_b (k_lock video_id)]
        ∧ ((∃ vp ap,
              r = Returned (job_result video_id (current_job w)
                              (elapsed_millis env (now w) (now w')) vp ap)
              ∧ set_keys ev = [_b (k_media video_id)]
              ∧ redis w'
                = delete (_b (k_lock video_id))
                    (<[_b (k_media video_id)
                       := Redis.Entry
                            (Json.write
                               (published_payload video_id vp ap (now w')))
                            None]> (redis w))
              ∧ vp ≠ EmptyString ∧ ap ≠ EmptyString
              ∧ _pick_newest_nonempty (fs w')
                  (glob_glob env (fs w') (video_glob env video_id)) = Some vp
              ∧ _pick_newest_nonempty (fs w')
                  (glob_glob env (fs w') (audio_glob env video_id)) = Some ap
              ∧ Py.valid_utf8 vp = true ∧ Py.valid_utf8 ap = true
              ∧ Py.int_ok (now w') = true)
           ∨ (∃ e, r = Raised e ∧ set_keys ev = []
                   ∧ redis w' = delete (_b (k_lock video_id)) (redis w))))).
Proof.
  rewrite run_download_av_job.
  destruct (Fs.makedirs (fs w) (MEDIA_ROOT env)) as [root|] eqn:Hroot.
  2:{ repeat split; try done. left. by repeat split. }
  pose proof (download_av_body_summary video_id (current_job w) (now w)
                (with_fs root w)) as Hbody.
  destruct (run env (download_av_body _ _ _ _) _) as [[r w1] ev1].
  destruct Hbody as (Hdel & Henq & Hq & Hiss & Hcur & Hnow & Hcases).
  change (EvMakedirs ?p ?b :: ?l) with ([EvMakedirs p b] ++ l).
  rewrite !enqueued_app, !deleted_keys_app, !set_keys_app, Henq, Hdel.
  cbn [queue issued with_redis now app enqueued deleted_keys set_keys omap
       redis fs] in *.
  repeat split; try done. right. split; [done|].
  destruct Hcases as [(vp & ap & rv & ra & -> & Hset & Hredis & Hvp & Hap
                       & Hpv & Hpa & Hvv & Hva & Hint & _)
                     |(e & -> & Hset & Hredis)].
  - left. exists vp, ap. rewrite Hset, Hredis. by repeat split.
  - right. exists e. rewrite Hset, Hredis. by repeat split.
Qed.

(** X2. A job returns normally exactly when it stored the record of its
    identifier; a job that raises has set no key at all. *)
Theorem download_av_job_publishes_iff_returns (video_id : string) (w : World) :
  let '(r, w', ev) := run env (download_av_job env video_id) w in
  ((∃ res, r = Returned res) ↔ set_keys ev = [_b (k_media video_id)])
  ∧ ((∃ e, r = Raised e) ↔ set_keys ev = []).
Proof.
  pose proof (download_av_job_summary video_id w) as H.
  destruct (run env (download_av_job env video_id) w) as [[r w'] ev].
  destruct H as (_ & _ & _ & _ & [(_ & -> & _ & -> & _)|(_ & [H|H])]).
  - split; split; try done; [by intros [? ?] | by eauto].
  - destruct H as (vp & ap & -> & -> & _).
    split; split; try done; [by eauto | by intros [? ?]].
  - destruct H as (e & -> & -> & _).
    split; split; try done; [by intros [? ?] | by eauto].
Qed.

(** X3. A job touches no key but the record and the lock of its own
    identifier, and submits nothing to the queue. *)
Theorem download_av_job_footprint (video_id : string) (w : World) :
  let '(r, w', ev) := run env (download_av_job env video_id) w in
  (∀ k, k ≠ _b (k_media video_id) → k ≠ _b (k_lock video_id) →
        redis w' !! k = redis w !! k)
  ∧ (∀ other, other ≠ video_id →
        redis w' !! _b (k_media other) = redis w !! _b (k_media other)
        ∧ redis w' !! _b (k_lock other) = redis w !! _b (k_lock other))
  ∧ queue w' = queue w ∧ enqueued ev = [].
Proof.
  pose proof (download_av_job_summary video_id w) as H.
  destruct (run env (download_av_job env video_id) w) as [[r w'] ev].
  destruct H as (Henq & Hq & _ & _ & Hcases).
  assert (Hkeys : ∀ k, k ≠ _b (k_media video_id) → k ≠ _b (k_lock video_id) →
                       redis w' !! k = redis w !! k).
  { intros k Hm Hl.
    destruct Hcases as [(_ & _ & -> & _)|(_ & [H|H])]; [done| |].
    - destruct H as (vp & ap & _ & _ & -> & _).
      by rewrite lookup_delete_ne, lookup_insert_ne.
    - destruct H as (e & _ & _ & ->). by rewrite lookup_delete_ne. }
  split; [exact Hkeys|]. split; [|done].
  intros other Hother. split; apply Hkeys.
  - intros Heq. apply Hother. by apply (inj (String.append "yt:media:")).
  - done.
  - done.
  - intros Heq. apply Hother. by apply (inj (String.append "yt:lock:")).
Qed.

(** What a job that returned leaves in the store. *)
Lemma download_av_job_returned (video_id : string) (w : World) (res : Py.dict) :
  (run env (download_av_job env video_id) w).1.1 = Returned res →
  let w' := (run env (download_av_job env video_id) w).1.2 in
  ∃ vp ap,
    res = job_result video_id (current_job w)
            (elapsed_millis env (now w) (now w')) vp ap
    ∧ vp ≠ EmptyString ∧ ap ≠ EmptyString
    ∧ _pick_newest_nonempty (fs w')
        (glob_glob env (fs w') (video_glob env video_id)) = Some vp
    ∧ _pick_newest_nonempty (fs w')
        (glob_glob env (fs w') (audio_glob env video_id)) = Some ap
    ∧ Py.valid_utf8 vp = true ∧ Py.valid_utf8 ap = true
    ∧ Py.int_ok (now w') = true
    ∧ redis w' !! _b (k_media video_id)
      = Some (Redis.Entry
                (Json.write (published_payload video_id vp ap (now w'))) None)
    ∧ redis w' !! _b (k_lock video_id) = None.
Proof.
  pose proof (download_av_job_summary video_id w) as H.
  destruct (run env (download_av_job env video_id) w) as [[r w'] ev].
  cbn [fst snd]. intros ->.
  destruct H as (_ & _ & _ & _ & [(_ & ? & _)|(_ & [H|(e & ? & _)])]);
    [done| |done].
  destruct H as (vp & ap & [= ->] & _ & -> & Hvp & Hap & Hpv & Hpa & Hvv
                 & Hva & Hint).
  exists vp, ap. repeat split; try done.
  - rewrite lookup_delete_ne by (symmetry; apply k_media_ne_k_lock).
    apply lookup_insert_eq.
  - apply lookup_delete_eq.
Qed.

Lemma media_in_published (w : World) (video_id vp ap : string) (t : Z) :
  Py.int_ok t = true →
  redis w !! _b (k_media video_id)
  = Some (Redis.Entry (Json.write (published_payload video_id vp ap t)) None) →
  media_in w video_id = Returned (Some (published_payload video_id vp ap t)).
Proof.
  intros Hint Hentry. unfold media_in, Redis.get. rewrite Hentry. cbn.
  unfold media_of_raw. rewrite decide_False by apply dumps_nonempty.
  unfold Py.decode_utf8.
  rewrite loads_write; [done|apply wf_published_payload|].
  unfold published_payload. cbn [forallb snd Json.readable]. by rewrite Hint.
Qed.

(** X4. A job that returns has published a ready record whose two paths are
    existing non-empty files among those [glob.glob] listed, each the most
    recently modified of the non-empty files its pattern matches, whichever
    run wrote them, and each with a name that is UTF-8; it returns those same
    paths, with the milliseconds the float clock gives between its start and
    its end, and leaves no lock. *)
Theorem download_av_job_success (video_id : string) (w : World)
    (res : Py.dict) :
  (run env (download_av_job env video_id) w).1.1 = Returned res →
  let w' := (run env (download_av_job env video_id) w).1.2 in
  ∃ vp ap,
    res = job_result video_id (current_job w)
            (elapsed_millis env (now w) (now w')) vp ap
    ∧ Py.valid_utf8 vp = true ∧ Py.valid_utf8 ap = true
    ∧ vp ∈ glob_glob env (fs w') (video_glob env video_id)
    ∧ usable (fs w') vp = true
    ∧ (∀ q, q ∈ glob_glob env (fs w') (video_glob env video_id) →
            usable (fs w') q = true →
            Fs.getmtime (fs w') q ≤ Fs.getmtime (fs w') vp)
    ∧ ap ∈ glob_glob env (fs w') (audio_glob env video_id)
    ∧ usable (fs w') ap = true
    ∧ (∀ q, q ∈ glob_glob env (fs w') (audio_glob env video_id) →
            usable (fs w') q = true →
            Fs.getmtime (fs w') q ≤ Fs.getmtime (fs w') ap)
    ∧ media_in w' video_id
      = Returned (Some (published_payload video_id vp ap (now w')))
    ∧ media_ready (Some (published_payload video_id vp ap (now w'))) = true
    ∧ lock_held w' video_id = false.
Proof.
  intros Hres w'.
  destruct (download_av_job_returned video_id w res Hres)
    as (vp & ap & -> & Hvp & Hap & Hpv & Hpa & Hvv & Hva & Hint & Hmedia
        & Hlock).
  fold w' in Hpv, Hpa, Hmedia, Hlock, Hint |- *.
  apply pick_newest_nonempty_usable in Hpv as (? & ? & ?).
  apply pick_newest_nonempty_usable in Hpa as (? & ? & ?).
  exists vp, ap. repeat split; try done.
  - by apply media_in_published.
  - by apply media_ready_published.
  - unfold lock_held, Redis.get. rewrite Hlock.
    apply bool_decide_false. by intros [??].
Qed.

(** X5. After a job that returned, [ensure_cache_request] for the same
    identifier, at once or any time later, only reads the record and returns
    the empty handle: nothing is locked and nothing enqueued again. *)
Theorem ensure_cache_request_after_success (video_id : string) (w : World)
    (res : Py.dict) (later : Z) :
  (run env (download_av_job env video_id) w).1.1 = Returned res →
  let w' := advance later (run env (download_av_job env video_id) w).1.2 in
  ∃ raw,
    run env (ensure_cache_request video_id) w'
    = (Returned EmptyString, w', [EvGet (_b (k_media video_id)) (Some raw)]).
Proof.
  intros Hres w'.
  destruct (download_av_job_returned video_id w res Hres)
    as (vp & ap & _ & Hvp & Hap & _ & _ & _ & _ & Hint & Hmedia & _).
  rewrite run_ensure_cache_request. cbv zeta.
  rewrite (media_in_published w' video_id vp ap _ Hint Hmedia).
  rewrite media_ready_published by done.
  eexists. do 3 f_equal. unfold Redis.get. subst w'. cbn [redis advance].
  by rewrite Hmedia.
Qed.

(** What a job that raised inside its [try] block leaves in the store. *)
Lemma download_av_job_raised (video_id : string) (w : World)
    (root : gmap string Fs.node) (e : exn) :
  Fs.makedirs (fs w) (MEDIA_ROOT env) = Some root →
  (run env (download_av_job env video_id) w).1.1 = Raised e →
  let '(r, w', ev) := run env (download_av_job env video_id) w in
  set_keys ev = [] ∧ deleted_keys ev = [_b (k_lock video_id)]
  ∧ redis w' = delete (_b (k_lock video_id)) (redis w)
  ∧ queue w' = queue w ∧ issued w' = issued w ∧ now w ≤ now w'.
Proof.
  intros Hroot. pose proof (download_av_job_summary video_id w) as H.
  destruct (run env (download_av_job env video_id) w) as [[r w'] ev].
  cbn [fst snd]. intros ->.
  destruct H as (_ & Hq & Hiss & Hnow & [(Hnone & _)|(Hdel & [H|H])]).
  - congruence.
  - by destruct H as (vp & ap & ? & _).
  - by destruct H as (e' & _ & -> & ->).
Qed.

(** How the job ends, by what its two invocations and its two resolvers
    came back with. *)
Lemma download_av_job_outcome (video_id : string) (w : World)
    (root : gmap string Fs.node) :
  Fs.makedirs (fs w) (MEDIA_ROOT env) = Some root →
  let '(rv, f1, d1) :=
    subprocess_run env (video_args env video_id) 1800 root (now w) in
  let '(ra, f2, d2) :=
    subprocess_run env (audio_args env video_id) 1800 f1 (now w + Z.max 0 d1) in
  let vp := _pick_newest_nonempty f2 (glob_glob env f2 (video_glob env video_id)) in
  let ap := _pick_newest_nonempty f2 (glob_glob env f2 (audio_glob env video_id)) in
  let '(r, w', ev) := run env (download_av_job env video_id) w in
  match invocation_outcome (video_failed env) rv with
  | Raised e =>
      r = Raised e ∧ tool_runs ev = [(video_args env video_id, 1800, rv)]
  | Returned _ =>
      tool_runs ev = [(video_args env video_id, 1800, rv);
                      (audio_args env video_id, 1800, ra)]
      ∧ match invocation_outcome (audio_failed env) ra with
        | Raised e => r = Raised e
        | Returned _ =>
            if found vp
            then if found ap
                 then (∃ res, r = Returned res)
                      ∨ r = Raised ValueError ∨ r = Raised UnicodeEncodeError
                 else r = Raised (RuntimeError
                        "Audio download finished but output file is missing or empty")
            else r = Raised (RuntimeError
                   "Video download finished but output file is missing or empty")
        end
  end.
Proof.
  intros Hroot. rewrite run_download_av_job, Hroot, run_download_av_body.
  cbn [fs now with_fs].
  destruct (subprocess_run env (video_args env video_id) _ _ _)
    as [[rv f1] d1].
  cbn [fs now with_fs advance].
  destruct (subprocess_run env (audio_args env video_id) _ _ _)
    as [[ra f2] d2].
  cbv zeta.
  change (EvMakedirs ?p ?b :: ?l) with ([EvMakedirs p b] ++ l).
  destruct (invocation_outcome (video_failed env) rv) as [[]|e].
  2:{ rewrite !tool_runs_app, tool_runs_invocation. by split. }
  destruct (invocation_outcome (audio_failed env) ra) as [[]|e].
  2:{ rewrite !tool_runs_app, !tool_runs_invocation. by split. }
  pose proof (run_resolve_and_publish video_id (current_job w) (now w)
                (advance d2 (with_fs f2 (advance d1 (with_fs f1 (with_fs root w))))))
    as Hres.
  pose proof (resolve_and_publish_events env video_id (current_job w) (now w)
                (advance d2 (with_fs f2 (advance d1 (with_fs f1 (with_fs root w))))))
    as [Htr _].
  cbv zeta in Hres. cbn [fs advance with_fs] in Hres.
  destruct (run env (resolve_and_publish _ _ _ _) _) as [[r3 w3] ev3].
  cbn [snd] in Htr.
  rewrite !tool_runs_app, !tool_runs_invocation, Htr.
  split; [reflexivity|].
  destruct Hres as [(vp & ap & Hvp & Hap & -> & -> & _ & _ & _ & -> & _)
                   |(e & -> & _ & _ & He)].
  - destruct vp; [done|]. destruct ap; [done|]. cbn. left. by eauto.
  - destruct (found (_pick_newest_nonempty f2
                       (glob_glob env f2 (video_glob env video_id))));
      destruct (found (_pick_newest_nonempty f2
                         (glob_glob env f2 (audio_glob env video_id))));
      cbn in He |- *; try (destruct He as [-> | ->]); try subst e; by auto.
Qed.

Lemma invocation_outcome_succeeded (failed : Z → string → string)
    (r : proc_result) :
  succeeded r = true → invocation_outcome failed r = Returned tt.
Proof. destruct r as [rc out err|]; cbn; [|done]. by intros ->. Qed.

(** X6. A job whose audio invocation returns a non-zero exit status, after a
    successful video invocation, fails with a [RuntimeError] that carries
    the tool's stderr, sets no key and deletes the lock. *)
Theorem download_av_job_audio_failure (video_id : string) (w : World)
    (root : gmap string Fs.node) (out_v err_v : string)
    (f1 : gmap string Fs.node) (d1 : Z) (rc : Z) (out err : string)
    (f2 : gmap string Fs.node) (d2 : Z) :
  Fs.makedirs (fs w) (MEDIA_ROOT env) = Some root →
  subprocess_run env (video_args env video_id) 1800 root (now w)
  = (Completed 0 out_v err_v, f1, d1) →
  subprocess_run env (audio_args env video_id) 1800 f1 (now w + Z.max 0 d1)
  = (Completed rc out err, f2, d2) →
  rc ≠ 0 →
  let '(r, w', ev) := run env (download_av_job env video_id) w in
  r = Raised (RuntimeError
                ("yt-dlp audio download failed (rc=" +:+ Py.str_of_int rc
                 +:+ "): " +:+ str_strip env err))
  ∧ tool_runs ev
    = [(video_args env video_id, 1800, Completed 0 out_v err_v);
       (audio_args env video_id, 1800, Completed rc out err)]
  ∧ set_keys ev = []
  ∧ deleted_keys ev = [_b (k_lock video_id)]
  ∧ redis w' = delete (_b (k_lock video_id)) (redis w).
Proof.
  intros Hroot Hv Ha Hrc.
  pose proof (download_av_job_outcome video_id w root Hroot) as Hout.
  pose proof (download_av_job_raised video_id w root) as Hraised.
  rewrite Hv, Ha in Hout. cbv zeta in Hout.
  destruct (run env (download_av_job env video_id) w) as [[r w'] ev].
  cbn [invocation_outcome] in Hout.
  rewrite Z.eqb_refl, (proj2 (Z.eqb_neq rc 0) Hrc) in Hout.
  destruct Hout as [Hruns ->].
  destruct (Hraised _ Hroot eq_refl) as (? & ? & ? & _). by repeat split.
Qed.

(** X7. A job one of whose invocations does not finish within its timeout
    raises [TimeoutExpired], sets no key and deletes the lock. *)
Theorem download_av_job_tool_timeout (video_id : string) (w : World)
    (root : gmap string Fs.node) (rv : proc_result)
    (f1 : gmap string Fs.node) (d1 : Z) :
  Fs.makedirs (fs w) (MEDIA_ROOT env) = Some root →
  subprocess_run env (video_args env video_id) 1800 root (now w)
  = (rv, f1, d1) →
  rv = ProcTimeout
  ∨ (succeeded rv = true
     ∧ (subprocess_run env (audio_args env video_id) 1800 f1
          (now w + Z.max 0 d1)).1.1 = ProcTimeout) →
  let '(r, w', ev) := run env (download_av_job env video_id) w in
  r = Raised TimeoutExpired
  ∧ set_keys ev = []
  ∧ deleted_keys ev = [_b (k_lock video_id)]
  ∧ redis w' = delete (_b (k_lock video_id)) (redis w).
Proof.
  intros Hroot Hv Hcase.
  pose proof (download_av_job_outcome video_id w root Hroot) as Hout.
  pose proof (download_av_job_raised video_id w root) as Hraised.
  rewrite Hv in Hout.
  destruct (subprocess_run env (audio_args env video_id) _ _ _)
    as [[ra f2] d2].
  cbv zeta in Hout.
  destruct (run env (download_av_job env video_id) w) as [[r w'] ev].
  assert (Hr : r = Raised TimeoutExpired).
  { destruct Hcase as [->|[Hsucc Hra]].
    - by destruct Hout as [-> _].
    - rewrite (invocation_outcome_succeeded _ _ Hsucc) in Hout.
      cbn in Hra. subst ra. by destruct Hout as [_ ->]. }
  subst r. destruct (Hraised _ Hroot eq_refl) as (? & ? & ? & _).
  by repeat split.
Qed.

(** X8. A job whose two invocations succeeded but one of whose resolvers
    found no existing non-empty file fails with a [RuntimeError] that names
    the missing stream (the video one first), sets no key and deletes the
    lock. *)
Theorem download_av_job_missing_output (video_id : string) (w : World)
    (root : gmap string Fs.node) (rv ra : proc_result)
    (f1 f2 : gmap string Fs.node) (d1 d2 : Z) :
  Fs.makedirs (fs w) (MEDIA_ROOT env) = Some root →
  subprocess_run env (video_args env video_id) 1800 root (now w)
  = (rv, f1, d1) →
  subprocess_run env (audio_args env video_id) 1800 f1 (now w + Z.max 0 d1)
  = (ra, f2, d2) →
  succeeded rv = true → succeeded ra = true →
  let vp := _pick_newest_nonempty f2
              (glob_glob env f2 (video_glob env video_id)) in
  let ap := _pick_newest_nonempty f2
              (glob_glob env f2 (audio_glob env video_id)) in
  found vp && found ap = false →
  let '(r, w', ev) := run env (download_av_job env video_id) w in
  r = Raised (RuntimeError
                (if found vp
                 then "Audio download finished but output file is missing or empty"
                 else "Video download finished but output file is missing or empty"))
  ∧ set_keys ev = []
  ∧ deleted_keys ev = [_b (k_lock video_id)]
  ∧ redis w' = delete (_b (k_lock video_id)) (redis w).
Proof.
  intros Hroot Hv Ha Hsv Hsa vp ap Hfound.
  pose proof (download_av_job_outcome video_id w root Hroot) as Hout.
  pose proof (download_av_job_raised video_id w root) as Hraised.
  rewrite Hv, Ha in Hout. cbv zeta in Hout. fold vp ap in Hout.
  destruct (run env (download_av_job env video_id) w) as [[r w'] ev].
  rewrite !invocation_outcome_succeeded in Hout by done.
  destruct Hout as [_ Hr].
  assert (Hr' : r = Raised (RuntimeError
                  (if found vp
                   then "Audio download finished but output file is missing or empty"
                   else "Video download finished but output file is missing or empty"))).
  { destruct (found vp); [|done]. destruct (found ap); [done|done]. }
  clear Hr. subst r. destruct (Hraised _ Hroot eq_refl) as (? & ? & ? & _).
  by repeat split.
Qed.

(** X9. After a job that failed inside its [try] block the lock is free
    again: the next [ensure_cache_request] for an identifier whose record
    is still not ready wins the lock and submits a fresh job. *)
Theorem ensure_cache_request_after_failed_job (video_id : string) (w : World)
    (root : gmap string Fs.node) (e : exn) (m : option Py.dict) :
  Fs.makedirs (fs w) (MEDIA_ROOT env) = Some root →
  (run env (download_av_job env video_id) w).1.1 = Raised e →
  media_in w video_id = Returned m → media_ready m = false →
  let w' := (run env (download_av_job env video_id) w).1.2 in
  let '(r, w'', ev) := run env (ensure_cache_request video_id) w' in
  r = Returned (uuid4 env (issued w))
  ∧ enqueued ev = [Job (uuid4 env (issued w)) DownloadAvJob video_id 3600]
  ∧ queue w'' = queue w
                ++ [Job (uuid4 env (issued w)) DownloadAvJob video_id 3600]
  ∧ lock_held w'' video_id = true.
Proof.
  intros Hroot Hraise Hm Hready w'.
  pose proof (download_av_job_raised video_id w root e Hroot Hraise) as H.
  subst w'. destruct (run env (download_av_job env video_id) w) as [[r w'] ev].
  cbn [fst snd] in *. destruct H as (_ & _ & Hredis & Hq & Hiss & Hnow).
  destruct (media_not_ready_later video_id w w' m Hm Hready) as (m' & Hm' & Hr');
    [|done|].
  { rewrite Hredis. by rewrite lookup_delete_ne
      by (symmetry; apply k_media_ne_k_lock). }
  assert (Hfree : lock_held w' video_id = false).
  { unfold lock_held, Redis.get. rewrite Hredis, lookup_delete_eq.
    apply bool_decide_false. by intros [??]. }
  rewrite run_ensure_cache_request. cbv zeta. rewrite Hm', Hr', Hfree, Hiss.
  repeat split; try done.
  - cbn. by rewrite Hq, Hiss.
  - unfold lock_held, Redis.get. cbn [redis now after_enqueue with_redis submit].
    rewrite lookup_insert_ne by apply k_last_job_ne_k_lock.
    rewrite lookup_insert_eq. unfold Redis.live. cbn.
    rewrite (proj2 (Z.leb_le _ _)) by lia. done.
Qed.

End Job.

Lemma pick_newest_nonempty_first_among_latest_witness :
  _pick_newest_nonempty Cases.twins
    ["/data/x.video.part"; "/data/x.video.webm"; "/data/x.video.mp4"]
  = Some "/data/x.video.webm"
  ∧ first_where
      (λ q, usable Cases.twins q = true →
            Fs.getmtime Cases.twins q
            < Fs.getmtime Cases.twins "/data/x.video.webm")
      "/data/x.video.webm"
      ["/data/x.video.part"; "/data/x.video.webm"; "/data/x.video.mp4"].
Proof.
  split; [reflexivity|].
  apply (pick_newest_nonempty_first_among_latest Cases.twins
           ["/data/x.video.part"; "/data/x.video.webm"; "/data/x.video.mp4"]
           "/data/x.video.webm").
  reflexivity.
Defined.

Lemma download_av_job_publishes_iff_returns_witness :
  let '(r, w', ev) :=
    run Demo.env (download_av_job Demo.env Demo.video_id) Demo.requested in
  ((∃ res, r = Returned res) ↔ set_keys ev = [_b (k_media Demo.video_id)])
  ∧ ((∃ e, r = Raised e) ↔ set_keys ev = []).
Proof.
  exact (download_av_job_publishes_iff_returns Demo.env Demo.video_id
           Demo.requested).
Defined.

Lemma download_av_job_footprint_witness :
  let '(r, w', ev) :=
    run Demo.env (download_av_job Demo.env Demo.video_id) Demo.requested in
  (∀ k, k ≠ _b (k_media Demo.video_id) → k ≠ _b (k_lock Demo.video_id) →
        redis w' !! k = redis Demo.requested !! k)
  ∧ (∀ other, other ≠ Demo.video_id →
        redis w' !! _b (k_media other)
        = redis Demo.requested !! _b (k_media other)
        ∧ redis w' !! _b (k_lock other)
          = redis Demo.requested !! _b (k_lock other))
  ∧ queue w' = queue Demo.requested ∧ enqueued ev = [].
Proof.
  exact (download_av_job_footprint Demo.env Demo.video_id Demo.requested).
Defined.

Lemma download_av_job_success_witness :
  (run Demo.env (download_av_job Demo.env Demo.video_id) Demo.requested).1.1
  = Returned (job_result Demo.video_id None 60199
                Demo.video_file Demo.audio_file)
  ∧ let w' :=
      (run Demo.env (download_av_job Demo.env Demo.video_id)
         Demo.requested).1.2 in
    ∃ vp ap,
      job_result Demo.video_id None 60199 Demo.video_file Demo.audio_file
      = job_result Demo.video_id (current_job Demo.requested)
          (elapsed_millis Demo.env (now Demo.requested) (now w')) vp ap
      ∧ Py.valid_utf8 vp = true ∧ Py.valid_utf8 ap = true
      ∧ vp ∈ glob_glob Demo.env (fs w') (video_glob Demo.env Demo.video_id)
      ∧ usable (fs w') vp = true
      ∧ (∀ q, q ∈ glob_glob Demo.env (fs w')
                    (video_glob Demo.env Demo.video_id) →
              usable (fs w') q = true →
              Fs.getmtime (fs w') q ≤ Fs.getmtime (fs w') vp)
      ∧ ap ∈ glob_glob Demo.env (fs w') (audio_glob Demo.env Demo.video_id)
      ∧ usable (fs w') ap = true
      ∧ (∀ q, q ∈ glob_glob Demo.env (fs w')
                    (audio_glob Demo.env Demo.video_id) →
              usable (fs w') q = true →
              Fs.getmtime (fs w') q ≤ Fs.getmtime (fs w') ap)
      ∧ media_in w' Demo.video_id
        = Returned (Some (published_payload Demo.video_id vp ap (now w')))
      ∧ media_ready (Some (published_payload Demo.video_id vp ap (now w')))
        = true
      ∧ lock_held w' Demo.video_id = false.
Proof.
  split; [reflexivity|].
  apply (download_av_job_success Demo.env Demo.video_id Demo.requested
           (job_result Demo.video_id None 60199
              Demo.video_file Demo.audio_file)).
  reflexivity.
Defined.

Lemma ensure_cache_request_after_success_witness :
  (run Demo.env (download_av_job Demo.env Demo.video_id) Demo.requested).1.1
  = Returned (job_result Demo.video_id None 60199
                Demo.video_file Demo.audio_file)
  ∧ let w' :=
      advance 86400
        (run Demo.env (download_av_job Demo.env Demo.video_id)
           Demo.requested).1.2 in
    ∃ raw,
      run Demo.env (ensure_cache_request Demo.video_id) w'
      = (Returned EmptyString, w',
         [EvGet (_b (k_media Demo.video_id)) (Some raw)]).
Proof.
  split; [reflexivity|].
  apply (ensure_cache_request_after_success Demo.env Demo.video_id
           Demo.requested
           (job_result Demo.video_id None 60199
              Demo.video_file Demo.audio_file) 86400).
  reflexivity.
Defined.

Lemma download_av_job_audio_failure_witness :
  Fs.makedirs (fs Demo.requested) (MEDIA_ROOT Cases.env_audio_fail)
  = Some (fs Demo.requested)
  ∧ subprocess_run Cases.env_audio_fail
      (video_args Cases.env_audio_fail Demo.video_id) 1800
      (fs Demo.requested) (now Demo.requested)
    = (Completed 0 EmptyString EmptyString,
       <[Demo.video_file := Fs.File 5000000 (now Demo.requested + 30)]>
         (fs Demo.requested), 30)
  ∧ subprocess_run Cases.env_audio_fail
      (audio_args Cases.env_audio_fail Demo.video_id) 1800
      (<[Demo.video_file := Fs.File 5000000 (now Demo.requested + 30)]>
         (fs Demo.requested))
      (now Demo.requested + Z.max 0 30)
    = (Completed 2 EmptyString "ERROR: no audio",
       <[Demo.video_file := Fs.File 5000000 (now Demo.requested + 30)]>
         (fs Demo.requested), 3)
  ∧ let '(r, w', ev) :=
      run Cases.env_audio_fail
        (download_av_job Cases.env_audio_fail Demo.video_id)
        Demo.requested in
    r = Raised (RuntimeError
                  ("yt-dlp audio download failed (rc=" +:+ Py.str_of_int 2
                   +:+ "): "
                   +:+ str_strip Cases.env_audio_fail "ERROR: no audio"))
    ∧ tool_runs ev
      = [(video_args Cases.env_audio_fail Demo.video_id, 1800,
          Completed 0 EmptyString EmptyString);
         (audio_args Cases.env_audio_fail Demo.video_id, 1800,
          Completed 2 EmptyString "ERROR: no audio")]
    ∧ set_keys ev = []
    ∧ deleted_keys ev = [_b (k_lock Demo.video_id)]
    ∧ redis w' = delete (_b (k_lock Demo.video_id)) (redis Demo.requested).
Proof.
  split; [reflexivity|]. split; [reflexivity|]. split; [reflexivity|].
  apply (download_av_job_audio_failure Cases.env_audio_fail Demo.video_id
           Demo.requested (fs Demo.requested) EmptyString EmptyString
           (<[Demo.video_file := Fs.File 5000000 (now Demo.requested + 30)]>
              (fs Demo.requested)) 30
           2 EmptyString "ERROR: no audio"
           (<[Demo.video_file := Fs.File 5000000 (now Demo.requested + 30)]>
              (fs Demo.requested)) 3);
    [reflexivity | reflexivity | reflexivity | lia].
Defined.

Lemma download_av_job_tool_timeout_witness :
  Fs.makedirs (fs Demo.requested) (MEDIA_ROOT Cases.env_hang)
  = Some (fs Demo.requested)
  ∧ subprocess_run Cases.env_hang (video_args Cases.env_hang Demo.video_id)
      1800 (fs Demo.requested) (now Demo.requested)
    = (ProcTimeout, fs Demo.requested, 1800)
  ∧ let '(r, w', ev) :=
      run Cases.env_hang (download_av_job Cases.env_hang Demo.video_id)
        Demo.requested in
    r = Raised TimeoutExpired
    ∧ set_keys ev = []
    ∧ deleted_keys ev = [_b (k_lock Demo.video_id)]
    ∧ redis w' = delete (_b (k_lock Demo.video_id)) (redis Demo.requested).
Proof.
  split; [reflexivity|]. split; [reflexivity|].
  apply (download_av_job_tool_timeout Cases.env_hang Demo.video_id
           Demo.requested (fs Demo.requested) ProcTimeout
           (fs Demo.requested) 1800);
    [reflexivity | reflexivity | left; reflexivity].
Defined.

Lemma download_av_job_missing_output_witness :
  Fs.makedirs (fs Demo.requested) (MEDIA_ROOT Cases.env_silent)
  = Some (fs Demo.requested)
  ∧ found (_pick_newest_nonempty (fs Demo.requested)
             (glob_glob Cases.env_silent (fs Demo.requested)
                (video_glob Cases.env_silent Demo.video_id))) = false
  ∧ let '(r, w', ev) :=
      run Cases.env_silent (download_av_job Cases.env_silent Demo.video_id)
        Demo.requested in
    r = Raised (RuntimeError
                  "Video download finished but output file is missing or empty")
    ∧ set_keys ev = []
    ∧ deleted_keys ev = [_b (k_lock Demo.video_id)]
    ∧ redis w' = delete (_b (k_lock Demo.video_id)) (redis Demo.requested).
Proof.
  split; [reflexivity|]. split; [reflexivity|].
  apply (download_av_job_missing_output Cases.env_silent Demo.video_id
           Demo.requested (fs Demo.requested)
           (Completed 0 EmptyString EmptyString)
           (Completed 0 EmptyString EmptyString)
           (fs Demo.requested) (fs Demo.requested) 1 1);
    reflexivity.
Defined.

Lemma ensure_cache_request_after_failed_job_witness :
  Fs.makedirs (fs Demo.requested) (MEDIA_ROOT Demo.env_fail)
  = Some (fs Demo.requested)
  ∧ (∃ e, (run Demo.env_fail (download_av_job Demo.env_fail Demo.video_id)
             Demo.requested).1.1 = Raised e)
  ∧ media_in Demo.requested Demo.video_id = Returned None
  ∧ let w' :=
      (run Demo.env_fail (download_av_job Demo.env_fail Demo.video_id)
         Demo.requested).1.2 in
    let '(r, w'', ev) :=
      run Demo.env_fail (ensure_cache_request Demo.video_id) w' in
    r = Returned "job-1"
    ∧ enqueued ev = [Job "job-1" DownloadAvJob Demo.video_id 3600]
    ∧ queue w'' = [Job "job-0" DownloadAvJob Demo.video_id 3600;
                   Job "job-1" DownloadAvJob Demo.video_id 3600]
    ∧ lock_held w'' Demo.video_id = true.
Proof.
  split; [reflexivity|]. split; [eexists; reflexivity|].
  split; [reflexivity|].
  apply (ensure_cache_request_after_failed_job Demo.env_fail Demo.video_id
           Demo.requested (fs Demo.requested)
           (RuntimeError
              ("yt-dlp video download failed (rc=" +:+ Py.str_of_int 1
               +:+ "): "
               +:+ str_strip Demo.env_fail
                     (" ERROR: Video unavailable"
                      +:+ String Py.ch_lf EmptyString)))
           None);
    reflexivity.
Defined.


(* ===================================================================== *)
(** * [app/ytdlp_utils.py]: identifiers *)
(* ===================================================================== *)

Lemma id_chars_spec (n : nat) (s g rest : string) :
  id_chars n s = Some (g, rest) →
  s = g +:+ rest ∧ id_chars n g = Some (g, EmptyString)
  ∧ String.length g = n.
Proof.
  revert s g rest. induction n as [|n IH]; intros s g rest; cbn.
  - by intros [= <- <-].
  - destruct s as [|c s]; [done|].
    destruct (id_char c) eqn:Hc; [|done].
    destruct (id_chars n s) as [[g' rest']|] eqn:Hs; [|done].
    intros [= <- <-]. destruct (IH _ _ _ Hs) as (-> & Hg & Hlen).
    cbn. rewrite Hc, Hg, Hlen. by rewrite append_cons.
Qed.

Lemma id_chars_is_video_id (s g rest : string) :
  id_chars 11 s = Some (g, rest) → is_video_id g = true.
Proof.
  intros H. apply id_chars_spec in H as (_ & Hg & _).
  unfold is_video_id. by rewrite Hg.
Qed.

Lemma is_video_id_spec (v : string) :
  is_video_id v = true ↔ id_chars 11 v = Some (v, EmptyString).
Proof.
  unfold is_video_id. split.
  - destruct (id_chars 11 v) as [[g rest]|] eqn:H; [|done].
    destruct rest; [|done]. intros _.
    apply id_chars_spec in H as (Hv & _). rewrite Hv.
    by rewrite append_nil_r.
  - by intros ->.
Qed.

Lemma id_chars_app (n : nat) (g rest : string) :
  id_chars n g = Some (g, EmptyString) →
  id_chars n (g +:+ rest) = Some (g, rest).
Proof.
  revert g. induction n as [|n IH]; intros g; cbn.
  - by intros [= <- _].
  - destruct g as [|c g]; [done|]. rewrite append_cons.
    destruct (id_char c); [|done].
    destruct (id_chars n g) as [[g' r']|] eqn:Hg; [|done].
    intros [= -> ->]. cbn. by rewrite (IH _ Hg).
Qed.

Lemma match_at_is_video_id (lits : list string) (s g : string) :
  match_at lits s = Some g → is_video_id g = true.
Proof.
  unfold match_at. induction lits as [|lit lits IH]; cbn [foldr]; [done|].
  destruct (Py.startswith lit s); [|exact IH].
  destruct (id_chars 11 (Py.str_drop (String.length lit) s))
    as [[g' rest]|] eqn:H; [|exact IH].
  intros [= <-]. by eapply id_chars_is_video_id.
Qed.

Lemma re_search_is_video_id (lits : list string) (s g : string) :
  re_search lits s = Some g → is_video_id g = true.
Proof.
  induction s as [|c s IH]; cbn [re_search].
  - destruct (match_at lits EmptyString) eqn:H; [|done].
    intros [= <-]. by eapply match_at_is_video_id.
  - destruct (match_at lits (String c s)) eqn:H; [|exact IH].
    intros [= <-]. by eapply match_at_is_video_id.
Qed.

Lemma YT_ID_RE_match_is_video_id (s : string) :
  Py.endswith_char Py.ch_lf s = false →
  _YT_ID_RE_match s = true → is_video_id s = true.
Proof.
  unfold _YT_ID_RE_match, is_video_id. intros Hlf.
  destruct (id_chars 11 s) as [[g rest]|] eqn:H; [|done].
  intros Hm. apply orb_true_iff in Hm as [Hm|Hm];
    apply bool_decide_eq_true in Hm; subst rest; [done|].
  apply id_chars_spec in H as (-> & _ & _). exfalso.
  clear -Hlf. induction g as [|c g IH].
  - by vm_compute in Hlf.
  - rewrite append_cons in Hlf. cbn [Py.endswith_char] in Hlf.
    destruct (g +:+ String Py.ch_lf EmptyString) eqn:Hg; [|by apply IH].
    by destruct g.
Qed.

Lemma is_video_id_YT_ID_RE_match (s : string) :
  is_video_id s = true → _YT_ID_RE_match s = true.
Proof.
  intros H. apply is_video_id_spec in H. unfold _YT_ID_RE_match.
  by rewrite H.
Qed.

Lemma extracted_is_video_id (env : Env) (x v : string) :
  strips_newline env x →
  extract_youtube_id env x = Some v → is_video_id v = true.
Proof.
  unfold strips_newline, extract_youtube_id. intros Hlf.
  destruct (decide (x = EmptyString)); [done|].
  destruct (_YT_ID_RE_match (str_strip env x)) eqn:Hm.
  { intros [= <-]. by apply YT_ID_RE_match_is_video_id. }
  repeat match goal with
         | |- context [re_search ?l ?s] =>
             let H := fresh "H" in
             destruct (re_search l s) eqn:H;
             [intros [= <-]; by eapply re_search_is_video_id|]
         end.
  done.
Qed.

(** X10. Whatever [extract_youtube_id] returns is eleven characters of the
    identifier class, and nothing else. *)
Theorem extract_youtube_id_is_video_id (env : Env) (x v : string) :
  strips_newline env x →
  extract_youtube_id env x = Some v →
  is_video_id v = true ∧ String.length v = 11%nat
  ∧ Forall (λ c, id_char c = true) (list_ascii_of_string v).
Proof.
  intros Hlf Hx.
  pose proof (extracted_is_video_id env x v Hlf Hx) as Hv.
  split; [done|]. apply is_video_id_spec in Hv.
  split; [by apply id_chars_spec in Hv as (_ & _ & ?)|].
  revert Hv. generalize 11%nat. intros n. clear.
  revert v. induction n as [|n IH]; intros v; cbn.
  - by intros [= <-].
  - destruct v as [|c v]; [done|]. destruct (id_char c) eqn:Hc; [|done].
    destruct (id_chars n v) as [[g r]|] eqn:Hg; [|done].
    intros [= -> ->]. cbn. constructor; [done|]. by apply IH.
Qed.

(** X11. An identifier, with whatever [str.strip] removes around it, is returned
    as it is. *)
Theorem extract_youtube_id_bare (env : Env) (x : string) :
  x ≠ EmptyString → is_video_id (str_strip env x) = true →
  extract_youtube_id env x = Some (str_strip env x).
Proof.
  intros Hx Hv. unfold extract_youtube_id.
  destruct (decide (x = EmptyString)); [done|].
  by rewrite is_video_id_YT_ID_RE_match.
Qed.

Lemma re_search_step (lits : list string) (c : ascii) (s : string) :
  match_at lits (String c s) = None →
  re_search lits (String c s) = re_search lits s.
Proof. intros H. cbn [re_search]. by rewrite H. Qed.

Lemma re_search_hit (lits : list string) (s g : string) :
  match_at lits s = Some g → re_search lits s = Some g.
Proof. intros H. destruct s; cbn [re_search]; by rewrite H. Qed.

Section Forms.
Variable env : Env.

#[local] Arguments String.append !_ _ /.
#[local] Arguments id_chars : simpl never.

Lemma extract_watch_url_tail (v rest : string) :
  is_video_id v = true →
  str_strip env (build_watch_url (v +:+ rest)) = build_watch_url (v +:+ rest) →
  extract_youtube_id env (build_watch_url (v +:+ rest)) = Some v.
Proof.
  intros Hv Hs. apply is_video_id_spec in Hv.
  unfold extract_youtube_id. rewrite Hs.
  assert (_YT_ID_RE_match (build_watch_url (v +:+ rest)) = false) as ->
    by reflexivity.
  unfold build_watch_url. cbn [String.append].
  destruct (decide _) as [?|_]; [done|].
  repeat (rewrite re_search_step by reflexivity).
  rewrite (re_search_hit _ _ v); [done|].
  unfold match_at. cbn -[String.append]. by rewrite (id_chars_app _ _ _ Hv).
Qed.

(** X12. The watch address [build_watch_url] writes for an identifier gives the
    identifier back. *)
Theorem extract_youtube_id_build_watch_url (v : string) :
  is_video_id v = true →
  str_strip env (build_watch_url v) = build_watch_url v →
  extract_youtube_id env (build_watch_url v) = Some v.
Proof.
  intros Hv. rewrite <- (append_nil_r v) at 1 2 3.
  by apply extract_watch_url_tail.
Qed.

(** X13. In an address the identifier is the first eleven characters after
    [v=], whatever follows them: a longer run of identifier characters is
    cut, not refused. *)
Theorem extract_youtube_id_cuts_longer (v rest : string) :
  is_video_id v = true →
  str_strip env (build_watch_url (v +:+ rest)) = build_watch_url (v +:+ rest) →
  extract_youtube_id env (build_watch_url (v +:+ rest)) = Some v
  ∧ (rest ≠ EmptyString → rest ≠ String Py.ch_lf EmptyString →
     _YT_ID_RE_match (v +:+ rest) = false).
Proof.
  intros Hv Hs. split; [by apply extract_watch_url_tail|].
  intros Hr Hlf. apply is_video_id_spec in Hv.
  unfold _YT_ID_RE_match. rewrite (id_chars_app _ _ _ Hv).
  apply orb_false_iff. by split; apply bool_decide_eq_false.
Qed.

End Forms.

Section Api.
Variable env : Env.

#[local] Arguments extract_youtube_id : simpl never.
#[local] Arguments _YT_ID_RE_match : simpl never.
#[local] Arguments splitlines_head : simpl never.
#[local] Arguments print_id_args : simpl never.
#[local] Arguments first_line : simpl never.
#[local] Arguments ensure_cache_request : simpl never.
#[local] Arguments get_media : simpl never.

Lemma run_ytdlp_print_id (url : string) (timeout_seconds : Z) (w : World) :
  run env (ytdlp_print_id env url timeout_seconds) w
  = let '(res, f, d) :=
      subprocess_run env (print_id_args url) timeout_seconds (fs w) (now w) in
    (match res with
     | ProcTimeout => Raised TimeoutExpired
     | Completed rc out _ =>
         Returned
           (if negb (rc =? 0) then None
            else match splitlines_head (str_strip env out) with
                 | [] => None
                 | line :: _ =>
                     if _YT_ID_RE_match (str_strip env line)
                     then Some (str_strip env line) else None
                 end)
     end,
     advance d (with_fs f w),
     [EvRun (print_id_args url) timeout_seconds res]).
Proof.
  cbn.
  destruct (subprocess_run env (print_id_args url) timeout_seconds (fs w) (now w))
    as [[res f] d].
  destruct res as [rc out err|]; cbn; [|done].
  destruct (rc =? 0); cbn; [|done].
  by destruct (splitlines_head (str_strip env out)).
Qed.

(** X14. [ytdlp_print_id] runs the tool once, with the timeout it was given,
    and touches neither the store nor the queue.  A tool that times out
    makes it raise; one that exits with a non-zero status makes it return
    nothing; and what it returns otherwise is the first line of the tool's
    output, stripped, which is an identifier whenever stripping leaves no
    newline at its end. *)
Theorem ytdlp_print_id_result (url : string) (timeout_seconds : Z) (w : World) :
  let res :=
    (subprocess_run env (print_id_args url) timeout_seconds (fs w) (now w)).1.1 in
  let '(r, w', ev) := run env (ytdlp_print_id env url timeout_seconds) w in
  ev = [EvRun (print_id_args url) timeout_seconds res]
  ∧ redis w' = redis w ∧ queue w' = queue w ∧ issued w' = issued w
  ∧ match res with
    | ProcTimeout => r = Raised TimeoutExpired
    | Completed rc out _ =>
        ∃ o, r = Returned o
             ∧ (rc ≠ 0 → o = None)
             ∧ ∀ v, o = Some v →
                    rc = 0
                    ∧ v = str_strip env (first_line (str_strip env out))
                    ∧ (strips_newline env (first_line (str_strip env out)) →
                       is_video_id v = true)
    end.
Proof.
  rewrite run_ytdlp_print_id.
  destruct (subprocess_run env (print_id_args url) timeout_seconds (fs w) (now w))
    as [[res f] d]. cbn.
  destruct res as [rc out err|]; [|done].
  repeat split; try done. eexists. split; [done|].
  destruct (rc =? 0) eqn:Hrc; cbn.
  - apply Z.eqb_eq in Hrc as ->. split; [done|].
    unfold splitlines_head.
    destruct (str_strip env out) as [|c s] eqn:Hout; [done|].
    destruct (_YT_ID_RE_match (str_strip env (first_line (String c s))))
      eqn:Hm; [|done].
    intros v [= <-]. split; [done|]. split; [done|].
    intros Hlf. by apply YT_ID_RE_match_is_video_id.
  - by split.
Qed.

Lemma tried_is_video_id (arg : option string) (v : string) :
  (∀ s, strips_newline env s) →
  tried env arg = Some v → is_video_id v = true.
Proof.
  intros Hlf. unfold tried. destruct arg as [[|c s]|]; [done| |done].
  destruct (extract_youtube_id env (String c s)) as [[|c' v']|] eqn:H;
    [done| |done].
  intros [= <-]. by eapply extracted_is_video_id.
Qed.

Lemma resolve_video_id_identifier (video_id url path : option string)
    (w : World) (v : string) :
  (∀ s, strips_newline env s) →
  (run env (resolve_video_id env video_id url path) w).1.1
  = Returned (Some v) →
  is_video_id v = true.
Proof.
  intros Hlf. unfold resolve_video_id.
  destruct (tried env path) as [v1|] eqn:H1.
  { intros [= <-]. by eapply tried_is_video_id. }
  destruct (tried env video_id) as [v2|] eqn:H2.
  { intros [= <-]. by eapply tried_is_video_id. }
  destruct url as [[|c u]|]; [done| |done].
  destruct (tried env (Some (String c u))) as [v3|] eqn:H3.
  { intros [= <-]. by eapply tried_is_video_id. }
  rewrite run_ytdlp_print_id.
  destruct (subprocess_run env (print_id_args (String c u)) 20 (fs w) (now w))
    as [[res f] d]. cbn.
  destruct res as [rc out err|]; [|done].
  destruct (rc =? 0); cbn; [|done].
  unfold splitlines_head.
  destruct (str_strip env out) as [|c' s'] eqn:Hout; [done|].
  destruct (_YT_ID_RE_match (str_strip env (first_line (String c' s'))))
    eqn:Hm; [|done].
  intros [= <-]. apply YT_ID_RE_match_is_video_id; [apply Hlf|done].
Qed.

Lemma resolve_video_id_enqueues_nothing (video_id url path : option string)
    (w : World) :
  enqueued (run env (resolve_video_id env video_id url path) w).2 = [].
Proof.
  unfold resolve_video_id.
  destruct (tried env path); [done|].
  destruct (tried env video_id); [done|].
  destruct url as [[|c u]|]; [done| |done].
  destruct (tried env (Some (String c u))); [done|].
  rewrite run_ytdlp_print_id.
  by destruct (subprocess_run env (print_id_args (String c u)) 20 (fs w) (now w))
    as [[res f] d].
Qed.

(** X15. [resolve_video_id] returns nothing but identifiers, and never touches
    the store or the queue.  It runs the tool only when an address was
    given and none of the three arguments yielded an identifier by pattern:
    then once, for that address, with a timeout of 20 seconds. *)
Theorem resolve_video_id_result (video_id url path : option string)
    (w : World) :
  (∀ s, strips_newline env s) →
  let '(r, w', ev) := run env (resolve_video_id env video_id url path) w in
  (∀ v, r = Returned (Some v) → is_video_id v = true)
  ∧ redis w' = redis w ∧ queue w' = queue w ∧ issued w' = issued w
  ∧ (ev = [] ∧ w' = w
     ∨ tried env path = None ∧ tried env video_id = None
       ∧ tried env url = None
       ∧ ∃ u res, url = Some u ∧ u ≠ EmptyString
                  ∧ ev = [EvRun (print_id_args u) 20 res]).
Proof.
  intros Hlf.
  pose proof (resolve_video_id_identifier video_id url path w) as Hv.
  revert Hv. unfold resolve_video_id.
  destruct (tried env path) as [v1|] eqn:H1.
  { cbn. intros Hv. repeat split; try done; [|by left].
    intros v [= <-]. by apply Hv. }
  destruct (tried env video_id) as [v2|] eqn:H2.
  { cbn. intros Hv. repeat split; try done; [|by left].
    intros v [= <-]. by apply Hv. }
  destruct url as [[|c u]|];
    [cbn; intros _; repeat split; try done; by left| |
     cbn; intros _; repeat split; try done; by left].
  destruct (tried env (Some (String c u))) as [v3|] eqn:H3.
  { cbn. intros Hv. repeat split; try done; [|by left].
    intros v [= <-]. by apply Hv. }
  rewrite run_ytdlp_print_id.
  destruct (subprocess_run env (print_id_args (String c u)) 20 (fs w) (now w))
    as [[res f] d]. cbn. intros Hv.
  repeat split; try done.
  - intros v Hr. by apply Hv.
  - right. repeat split; try done. by eexists _, _.
Qed.

(** X16. While the lock of an identifier is held and its record is not ready,
    [ensure_cache_request] changes nothing: it submits no job, and its
    conditional set neither takes the lock nor extends its expiry. *)
Theorem ensure_cache_request_locked_noop (video_id : string) (w : World)
    (m : option Py.dict) :
  media_in w video_id = Returned m → media_ready m = false →
  lock_held w video_id = true →
  let '(r, w', ev) := run env (ensure_cache_request video_id) w in
  r = Returned EmptyString ∧ w' = w ∧ enqueued ev = []
  ∧ nx_sets ev = [(_b (k_lock video_id), Some 600, false)].
Proof.
  intros Hm Hr Hl. rewrite run_ensure_cache_request. cbv zeta.
  by rewrite Hm, Hr, Hl.
Qed.

(** X17. The caller that takes the lock gets the handle of the job it
    submitted, and leaves it under the key [yt:last_job:<id>], where it
    can be read up to 3600 seconds later and no longer; the lock is held up
    to 600 seconds later and no longer; the time is as before, and so is
    every other key of the store that is not one of RQ's own, which begin
    with [rq:]. *)
Theorem ensure_cache_request_records_handle (video_id : string) (w : World)
    (m : option Py.dict) :
  media_in w video_id = Returned m → media_ready m = false →
  lock_held w video_id = false →
  let '(r, w', ev) := run env (ensure_cache_request video_id) w in
  let handle := uuid4 env (issued w) in
  let last_job := Py.encode_utf8 ("yt:last_job:" +:+ video_id) in
  r = Returned handle
  ∧ queue w' = queue w ++ [Job handle DownloadAvJob video_id 3600]
  ∧ now w' = now w
  ∧ (∀ d, Redis.get (now w' + d) (redis w') last_job
          = if d <=? 3600 then Some handle else None)
  ∧ (∀ d, Redis.get (now w' + d) (redis w') (_b (k_lock video_id))
          = if d <=? 600 then Some "1" else None)
  ∧ (∀ k, k ≠ last_job → k ≠ _b (k_lock video_id) →
          Py.startswith "rq:" k = false →
          redis w' !! k = redis w !! k).
Proof.
  intros Hm Hr Hl. rewrite run_ensure_cache_request. cbv zeta.
  rewrite Hm, Hr, Hl. cbn.
  repeat split; try done.
  - intros d. unfold Redis.get. rewrite lookup_insert_eq. cbn.
    unfold Redis.live. cbn.
    destruct (d <=? 3600) eqn:Hd.
    + apply Z.leb_le in Hd. by rewrite (proj2 (Z.leb_le _ _)) by lia.
    + apply Z.leb_gt in Hd. by rewrite (proj2 (Z.leb_gt _ _)) by lia.
  - intros d. unfold Redis.get.
    rewrite lookup_insert_ne by apply k_last_job_ne_k_lock.
    rewrite lookup_insert_eq. cbn. unfold Redis.live. cbn.
    destruct (d <=? 600) eqn:Hd.
    + apply Z.leb_le in Hd. by rewrite (proj2 (Z.leb_le _ _)) by lia.
    + apply Z.leb_gt in Hd. by rewrite (proj2 (Z.leb_gt _ _)) by lia.
  - intros k H1 H2 _. by rewrite !lookup_insert_ne.
Qed.

Ltac run_bind_step :=
  match goal with
  | |- context [run ?e (?p ≫= ?f) ?w] =>
      change (run e (p ≫= f) w) with (run e (bind p f) w);
      rewrite (run_bind e p f w)
  end.

Lemma extract_youtube_id_nonempty (x v : string) :
  extract_youtube_id env x = Some v → v ≠ EmptyString.
Proof.
  unfold extract_youtube_id.
  destruct (decide (x = EmptyString)); [done|].
  destruct (_YT_ID_RE_match (str_strip env x)) eqn:Hm.
  { intros [= <-] Hs. by rewrite Hs in Hm. }
  assert (Hre : ∀ lits s g, re_search lits s = Some g → g ≠ EmptyString).
  { intros lits s g Hg ->. by apply re_search_is_video_id in Hg. }
  repeat match goal with
         | |- context [re_search ?l ?s] =>
             let H := fresh "H" in
             destruct (re_search l s) eqn:H;
             [intros [= <-]; by eapply Hre|]
         end.
  done.
Qed.

(** X18. What [status_payload] reports is what it found: [ready] tells whether
    the record has both paths, the two media addresses are given exactly
    then, and [job_id] is the handle of a job exactly when this very call
    submitted one; a call that finds the record ready or the lock held
    changes nothing. *)
Theorem status_payload_reports (base video_id : string) (w : World)
    (m : option Py.dict) :
  media_in w video_id = Returned m →
  let '(r, w', ev) := run env (status_payload base video_id) w in
  let idle := media_ready m || lock_held w video_id in
  let handle := uuid4 env (issued w) in
  ∃ d, r = Returned d
       ∧ Py.dict_get "ready" d = Py.VBool (media_ready m)
       ∧ Py.dict_get "video_id" d = Py.VStr video_id
       ∧ Py.dict_get "video_url" d
         = (if media_ready m
            then Py.VStr (base +:+ "/media/" +:+ video_id +:+ "/video")
            else Py.VNone)
       ∧ Py.dict_get "audio_url" d
         = (if media_ready m
            then Py.VStr (base +:+ "/media/" +:+ video_id +:+ "/audio")
            else Py.VNone)
       ∧ Py.dict_get "job_id" d
         = (if idle then Py.VNone
            else if decide (handle = EmptyString) then Py.VNone
                 else Py.VStr handle)
       ∧ enqueued ev
         = (if idle then []
            else [Job handle DownloadAvJob video_id 3600])
       ∧ (idle = true → w' = w).
Proof.
  intros Hm. unfold status_payload.
  run_bind_step. rewrite run_get_media, Hm.
  destruct (media_ready m) eqn:Hr.
  { cbn. eexists. split; [done|]. by repeat split. }
  run_bind_step. rewrite run_ensure_cache_request. cbv zeta. rewrite Hm, Hr.
  destruct (lock_held w video_id) eqn:Hl.
  { cbn. eexists. split; [done|]. by repeat split. }
  cbn. eexists. split; [done|]. by repeat split.
Qed.

(** X19. In the status route a [video_id] parameter that is given hides the
    parameter [v]: when no identifier is found in it and no address was
    given, the request is refused, whatever [v] holds, and nothing was
    read, written or run. *)
Theorem status_video_id_hides_v (base s : string) (v : option string)
    (w : World) :
  s ≠ EmptyString → extract_youtube_id env s = None →
  run env (status env base (Some s) v None) w
  = (Returned (HTTPException 400 "Unable to resolve video_id"), w, []).
Proof.
  intros Hs Hx. unfold status, or_else, resolve_video_id, tried.
  destruct s as [|c s]; [done|]. cbn. by rewrite Hx.
Qed.

(** X20. The video route serves the path the record holds under
    [video_path], whether or not the record has an audio path: it reads
    the record once, takes no lock and submits nothing. *)
Theorem media_video_serves (guess_type : string → option string)
    (video_id vid : string) (w : World) (d : Py.dict) (p : string) :
  extract_youtube_id env video_id = Some vid →
  media_in w vid = Returned (Some d) →
  Py.dict_get "video_path" d = Py.VStr p → p ≠ EmptyString →
  run env (media_video env guess_type video_id) w
  = (Returned (FileResponse p
                 (media_type_of (guess_type p))
                 (basename p) CACHE_HEADERS),
     w,
     [EvGet (_b (k_media vid))
        (Redis.get (now w) (redis w) (_b (k_media vid)))]).
Proof.
  intros Hx Hm Hd Hp.
  pose proof (extract_youtube_id_nonempty _ _ Hx) as Hv.
  destruct vid as [|c vid]; [done|].
  assert (Ht : Py.truthy (Py.VStr p) = true).
  { cbn. by rewrite bool_decide_eq_false_2. }
  unfold media_video. rewrite Hx. run_bind_step.
  rewrite run_get_media, Hm.
  destruct d as [|kv d]; [done|]. by rewrite Hd, Ht.
Qed.

(** X21. The audio route serves the path the record holds under
    [audio_path], whether or not the record has a video path: it reads
    the record once, takes no lock and submits nothing. *)
Theorem media_audio_serves (guess_type : string → option string)
    (video_id vid : string) (w : World) (d : Py.dict) (p : string) :
  extract_youtube_id env video_id = Some vid →
  media_in w vid = Returned (Some d) →
  Py.dict_get "audio_path" d = Py.VStr p → p ≠ EmptyString →
  run env (media_audio env guess_type video_id) w
  = (Returned (FileResponse p
                 (media_type_of (guess_type p))
                 (basename p) CACHE_HEADERS),
     w,
     [EvGet (_b (k_media vid))
        (Redis.get (now w) (redis w) (_b (k_media vid)))]).
Proof.
  intros Hx Hm Hd Hp.
  pose proof (extract_youtube_id_nonempty _ _ Hx) as Hv.
  destruct vid as [|c vid]; [done|].
  assert (Ht : Py.truthy (Py.VStr p) = true).
  { cbn. by rewrite bool_decide_eq_false_2. }
  unfold media_audio. rewrite Hx. run_bind_step.
  rewrite run_get_media, Hm.
  destruct d as [|kv d]; [done|]. by rewrite Hd, Ht.
Qed.

Lemma run_ensure_then {B : Type} (vid : string) (b : B) (w : World) :
  run env (ensure_cache_request vid;; mret b) w
  = let '(r, w', ev) := run env (ensure_cache_request vid) w in
    (match r with
     | Returned _ => Returned b
     | Raised e => Raised e
     end, w', ev).
Proof.
  run_bind_step.
  destruct (run env (ensure_cache_request vid) w) as [[[j|e] w'] ev];
    cbn; [|done].
  by rewrite app_nil_r.
Qed.

Lemma not_cached_then {B : Type} (vid : string) (b : B) (w : World)
    (m : option Py.dict) :
  media_in w vid = Returned m → media_ready m = false →
  let '(r, w', ev) := run env (ensure_cache_request vid;; mret b) w in
  r = Returned b
  ∧ enqueued ev
    = (if lock_held w vid then []
       else [Job (uuid4 env (issued w)) DownloadAvJob vid 3600])
  ∧ (lock_held w vid = true → w' = w).
Proof.
  intros Hm Hr.
  rewrite run_ensure_then, run_ensure_cache_request. cbv zeta.
  rewrite Hm, Hr. by destruct (lock_held w vid).
Qed.

(** X22. The video route that finds no video path in the record answers 404
    and leaves the request to [ensure_cache_request]: a job for the
    identifier is submitted when the lock is free; none, and no change at
    all, when it is held. *)
Theorem media_video_not_cached (guess_type : string → option string)
    (video_id vid : string) (w : World) (m : option Py.dict) :
  extract_youtube_id env video_id = Some vid →
  media_in w vid = Returned m →
  Py.truthy (Py.dict_get "video_path" (default [] m)) = false →
  let '(r, w', ev) := run env (media_video env guess_type video_id) w in
  r = Returned (HTTPException 404 "Video not cached yet")
  ∧ enqueued ev
    = (if lock_held w vid then []
       else [Job (uuid4 env (issued w)) DownloadAvJob vid 3600])
  ∧ (lock_held w vid = true → w' = w).
Proof.
  intros Hx Hm Hd.
  pose proof (extract_youtube_id_nonempty _ _ Hx) as Hv.
  destruct vid as [|c vid]; [done|].
  assert (Hr : media_ready m = false).
  { destruct m as [[|kv d]|]; try done. cbn in Hd |- *. by rewrite Hd. }
  unfold media_video. rewrite Hx. run_bind_step.
  rewrite run_get_media, Hm.
  pose proof (not_cached_then (String c vid)
                (HTTPException 404 "Video not cached yet") w m Hm Hr) as Hrun.
  destruct m as [[|kv d]|];
    [| unfold default in Hd; cbn [from_option id] in Hd; rewrite Hd |];
    revert Hrun; (destruct (run env _ w) as [[r w'] ev]);
    by intros (-> & <- & ?).
Qed.

(** X23. The audio route that finds no audio path in the record answers 404
    and leaves the request to [ensure_cache_request]: a job for the
    identifier is submitted when the lock is free; none, and no change at
    all, when it is held. *)
Theorem media_audio_not_cached (guess_type : string → option string)
    (video_id vid : string) (w : World) (m : option Py.dict) :
  extract_youtube_id env video_id = Some vid →
  media_in w vid = Returned m →
  Py.truthy (Py.dict_get "audio_path" (default [] m)) = false →
  let '(r, w', ev) := run env (media_audio env guess_type video_id) w in
  r = Returned (HTTPException 404 "Audio not cached yet")
  ∧ enqueued ev
    = (if lock_held w vid then []
       else [Job (uuid4 env (issued w)) DownloadAvJob vid 3600])
  ∧ (lock_held w vid = true → w' = w).
Proof.
  intros Hx Hm Hd.
  pose proof (extract_youtube_id_nonempty _ _ Hx) as Hv.
  destruct vid as [|c vid]; [done|].
  assert (Hr : media_ready m = false).
  { destruct m as [[|kv d]|]; try done. cbn in Hd |- *. rewrite Hd.
    apply andb_false_r. }
  unfold media_audio. rewrite Hx. run_bind_step.
  rewrite run_get_media, Hm.
  pose proof (not_cached_then (String c vid)
                (HTTPException 404 "Audio not cached yet") w m Hm Hr) as Hrun.
  destruct m as [[|kv d]|];
    [| unfold default in Hd; cbn [from_option id] in Hd; rewrite Hd |];
    revert Hrun; (destruct (run env _ w) as [[r w'] ev]);
    by intros (-> & <- & ?).
Qed.

Lemma enqueued_ensure_then {B : Type} (vid : string) (b : B) (w : World) :
  let ev := (run env (ensure_cache_request vid;; mret b) w).2 in
  enqueued ev = []
  ∨ enqueued ev = [Job (uuid4 env (issued w)) DownloadAvJob vid 3600].
Proof.
  cbv zeta. run_bind_step.
  pose proof (ensure_cache_request_events env vid w) as [H _].
  cbv zeta in H.
  destruct (run env (ensure_cache_request vid) w) as [[[j|e] w'] ev];
    cbn in H |- *; [|done].
  by rewrite app_nil_r.
Qed.

Lemma enqueued_status_payload (base vid : string) (w : World) :
  let ev := (run env (status_payload base vid) w).2 in
  enqueued ev = []
  ∨ enqueued ev = [Job (uuid4 env (issued w)) DownloadAvJob vid 3600].
Proof.
  cbv zeta. unfold status_payload. run_bind_step. rewrite run_get_media.
  destruct (media_in w vid) as [m|e]; [|by left].
  destruct (media_ready m); [by left|].
  run_bind_step.
  pose proof (ensure_cache_request_events env vid w) as [H _].
  cbv zeta in H.
  destruct (run env (ensure_cache_request vid) w) as [[[j|e] w'] ev];
    cbn in H |- *; [|done].
  by rewrite app_nil_r.
Qed.

Lemma enqueued_media_video (guess_type : string → option string)
    (x : string) (w : World) :
  let ev := (run env (media_video env guess_type x) w).2 in
  enqueued ev = []
  ∨ ∃ vid, extract_youtube_id env x = Some vid
           ∧ enqueued ev
             = [Job (uuid4 env (issued w)) DownloadAvJob vid 3600].
Proof.
  cbv zeta. unfold media_video.
  destruct (extract_youtube_id env x) as [[|c vid]|] eqn:Hx;
    [by left| |by left].
  run_bind_step. rewrite run_get_media.
  destruct (media_in w (String c vid)) as [m|e]; [|by left].
  pose proof (enqueued_ensure_then (String c vid)
                (HTTPException 404 "Video not cached yet") w) as H.
  cbv zeta in H.
  destruct m as [[|kv d]|];
    [| destruct (Py.truthy (Py.dict_get "video_path" (kv :: d)));
       [by left|] |];
    (destruct (run env (_;; _) w) as [[r w'] ev]);
    (destruct H as [H|H]; [by left|right; by eexists]).
Qed.

Lemma enqueued_media_audio (guess_type : string → option string)
    (x : string) (w : World) :
  let ev := (run env (media_audio env guess_type x) w).2 in
  enqueued ev = []
  ∨ ∃ vid, extract_youtube_id env x = Some vid
           ∧ enqueued ev
             = [Job (uuid4 env (issued w)) DownloadAvJob vid 3600].
Proof.
  cbv zeta. unfold media_audio.
  destruct (extract_youtube_id env x) as [[|c vid]|] eqn:Hx;
    [by left| |by left].
  run_bind_step. rewrite run_get_media.
  destruct (media_in w (String c vid)) as [m|e]; [|by left].
  pose proof (enqueued_ensure_then (String c vid)
                (HTTPException 404 "Audio not cached yet") w) as H.
  cbv zeta in H.
  destruct m as [[|kv d]|];
    [| destruct (Py.truthy (Py.dict_get "audio_path" (kv :: d)));
       [by left|] |];
    (destruct (run env (_;; _) w) as [[r w'] ev]);
    (destruct H as [H|H]; [by left|right; by eexists]).
Qed.

Lemma enqueued_status (base : string) (video_id v url : option string)
    (w : World) :
  (∀ s, strips_newline env s) →
  let ev := (run env (status env base video_id v url) w).2 in
  enqueued ev = []
  ∨ ∃ vid handle, is_video_id vid = true
                  ∧ enqueued ev = [Job handle DownloadAvJob vid 3600].
Proof.
  intros Hlf. cbv zeta. unfold status. run_bind_step.
  pose proof (resolve_video_id_identifier (or_else video_id v) url None w)
    as Hv.
  pose proof (resolve_video_id_enqueues_nothing (or_else video_id v) url None w)
    as Hq.
  destruct (run env (resolve_video_id env (or_else video_id v) url None) w)
    as [[r w1] ev1]. cbn [fst snd] in Hv, Hq.
  destruct r as [[[|c vid]|]|e]; cbn; rewrite ?app_nil_r; try by left.
  run_bind_step.
  pose proof (enqueued_status_payload base (String c vid) w1) as H.
  cbv zeta in H.
  destruct (run env (status_payload base (String c vid)) w1)
    as [[[d|e] w2] ev2]; cbn in H |- *;
    rewrite ?app_nil_r, enqueued_app, Hq; cbn;
    (destruct H as [H|H]; [by left|right]);
    eexists _, _; (split; [by apply Hv|done]).
Qed.

(** X24. Whatever the request, the status route and the two media routes
    submit at most one job, and only for an identifier: eleven characters
    of the identifier class, with [download_av_job] as the function and a
    job timeout of 3600 seconds. *)
Theorem routes_enqueue_identifiers (base : string)
    (guess_type : string → option string)
    (video_id v url : option string) (x : string) (w : World) (ev : list event) :
  (∀ s, strips_newline env s) →
  ev = (run env (status env base video_id v url) w).2
  ∨ ev = (run env (media_video env guess_type x) w).2
  ∨ ev = (run env (media_audio env guess_type x) w).2 →
  (length (enqueued ev) ≤ 1)%nat
  ∧ Forall (λ j, is_video_id (job_arg j) = true
                 ∧ job_fn j = DownloadAvJob ∧ job_timeout j = 3600)
      (enqueued ev).
Proof.
  intros Hlf [-> | [-> | ->]].
  - destruct (enqueued_status base video_id v url w Hlf)
      as [H|(vid & h & Hv & H)]; cbv zeta in H; rewrite H; cbn.
    + split; [lia|constructor].
    + split; [lia|]. by repeat constructor.
  - destruct (enqueued_media_video guess_type x w)
      as [H|(vid & Hx & H)]; cbv zeta in H; rewrite H; cbn.
    + split; [lia|constructor].
    + split; [lia|]. repeat constructor.
      by eapply extracted_is_video_id.
  - destruct (enqueued_media_audio guess_type x w)
      as [H|(vid & Hx & H)]; cbv zeta in H; rewrite H; cbn.
    + split; [lia|constructor].
    + split; [lia|]. repeat constructor.
      by eapply extracted_is_video_id.
Qed.

End Api.

(** X25. The keys of the store never coincide: the record keys and the lock
    keys of two identifiers are equal only when the identifiers are, and a
    record key, a lock key and a [yt:last_job:] key are never the same key,
    whatever the identifiers. *)
Theorem store_keys_apart (a b : string) :
  (_b (k_media a) = _b (k_media b) → a = b)
  ∧ (_b (k_lock a) = _b (k_lock b) → a = b)
  ∧ _b (k_media a) ≠ _b (k_lock b)
  ∧ Py.encode_utf8 ("yt:last_job:" +:+ a) ≠ _b (k_media b)
  ∧ Py.encode_utf8 ("yt:last_job:" +:+ a) ≠ _b (k_lock b).
Proof.
  repeat split; try done.
  - apply (inj (String.append "yt:media:")).
  - apply (inj (String.append "yt:lock:")).
Qed.

(** ** The examples *)

Lemma lstrip_head (l : list ascii) :
  match Demo.lstrip l with
  | c :: _ => Demo.is_space c = false
  | [] => True
  end.
Proof.
  induction l as [|c l IH]; cbn; [done|].
  by destruct (Demo.is_space c) eqn:Hc; [|cbn].
Qed.

Lemma endswith_char_snoc (c a : ascii) (l : list ascii) :
  Py.endswith_char c (string_of_list_ascii (l ++ [a])) = bool_decide (a = c).
Proof.
  induction l as [|x l IH]; [done|].
  cbn [app string_of_list_ascii Py.endswith_char].
  destruct (string_of_list_ascii (l ++ [a])) eqn:H; [|done].
  by destruct l.
Qed.

Lemma strip_strips_newline (s : string) :
  Py.endswith_char Py.ch_lf (Demo.strip s) = false.
Proof.
  unfold Demo.strip.
  pose proof (lstrip_head (reverse (Demo.lstrip (list_ascii_of_string s))))
    as H.
  destruct (Demo.lstrip (reverse _)) as [|c l]; [done|].
  rewrite reverse_cons, endswith_char_snoc.
  apply bool_decide_eq_false. by intros ->.
Qed.

Lemma extract_youtube_id_is_video_id_witness :
  strips_newline Demo.env "https://youtu.be/abc12345678?t=42"
  ∧ extract_youtube_id Demo.env "https://youtu.be/abc12345678?t=42"
    = Some "abc12345678"
  ∧ is_video_id "abc12345678" = true
  ∧ String.length "abc12345678" = 11%nat
  ∧ Forall (λ c, id_char c = true) (list_ascii_of_string "abc12345678").
Proof.
  split; [reflexivity|]. split; [reflexivity|].
  apply (extract_youtube_id_is_video_id Demo.env
           "https://youtu.be/abc12345678?t=42" "abc12345678");
    reflexivity.
Defined.

Lemma extract_youtube_id_bare_witness :
  "  abc12345678 " ≠ EmptyString
  ∧ is_video_id (str_strip Demo.env "  abc12345678 ") = true
  ∧ extract_youtube_id Demo.env "  abc12345678 "
    = Some (str_strip Demo.env "  abc12345678 ").
Proof.
  split; [discriminate|]. split; [reflexivity|].
  apply (extract_youtube_id_bare Demo.env "  abc12345678 ");
    [discriminate | reflexivity].
Defined.

Lemma extract_youtube_id_build_watch_url_witness :
  is_video_id Demo.video_id = true
  ∧ str_strip Demo.env (build_watch_url Demo.video_id)
    = build_watch_url Demo.video_id
  ∧ extract_youtube_id Demo.env (build_watch_url Demo.video_id)
    = Some Demo.video_id.
Proof.
  split; [reflexivity|]. split; [reflexivity|].
  apply (extract_youtube_id_build_watch_url Demo.env Demo.video_id);
    reflexivity.
Defined.

Lemma extract_youtube_id_cuts_longer_witness :
  is_video_id Demo.video_id = true
  ∧ str_strip Demo.env (build_watch_url (Demo.video_id +:+ "XYZ"))
    = build_watch_url (Demo.video_id +:+ "XYZ")
  ∧ extract_youtube_id Demo.env (build_watch_url (Demo.video_id +:+ "XYZ"))
    = Some Demo.video_id
  ∧ ("XYZ" ≠ EmptyString → "XYZ" ≠ String Py.ch_lf EmptyString →
     _YT_ID_RE_match (Demo.video_id +:+ "XYZ") = false).
Proof.
  split; [reflexivity|]. split; [reflexivity|].
  apply (extract_youtube_id_cuts_longer Demo.env Demo.video_id "XYZ");
    reflexivity.
Defined.

Lemma resolve_video_id_result_witness :
  let '(r, w', ev) :=
    run Cases.env_prints
      (resolve_video_id Cases.env_prints None
         (Some "https://example.org/clip") None)
      Demo.fresh in
  (∀ v, r = Returned (Some v) → is_video_id v = true)
  ∧ redis w' = redis Demo.fresh ∧ queue w' = queue Demo.fresh
  ∧ issued w' = issued Demo.fresh
  ∧ (ev = [] ∧ w' = Demo.fresh
     ∨ tried Cases.env_prints None = None
       ∧ tried Cases.env_prints None = None
       ∧ tried Cases.env_prints (Some "https://example.org/clip") = None
       ∧ ∃ u res, Some "https://example.org/clip" = Some u
                  ∧ u ≠ EmptyString
                  ∧ ev = [EvRun (print_id_args u) 20 res]).
Proof.
  apply (resolve_video_id_result Cases.env_prints None
           (Some "https://example.org/clip") None Demo.fresh).
  exact strip_strips_newline.
Defined.

Lemma ensure_cache_request_locked_noop_witness :
  media_in Demo.requested Demo.video_id = Returned None
  ∧ lock_held Demo.requested Demo.video_id = true
  ∧ let '(r, w', ev) :=
      run Demo.env (ensure_cache_request Demo.video_id) Demo.requested in
    r = Returned EmptyString ∧ w' = Demo.requested ∧ enqueued ev = []
    ∧ nx_sets ev = [(_b (k_lock Demo.video_id), Some 600, false)].
Proof.
  split; [reflexivity|]. split; [reflexivity|].
  apply (ensure_cache_request_locked_noop Demo.env Demo.video_id
           Demo.requested None); reflexivity.
Defined.

Lemma ensure_cache_request_records_handle_witness :
  media_in Demo.fresh Demo.video_id = Returned None
  ∧ lock_held Demo.fresh Demo.video_id = false
  ∧ let '(r, w', ev) :=
      run Demo.env (ensure_cache_request Demo.video_id) Demo.fresh in
    let handle := uuid4 Demo.env (issued Demo.fresh) in
    let last_job := Py.encode_utf8 ("yt:last_job:" +:+ Demo.video_id) in
    r = Returned handle
    ∧ queue w' = queue Demo.fresh
                 ++ [Job handle DownloadAvJob Demo.video_id 3600]
    ∧ now w' = now Demo.fresh
    ∧ (∀ d, Redis.get (now w' + d) (redis w') last_job
            = if d <=? 3600 then Some handle else None)
    ∧ (∀ d, Redis.get (now w' + d) (redis w') (_b (k_lock Demo.video_id))
            = if d <=? 600 then Some "1" else None)
    ∧ (∀ k, k ≠ last_job → k ≠ _b (k_lock Demo.video_id) →
            Py.startswith "rq:" k = false →
            redis w' !! k = redis Demo.fresh !! k).
Proof.
  split; [reflexivity|]. split; [reflexivity|].
  apply (ensure_cache_request_records_handle Demo.env Demo.video_id
           Demo.fresh None); reflexivity.
Defined.

Lemma status_payload_reports_witness :
  media_in Demo.fresh Demo.video_id = Returned None
  ∧ let '(r, w', ev) :=
      run Demo.env (status_payload "http://localhost:58000" Demo.video_id)
        Demo.fresh in
    let idle := media_ready None || lock_held Demo.fresh Demo.video_id in
    let handle := uuid4 Demo.env (issued Demo.fresh) in
    ∃ d, r = Returned d
         ∧ Py.dict_get "ready" d = Py.VBool (media_ready None)
         ∧ Py.dict_get "video_id" d = Py.VStr Demo.video_id
         ∧ Py.dict_get "video_url" d
           = (if media_ready None
              then Py.VStr ("http://localhost:58000" +:+ "/media/"
                            +:+ Demo.video_id +:+ "/video")
              else Py.VNone)
         ∧ Py.dict_get "audio_url" d
           = (if media_ready None
              then Py.VStr ("http://localhost:58000" +:+ "/media/"
                            +:+ Demo.video_id +:+ "/audio")
              else Py.VNone)
         ∧ Py.dict_get "job_id" d
           = (if idle then Py.VNone
              else if decide (handle = EmptyString) then Py.VNone
                   else Py.VStr handle)
         ∧ enqueued ev
           = (if idle then []
              else [Job handle DownloadAvJob Demo.video_id 3600])
         ∧ (idle = true → w' = Demo.fresh).
Proof.
  split; [reflexivity|].
  apply (status_payload_reports Demo.env "http://localhost:58000"
           Demo.video_id Demo.fresh None); reflexivity.
Defined.

Lemma status_video_id_hides_v_witness :
  "oops" ≠ EmptyString
  ∧ extract_youtube_id Demo.env "oops" = None
  ∧ run Demo.env
      (status Demo.env "http://localhost:58000" (Some "oops")
         (Some Demo.video_id) None)
      Demo.fresh
    = (Returned (HTTPException 400 "Unable to resolve video_id"),
       Demo.fresh, []).
Proof.
  split; [discriminate|]. split; [reflexivity|].
  apply (status_video_id_hides_v Demo.env "http://localhost:58000" "oops"
           (Some Demo.video_id) Demo.fresh); [discriminate | reflexivity].
Defined.

Lemma media_video_serves_witness :
  extract_youtube_id Demo.env Demo.video_id = Some Demo.video_id
  ∧ media_in Demo.cached Demo.video_id = Returned (Some Demo.payload)
  ∧ Py.dict_get "video_path" Demo.payload = Py.VStr Demo.video_file
  ∧ run Demo.env (media_video Demo.env Cases.guess_type Demo.video_id)
      Demo.cached
    = (Returned (FileResponse Demo.video_file
                   (media_type_of (Cases.guess_type Demo.video_file))
                   (basename Demo.video_file) CACHE_HEADERS),
       Demo.cached,
       [EvGet (_b (k_media Demo.video_id))
          (Redis.get (now Demo.cached) (redis Demo.cached)
             (_b (k_media Demo.video_id)))]).
Proof.
  split; [reflexivity|]. split; [reflexivity|]. split; [reflexivity|].
  apply (media_video_serves Demo.env Cases.guess_type Demo.video_id
           Demo.video_id Demo.cached Demo.payload Demo.video_file);
    [reflexivity | reflexivity | reflexivity | discriminate].
Defined.

Lemma media_audio_serves_witness :
  extract_youtube_id Demo.env Demo.video_id = Some Demo.video_id
  ∧ media_in Demo.cached Demo.video_id = Returned (Some Demo.payload)
  ∧ Py.dict_get "audio_path" Demo.payload = Py.VStr Demo.audio_file
  ∧ run Demo.env (media_audio Demo.env Cases.guess_type Demo.video_id)
      Demo.cached
    = (Returned (FileResponse Demo.audio_file
                   (media_type_of (Cases.guess_type Demo.audio_file))
                   (basename Demo.audio_file) CACHE_HEADERS),
       Demo.cached,
       [EvGet (_b (k_media Demo.video_id))
          (Redis.get (now Demo.cached) (redis Demo.cached)
             (_b (k_media Demo.video_id)))]).
Proof.
  split; [reflexivity|]. split; [reflexivity|]. split; [reflexivity|].
  apply (media_audio_serves Demo.env Cases.guess_type Demo.video_id
           Demo.video_id Demo.cached Demo.payload Demo.audio_file);
    [reflexivity | reflexivity | reflexivity | discriminate].
Defined.

Lemma media_video_not_cached_witness :
  extract_youtube_id Demo.env Demo.video_id = Some Demo.video_id
  ∧ media_in Demo.fresh Demo.video_id = Returned None
  ∧ let '(r, w', ev) :=
      run Demo.env (media_video Demo.env Cases.guess_type Demo.video_id)
        Demo.fresh in
    r = Returned (HTTPException 404 "Video not cached yet")
    ∧ enqueued ev
      = (if lock_held Demo.fresh Demo.video_id then []
         else [Job (uuid4 Demo.env (issued Demo.fresh)) DownloadAvJob
                 Demo.video_id 3600])
    ∧ (lock_held Demo.fresh Demo.video_id = true → w' = Demo.fresh).
Proof.
  split; [reflexivity|]. split; [reflexivity|].
  apply (media_video_not_cached Demo.env Cases.guess_type Demo.video_id
           Demo.video_id Demo.fresh None); reflexivity.
Defined.

Lemma media_audio_not_cached_witness :
  extract_youtube_id Demo.env Demo.video_id = Some Demo.video_id
  ∧ media_in Demo.requested Demo.video_id = Returned None
  ∧ let '(r, w', ev) :=
      run Demo.env (media_audio Demo.env Cases.guess_type Demo.video_id)
        Demo.requested in
    r = Returned (HTTPException 404 "Audio not cached yet")
    ∧ enqueued ev
      = (if lock_held Demo.requested Demo.video_id then []
         else [Job (uuid4 Demo.env (issued Demo.requested)) DownloadAvJob
                 Demo.video_id 3600])
    ∧ (lock_held Demo.requested Demo.video_id = true → w' = Demo.requested).
Proof.
  split; [reflexivity|]. split; [reflexivity|].
  apply (media_audio_not_cached Demo.env Cases.guess_type Demo.video_id
           Demo.video_id Demo.requested None); reflexivity.
Defined.

Lemma routes_enqueue_identifiers_witness :
  let ev :=
    (run Demo.env
       (status Demo.env "http://localhost:58000" None
          (Some Demo.video_id) None)
       Demo.fresh).2 in
  enqueued ev = [Job "job-0" DownloadAvJob Demo.video_id 3600]
  ∧ (length (enqueued ev) ≤ 1)%nat
  ∧ Forall (λ j, is_video_id (job_arg j) = true
                 ∧ job_fn j = DownloadAvJob ∧ job_timeout j = 3600)
      (enqueued ev).
Proof.
  split; [reflexivity|].
  apply (routes_enqueue_identifiers Demo.env "http://localhost:58000"
           Cases.guess_type None (Some Demo.video_id) None Demo.video_id
           Demo.fresh);
    [exact strip_strips_newline | left; reflexivity].
Defined.
